(** * Kindle EPUB modifier: a shallow embedding of
      [modify_epub_margins.py] (module [Cli]) and
      [interactive_epub_modifier.py] (module [Interactive]).

    Python [str] values are [string]s holding their UTF-8 bytes, Python
    [int]s are [Z].  A ZIP archive is the list of its members, a
    directory is the list of what lies below it, and the host file
    system binds [pathlib] paths to what they hold.  What the tools ask
    of the standard library and of the operating system, and cannot
    decide themselves, is a field of the record [Host]. *)

From Stdlib Require Import ZArith List String Ascii Bool Lia Permutation.
From Stdlib Require Import Numbers.DecimalString.
Import ListNotations.
Open Scope list_scope.
Open Scope string_scope.

(** ** Python string helpers *)

(** [str(n)] for an [int]. *)
Definition py_str_int (n : Z) : string :=
  NilZero.string_of_int (Z.to_int n).

(** [needle in hay] for two [str]. *)
Fixpoint contains (needle hay : string) : bool :=
  if String.prefix needle hay then true
  else match hay with
       | EmptyString => false
       | String _ rest => contains needle rest
       end.

(** [s.endswith(suffix)]. *)
Fixpoint endswith (s suffix : string) : bool :=
  if String.eqb s suffix then true
  else match s with
       | EmptyString => false
       | String _ rest => endswith rest suffix
       end.

Definition newline : string := String (ascii_of_nat 10) EmptyString.

(** ** CSS fragments *)

(** The text both tools share: [get_margin_css]. *)
Definition get_margin_css (margin_size : Z) : string :=
  "
/* Уменьшенные поля для Kindle */
html, body {
    margin-left: -" ++ py_str_int margin_size ++ "px !important;
    margin-right: -" ++ py_str_int margin_size ++ "px !important;
    padding: 0 !important;
}
".

Definition get_no_hyphenation_css : string :=
  "
/* Отключение переносов слов для Kindle */
* {
    -webkit-hyphens: none !important;
    -moz-hyphens: none !important;
    -ms-hyphens: none !important;
    hyphens: none !important;
    word-break: keep-all !important;
    overflow-wrap: normal !important;
}

p, div, span, td, th {
    -webkit-hyphens: none !important;
    -moz-hyphens: none !important;
    -ms-hyphens: none !important;
    hyphens: none !important;
    word-break: keep-all !important;
}
".

Definition get_combined_css (margin_size : Z) : string :=
  "
/* Уменьшенные поля для Kindle */
html, body {
    margin-left: -" ++ py_str_int margin_size ++ "px !important;
    margin-right: -" ++ py_str_int margin_size ++ "px !important;
    padding: 0 !important;
}

/* Отключение переносов слов для Kindle */
* {
    -webkit-hyphens: none !important;
    -moz-hyphens: none !important;
    -ms-hyphens: none !important;
    hyphens: none !important;
    word-break: keep-all !important;
    overflow-wrap: normal !important;
}

p, div, span, td, th {
    -webkit-hyphens: none !important;
    -moz-hyphens: none !important;
    -ms-hyphens: none !important;
    hyphens: none !important;
    word-break: keep-all !important;
}
".

(** A CSS rule as the specification words it: a selector and its
    declarations, each one printed with the override marker. *)
Definition css_declaration (property value : string) : string :=
  "    " ++ property ++ ": " ++ value ++ " !important;" ++ newline.

Definition css_rule (comment selector : string)
    (decls : list (string * string)) : string :=
  newline ++ "/* " ++ comment ++ " */" ++ newline ++
  selector ++ " {" ++ newline ++
  String.concat "" (map (fun d => css_declaration (fst d) (snd d)) decls) ++
  "}" ++ newline.

Definition margin_rule_spec (margin_size : Z) : string :=
  css_rule "Уменьшенные поля для Kindle" "html, body"
    [ ("margin-left", "-" ++ py_str_int margin_size ++ "px");
      ("margin-right", "-" ++ py_str_int margin_size ++ "px");
      ("padding", "0") ].

(** ** Paths inside an archive and inside the scratch directory *)

(** [s.split("/")]: never empty, the components hold no [/]. *)
Fixpoint split_path (s : string) : list string :=
  match s with
  | EmptyString => [""]
  | String c rest =>
      if Ascii.eqb c "/" then "" :: split_path rest
      else match split_path rest with
           | [] => [String c ""]
           | h :: t => String c h :: t
           end
  end.

(** ["/".join(parts)]. *)
Definition join_path (parts : list string) : string :=
  String.concat "/" parts.

(** [os.path.basename] of a relative path. *)
Definition basename (p : string) : string := last (split_path p) "".

(** The components [zipfile] refuses when it extracts a member:
    [invalid_path_parts = ('', os.path.curdir, os.path.pardir)]. *)
Definition invalid_path_part (c : string) : bool :=
  String.eqb c "" || String.eqb c "." || String.eqb c "..".

(** The components of the place a member is extracted to, below the
    scratch directory. *)
Definition member_parts (name : string) : list string :=
  filter (fun c => negb (invalid_path_part c)) (split_path name).

(** [ZipInfo.is_dir]: the name ends with a slash. *)
Definition member_is_dir (name : string) : bool := endswith name "/".

(** ** Archives *)

Inductive compress_type := ZIP_STORED | ZIP_DEFLATED.

Record entry := mk_entry {
  e_name : string;
  e_data : string;
  e_compress : compress_type
}.

(** The members of a ZIP file, in the order they were written. *)
Definition archive := list entry.

(** Exceptions that leave [process_epub]; the batch loop catches all of
    them as [Exception].  The model is exact on which calls raise; the
    exception it names is the usual one for the call. *)
Inductive error :=
  | FileNotFoundError
  | BadZipFile
  | FileExistsError
  | NotADirectoryError
  | IsADirectoryError
  | PermissionError
  | UnboundLocalError
  | TypeError
  | EOFError.

Inductive result (A : Type) :=
  | Ok (a : A)
  | Raise (e : error).
Arguments Ok {A} a.
Arguments Raise {A} e.

Definition bind {A B} (r : result A) (k : A -> result B) : result B :=
  match r with
  | Ok a => k a
  | Raise e => Raise e
  end.

Notation "x <- r ;; k" := (bind r (fun x => k))
  (at level 61, r at next level, right associativity).

(** ** The scratch directory *)

Inductive node :=
  | File (content : string)
  | Dir.

(** What lies below [temp_dir]: every file and every directory, keyed by
    its path relative to [temp_dir]. *)
Definition tree := list (string * node).

Fixpoint t_lookup (t : tree) (p : string) : option node :=
  match t with
  | [] => None
  | (q, n) :: rest => if String.eqb q p then Some n else t_lookup rest p
  end.

(** [os.path.exists(os.path.join(temp_dir, p))]. *)
Definition t_exists (t : tree) (p : string) : bool :=
  match t_lookup t p with
  | Some _ => true
  | None => false
  end.

(** Replace the node at [p], or add it at the end. *)
Fixpoint t_set (t : tree) (p : string) (n : node) : tree :=
  match t with
  | [] => [(p, n)]
  | (q, m) :: rest =>
      if String.eqb q p then (q, n) :: rest else (q, m) :: t_set rest p n
  end.

(** [os.makedirs(d, exist_ok=True)] for the directory with components
    [parts]; [done] are the components already walked through. *)
Fixpoint makedirs_from (t : tree) (done parts : list string) : result tree :=
  match parts with
  | [] => Ok t
  | c :: rest =>
      let d := join_path (done ++ [c])%list in
      match t_lookup t d with
      | Some (File _) =>
          Raise (match rest with [] => FileExistsError | _ => NotADirectoryError end)
      | Some Dir => makedirs_from t (done ++ [c])%list rest
      | None => makedirs_from (t_set t d Dir) (done ++ [c])%list rest
      end
  end.

Definition makedirs (t : tree) (parts : list string) : result tree :=
  makedirs_from t [] parts.

(** [open(p, "wb")] followed by writing [data]; the parent exists. *)
Definition write_file (t : tree) (p data : string) : result tree :=
  match t_lookup t p with
  | Some Dir => Raise IsADirectoryError
  | _ => Ok (t_set t p (File data))
  end.

(** [open(p, "a")] followed by writing [data]. *)
Definition append_file (t : tree) (p data : string) : result tree :=
  match t_lookup t p with
  | Some Dir => Raise IsADirectoryError
  | Some (File old) => Ok (t_set t p (File (old ++ data)))
  | None => Ok (t_set t p (File data))
  end.

(** The upper directories of a member, as [_extract_member] makes them:
    [os.makedirs(upperdirs)] when that path does not exist.  A regular
    file on the path is not replaced; the [mkdir] or the [open] that
    meets it raises [NotADirectoryError]. *)
Definition make_upperdirs (t : tree) (parts : list string) : result tree :=
  match makedirs t parts with
  | Ok t1 => Ok t1
  | Raise _ => Raise NotADirectoryError
  end.

(** [ZipFile._extract_member]. *)
Definition extract_member (t : tree) (e : entry) : result tree :=
  let parts := member_parts (e_name e) in
  match parts with
  | [] => if member_is_dir (e_name e) then Ok t else Raise IsADirectoryError
  | _ :: _ =>
      t1 <- make_upperdirs t (removelast parts) ;;
      if member_is_dir (e_name e) then
        match t_lookup t1 (join_path parts) with
        | Some Dir => Ok t1
        | Some (File _) => Raise FileExistsError
        | None => Ok (t_set t1 (join_path parts) Dir)
        end
      else write_file t1 (join_path parts) (e_data e)
  end.

(** [zip_ref.extractall(temp_dir)] into a fresh directory. *)
Fixpoint extract_members (t : tree) (a : archive) : result tree :=
  match a with
  | [] => Ok t
  | e :: rest => t1 <- extract_member t e ;; extract_members t1 rest
  end.

Definition extractall (a : archive) : result tree := extract_members [] a.

(** Where below the scratch directory a member is extracted to. *)
Definition member_target (e : entry) : string :=
  join_path (member_parts (e_name e)).

(** ** [pathlib] paths on the host file system *)

(** A [PurePosixPath]: its root ([""], ["/"] or ["//"]) and its parts
    below the root. *)
Record ppath := mk_ppath {
  p_root : string;
  p_parts : list string
}.

Definition list_string_eqb (a b : list string) : bool :=
  if list_eq_dec string_dec a b then true else false.

Definition ppath_eqb (a b : ppath) : bool :=
  String.eqb (p_root a) (p_root b) && list_string_eqb (p_parts a) (p_parts b).

(** The root [pathlib] reads off the front of a string: two leading
    slashes are kept, one or three and more are a single slash. *)
Definition parse_root (s : string) : string :=
  match s with
  | String "/" (String "/" (String "/" _)) => "/"
  | String "/" (String "/" _) => "//"
  | String "/" _ => "/"
  | _ => ""
  end.

(** [Path(s)]: empty and [.] components are dropped, [..] is kept. *)
Definition parse_path (s : string) : ppath :=
  mk_ppath (parse_root s)
    (filter (fun c => negb (String.eqb c "" || String.eqb c ".")) (split_path s)).

(** [p.name]. *)
Definition p_name (p : ppath) : string := last (p_parts p) "".

(** [p.parent]. *)
Definition p_parent (p : ppath) : ppath :=
  mk_ppath (p_root p) (removelast (p_parts p)).

(** [name.rfind('.')] as the text before and from the last dot, when
    there is a dot. *)
Fixpoint rsplit_dot (name : string) : option (string * string) :=
  match name with
  | EmptyString => None
  | String c rest =>
      match rsplit_dot rest with
      | Some (before, from_dot) => Some (String c before, from_dot)
      | None => if Ascii.eqb c "." then Some ("", name) else None
      end
  end.

(** [p.stem]: the name up to its last dot, when that dot is neither the
    first nor the last character. *)
Definition stem_of (name : string) : string :=
  match rsplit_dot name with
  | Some (before, from_dot) =>
      if (0 <? String.length before)%nat && (1 <? String.length from_dot)%nat
      then before else name
  | None => name
  end.

Definition p_stem (p : ppath) : string := stem_of (p_name p).

(** [p / s]. *)
Definition p_join (p : ppath) (s : string) : ppath :=
  let q := parse_path s in
  if String.eqb (p_root q) "" then mk_ppath (p_root p) (p_parts p ++ p_parts q)%list
  else q.

(** What a path of the host holds: a well-formed ZIP file, any other
    bytes, or a directory. *)
Inductive fcontent :=
  | ZipData (a : archive)
  | RawData (bytes : string)
  | Directory.

(** The host file system: the most recent binding of a path is the one
    in force. *)
Definition fs := list (ppath * fcontent).

Fixpoint fs_lookup (w : fs) (p : ppath) : option fcontent :=
  match w with
  | [] => None
  | (q, c) :: rest => if ppath_eqb q p then Some c else fs_lookup rest p
  end.


(** [zipfile.ZipFile(p, 'r')]. *)
Definition open_zip (w : fs) (p : ppath) : result archive :=
  match fs_lookup w p with
  | None => Raise FileNotFoundError
  | Some Directory => Raise IsADirectoryError
  | Some (RawData _) => Raise BadZipFile
  | Some (ZipData a) => Ok a
  end.

(** What the program cannot decide by itself: the library functions it
    calls on text, and the answers of the operating system. *)
Record Host := mk_Host {
  (** [glob.glob(pattern)] in the working directory *)
  glob : string -> list string;
  (** [os.path.exists(p)] when the run starts *)
  path_exists : string -> bool;
  (** [int(s)]; [None] is its [ValueError] *)
  py_int : string -> option Z;
  (** [s.strip()] *)
  py_strip : string -> string;
  (** [s.lower()] *)
  py_lower : string -> string;
  (** the order in which [for x in set(l)] meets the elements *)
  set_iter : list string -> list string;
  (** the order in which [os.walk] meets the files of a directory *)
  scandir_order : list (string * string) -> list (string * string);
  (** whether a path may be opened for writing *)
  writable : ppath -> bool
}.

(** [zipfile.ZipFile(p, 'w')] ... [close()], with members [a]. *)
Definition write_zip (h : Host) (w : fs) (p : ppath) (a : archive) : result fs :=
  match fs_lookup w p with
  | Some Directory => Raise IsADirectoryError
  | _ => if writable h p then Ok ((p, ZipData a) :: w) else Raise PermissionError
  end.

(** ** The archive transform shared by both tools *)

Definition possible_paths : list string :=
  [ "OPS/style.css"; "OEBPS/style.css"; "styles/style.css"; "css/style.css" ].

Definition find_css_file (t : tree) : option string :=
  find (t_exists t) possible_paths.

Definition placeholder_css : string :=
  "/* Автоматически созданный CSS */" ++ newline.

(** The lines of [process_epub] from [find_css_file] to the write of
    the placeholder: the stylesheet that is appended to, and the
    directory with it in place. *)
Definition resolve_css_file (t : tree) : result (string * tree) :=
  match find_css_file t with
  | Some css_file => Ok (css_file, t)
  | None =>
      t1 <- makedirs t ["OPS"] ;;
      t2 <- write_file t1 (join_path ["OPS"; "style.css"]) placeholder_css ;;
      Ok (join_path ["OPS"; "style.css"], t2)
  end.

(** The regular files below [temp_dir], with their contents. *)
Fixpoint tree_files (t : tree) : list (string * string) :=
  match t with
  | [] => []
  | (p, File c) :: rest => (p, c) :: tree_files rest
  | (_, Dir) :: rest => tree_files rest
  end.

(** The first member written: [mimetype], when the path exists. *)
Definition mimetype_member (t : tree) : archive :=
  match t_lookup t "mimetype" with
  | Some (File c) => [mk_entry "mimetype" c ZIP_STORED]
  | Some Dir => [mk_entry "mimetype/" "" ZIP_STORED]
  | None => []
  end.

(** The members written by the [os.walk] loop. *)
Definition walk_members (h : Host) (t : tree) : archive :=
  map (fun f => mk_entry (fst f) (snd f) ZIP_DEFLATED)
      (filter (fun f => negb (String.eqb (basename (fst f)) "mimetype"))
              (scandir_order h (tree_files t))).

Definition build_archive (h : Host) (t : tree) : archive :=
  (mimetype_member t ++ walk_members h t)%list.


(** From the opened source archive to the members of the new one. *)
Definition transform (h : Host) (css_content : string) (a : archive)
    : result archive :=
  t0 <- extractall a ;;
  r <- resolve_css_file t0 ;;
  t1 <- append_file (snd r) (fst r) css_content ;;
  Ok (build_archive h t1).

(** The body of [process_epub] once the CSS text and the output path
    are known. *)
Definition run_transform (h : Host) (w : fs) (epub_path output_path : ppath)
    (css_content : string) : result fs :=
  a <- open_zip w epub_path ;;
  out <- transform h css_content a ;;
  write_zip h w output_path out.

(** ** The calls a batch loop makes *)

Definition raised {A} (r : result A) : bool :=
  match r with
  | Ok _ => false
  | Raise _ => true
  end.

(** Both tools run [for epub_file in files: try: process_epub(...)].
    [attempts_of process files w] lists, file by file, what the call made
    for that file does: it returns and leaves a file system, or it
    raises and the loop goes on from the file system as it was. *)
Fixpoint attempts_of (process : fs -> string -> result fs)
    (files : list string) (w : fs) : list (result fs) :=
  match files with
  | [] => []
  | epub_file :: rest =>
      let r := process w epub_file in
      r :: attempts_of process rest
             (match r with Ok w' => w' | Raise _ => w end)
  end.

(** ** The command-line tool, [modify_epub_margins.py] *)

Module Cli.

(** What [main] prints, one constructor per [print] call of [main]. *)
Inductive message :=
  | MsgUsage
  | MsgNotANumber (arg : string)
  | MsgMarginNeedsNumber
  | MsgNoEpubInFolder
  | MsgFound (n : nat)
  | MsgNoFilesGiven
  | MsgSeeHelp
  | MsgSkipProcessed (f : string)
  | MsgSkip (f : string)
  | MsgNothingToProcess
  | MsgPlan (n : nat) (margin_size : Z) (files : list string)
  | MsgError (f : string) (e : error)
  | MsgSummary (success_count total : nat).

Definition output_path_of (epub_path : ppath) : ppath :=
  p_join (p_parent epub_path) (p_stem epub_path ++ "-upgrade.epub").

Definition process_epub (h : Host) (w : fs) (epub_path : string)
    (margin_size : Z) : result fs :=
  let epub_path := parse_path epub_path in
  let output_path := output_path_of epub_path in
  run_transform h w epub_path output_path (get_margin_css margin_size).

Definition get_epub_files (h : Host) : list string := glob h "*.epub".

(** The state of the argument loop when it ends, or the exit it took. *)
Inductive parsed :=
  | ParseExit (status : Z) (printed : list message)
  | Parsed (epub_files : list string) (margin_size : Z).

(** The [while i < len(args)] loop, on the arguments from [i] on. *)
Fixpoint parse_args (h : Host) (args : list string)
    (epub_files : list string) (margin_size : Z) : parsed :=
  match args with
  | [] => Parsed epub_files margin_size
  | arg :: rest =>
      if String.eqb arg "--help" || String.eqb arg "-h" then
        ParseExit 0 [MsgUsage]
      else if String.eqb arg "--margin" then
        match rest with
        | value :: rest' =>
            match py_int h value with
            | Some n => parse_args h rest' epub_files n
            | None => ParseExit 1 [MsgNotANumber value]
            end
        | [] => ParseExit 1 [MsgMarginNeedsNumber]
        end
      else if String.eqb arg "--all" then
        parse_args h rest epub_files margin_size
      else if contains "*" arg then
        parse_args h rest
          (epub_files ++
             filter (fun f => endswith (py_lower h f) ".epub") (glob h arg))%list
          margin_size
      else parse_args h rest (epub_files ++ [arg])%list margin_size
  end.

(** The loop over [set(epub_files)]: the files kept and what is printed. *)
Fixpoint filter_files (h : Host) (candidates : list string)
    : list string * list message :=
  match candidates with
  | [] => ([], [])
  | epub_file :: rest =>
      let (unique_files, printed) := filter_files h rest in
      if path_exists h epub_file && endswith (py_lower h epub_file) ".epub" then
        if negb (endswith epub_file "-upgrade.epub")
        then (epub_file :: unique_files, printed)
        else (unique_files, MsgSkipProcessed epub_file :: printed)
      else (unique_files, MsgSkip epub_file :: printed)
  end.


(** The state of the batch loop. *)
Record batch_state := mk_batch {
  b_fs : fs;
  b_success_count : nat;
  b_printed : list message
}.

(** The [for epub_file in unique_files] loop with its [try]. *)
Fixpoint batch (h : Host) (margin_size : Z) (files : list string)
    (st : batch_state) : batch_state :=
  match files with
  | [] => st
  | epub_file :: rest =>
      match process_epub h (b_fs st) epub_file margin_size with
      | Ok w' =>
          batch h margin_size rest
            (mk_batch w' (S (b_success_count st))
               (b_printed st))
      | Raise e =>
          batch h margin_size rest
            (mk_batch (b_fs st) (b_success_count st)
               (b_printed st ++ [MsgError epub_file e])%list)
      end
  end.

(** The calls the batch loop makes on [files]. *)
Definition attempts (h : Host) (margin_size : Z) (files : list string) (w : fs)
    : list (result fs) :=
  attempts_of (fun w epub_file => process_epub h w epub_file margin_size) files w.

(** How a run ends: its exit status, what it printed, the file system
    it leaves, and the files it called [process_epub] on. *)
Record outcome := mk_outcome {
  status : Z;
  printed : list message;
  final_fs : fs;
  processed : list string
}.

(** [not epub_files or "--all" in sys.argv]. *)
Definition scans (argv epub_files : list string) : bool :=
  match epub_files with
  | [] => true
  | _ :: _ => existsb (String.eqb "--all") argv
  end.

(** [epub_files] after the directory scan, when there is one. *)
Definition resolved (h : Host) (argv epub_files : list string) : list string :=
  if scans argv epub_files then get_epub_files h else epub_files.

(** [main()], with [argv] the whole of [sys.argv]. *)
Definition main (h : Host) (w : fs) (argv : list string) : outcome :=
  match parse_args h (tl argv) [] 20 with
  | ParseExit code msgs => mk_outcome code msgs w []
  | Parsed epub_files margin_size =>
      let scan := scans argv epub_files in
      match resolved h argv epub_files,
            (if scan then [MsgFound (List.length (get_epub_files h))] else []) with
      | [], _ =>
          if scan then mk_outcome 1 [MsgNoEpubInFolder] w []
          else mk_outcome 1 [MsgNoFilesGiven; MsgSeeHelp] w []
      | (_ :: _) as epub_files', msgs =>
          let (unique_files, skipped) := filter_files h (set_iter h epub_files') in
          match unique_files with
          | [] => mk_outcome 1 (msgs ++ skipped ++ [MsgNothingToProcess])%list w []
          | _ :: _ =>
              let st := batch h margin_size unique_files
                          (mk_batch w 0
                             (msgs ++ skipped ++
                                [MsgPlan (List.length unique_files) margin_size
                                   unique_files])%list) in
              mk_outcome 0
                (b_printed st ++
                   [MsgSummary (b_success_count st) (List.length unique_files)])%list
                (b_fs st) unique_files
          end
      end
  end.

End Cli.

(** ** The interactive tool, [interactive_epub_modifier.py] *)

Module Interactive.

Definition process_epub (h : Host) (w : fs) (epub_path : string)
    (modification_type : string) (margin_size : Z) (output_mode : string)
    (output_dir : option ppath) : result fs :=
  let epub_path := parse_path epub_path in
  output_path <-
    (if String.eqb output_mode "replace" then Ok epub_path
     else match output_dir with
          | Some d => Ok (p_join d (p_name epub_path))
          | None => Raise TypeError
          end) ;;
  css_content <-
    (if String.eqb modification_type "margins" then Ok (get_margin_css margin_size)
     else if String.eqb modification_type "hyphens" then Ok get_no_hyphenation_css
     else if String.eqb modification_type "both" then Ok (get_combined_css margin_size)
     else Raise UnboundLocalError) ;;
  run_transform h w epub_path output_path css_content.

Definition output_markers : list string :=
  [ "-margins.epub"; "-no-hyphens.epub"; "-enhanced.epub"; "-upgrade.epub" ].

Definition get_epub_files (h : Host) : list string :=
  filter (fun f => negb (existsb (fun suffix => contains suffix f) output_markers))
         (glob h "*.epub").

(** Each [ask_*] function reads the lines of standard input it needs
    and gives back the rest; [None] is the [EOFError] of [input()]. *)
Fixpoint ask_modification_type (h : Host) (stdin : list string)
    : option (option string * list string) :=
  match stdin with
  | [] => None
  | line :: rest =>
      let choice := py_strip h line in
      if String.eqb choice "1" then Some (Some "margins", rest)
      else if String.eqb choice "2" then Some (Some "hyphens", rest)
      else if String.eqb choice "3" then Some (Some "both", rest)
      else if String.eqb choice "0" then Some (None, rest)
      else ask_modification_type h rest
  end.

Fixpoint ask_margin_size (h : Host) (stdin : list string)
    : option (Z * list string) :=
  match stdin with
  | [] => None
  | line :: rest =>
      let size := py_strip h line in
      if String.eqb size "" then Some (20%Z, rest)
      else match py_int h size with
           | Some n => Some (n, rest)
           | None => ask_margin_size h rest
           end
  end.

Fixpoint ask_output_mode (h : Host) (stdin : list string)
    : option (option string * list string) :=
  match stdin with
  | [] => None
  | line :: rest =>
      let choice := py_strip h line in
      if String.eqb choice "1" then Some (Some "folder", rest)
      else if String.eqb choice "2" then Some (Some "replace", rest)
      else if String.eqb choice "0" then Some (None, rest)
      else ask_output_mode h rest
  end.

Fixpoint ask_file_selection (h : Host) (epub_files : list string)
    (stdin : list string) : option (option (list string) * list string) :=
  match stdin with
  | [] => None
  | line :: rest =>
      let choice := py_strip h line in
      if String.eqb choice "0" then Some (None, rest)
      else if String.eqb choice
                (py_str_int (Z.of_nat (List.length epub_files) + 1))
      then Some (Some epub_files, rest)
      else match py_int h choice with
           | Some n =>
               let index := (n - 1)%Z in
               if ((0 <=? index) && (index <? Z.of_nat (List.length epub_files)))%Z
               then Some (Some [nth (Z.to_nat index) epub_files ""], rest)
               else ask_file_selection h epub_files rest
           | None => ask_file_selection h epub_files rest
           end
  end.

(** [answer.strip().lower()]. *)
Definition normalized (h : Host) (answer : string) : string :=
  py_lower h (py_strip h answer).

(** [confirm_replace in ['yes', 'да']]. *)
Definition confirms_replace (h : Host) (answer : string) : bool :=
  existsb (String.eqb (normalized h answer)) ["yes"; "да"].

(** [confirm in ['y', 'yes', 'д', 'да']]. *)
Definition says_yes (h : Host) (answer : string) : bool :=
  existsb (String.eqb (normalized h answer)) ["y"; "yes"; "д"; "да"].

(** [Path("books-upgrade").mkdir(exist_ok=True)]. *)
Definition mkdir_output_dir (h : Host) (w : fs) (d : ppath) : result fs :=
  match fs_lookup w d with
  | Some Directory => Ok w
  | Some _ => Raise FileExistsError
  | None => if writable h d then Ok ((d, Directory) :: w) else Raise PermissionError
  end.

(** The calls of [process_epub] a run makes, and the answers it reads at
    the overwrite prompt, in the order they happen. *)
Inductive event :=
  | AtMenu
  | AnsweredOverwrite (answer : string)
  | Processing (epub_file : string) (output_mode : string).

Record batch_state := mk_batch {
  b_fs : fs;
  b_success_count : nat;
  b_trace : list event
}.

(** The [for epub_file in selected_files] loop with its [try]. *)
Fixpoint batch (h : Host) (modification_type : string) (margin_size : Z)
    (output_mode : string) (output_dir : option ppath)
    (files : list string) (st : batch_state) : batch_state :=
  match files with
  | [] => st
  | epub_file :: rest =>
      let tr := (b_trace st ++ [Processing epub_file output_mode])%list in
      match process_epub h (b_fs st) epub_file modification_type margin_size
              output_mode output_dir with
      | Ok w' =>
          batch h modification_type margin_size output_mode output_dir rest
            (mk_batch w' (S (b_success_count st)) tr)
      | Raise _ =>
          batch h modification_type margin_size output_mode output_dir rest
            (mk_batch (b_fs st) (b_success_count st) tr)
      end
  end.

(** The calls the batch loop makes on [files]. *)
Definition attempts (h : Host) (modification_type : string) (margin_size : Z)
    (output_mode : string) (output_dir : option ppath)
    (files : list string) (w : fs) : list (result fs) :=
  attempts_of
    (fun w epub_file =>
       process_epub h w epub_file modification_type margin_size output_mode
         output_dir)
    files w.

(** Where [process_epub] writes. *)
Definition output_path_of (epub_path : ppath) (output_mode : string)
    (output_dir : option ppath) : option ppath :=
  if String.eqb output_mode "replace" then Some epub_path
  else match output_dir with
       | Some d => Some (p_join d (p_name epub_path))
       | None => None
       end.

(** One pass through the body of [while True]. *)
Inductive step :=
  | Break (w : fs) (tr : list event)
  | Uncaught (e : error) (w : fs) (tr : list event)
  | Continue (w : fs) (stdin : list string) (tr : list event).

Definition iteration (h : Host) (epub_files : list string) (w : fs)
    (stdin : list string) : step :=
  match ask_modification_type h stdin with
  | None => Uncaught EOFError w [AtMenu]
  | Some (None, _) => Break w [AtMenu]
  | Some (Some modification_type, in1) =>
    match (if String.eqb modification_type "margins"
              || String.eqb modification_type "both"
           then ask_margin_size h in1 else Some (20%Z, in1)) with
    | None => Uncaught EOFError w [AtMenu]
    | Some (margin_size, in2) =>
      match ask_output_mode h in2 with
      | None => Uncaught EOFError w [AtMenu]
      | Some (None, in3) => Continue w in3 [AtMenu]
      | Some (Some output_mode, in3) =>
        match (if String.eqb output_mode "replace" then
                 match in3 with
                 | [] => inl (Uncaught EOFError w [AtMenu])
                 | answer :: in4 =>
                     if negb (confirms_replace h answer)
                     then inl (Continue w in4 [AtMenu; AnsweredOverwrite answer])
                     else inr (in4, [AtMenu; AnsweredOverwrite answer])
                 end
               else inr (in3, [AtMenu])) with
        | inl s => s
        | inr (in4, tr) =>
          match (if String.eqb output_mode "folder"
                 then match mkdir_output_dir h w (parse_path "books-upgrade") with
                      | Ok w1 => Ok (Some (parse_path "books-upgrade"), w1)
                      | Raise e => Raise e
                      end
                 else Ok (None, w)) with
          | Raise e => Uncaught e w tr
          | Ok (output_dir, w1) =>
            match ask_file_selection h epub_files in4 with
            | None => Uncaught EOFError w1 tr
            | Some (None, in5) => Continue w1 in5 tr
            | Some (Some selected_files, in5) =>
              match in5 with
              | [] => Uncaught EOFError w1 tr
              | confirm :: in6 =>
                if negb (says_yes h confirm) then Continue w1 in6 tr
                else
                  let st := batch h modification_type margin_size output_mode
                              output_dir selected_files (mk_batch w1 0 tr) in
                  match in6 with
                  | [] => Uncaught EOFError (b_fs st) (b_trace st)
                  | another :: in7 =>
                      if negb (says_yes h another)
                      then Break (b_fs st) (b_trace st)
                      else Continue (b_fs st) in7 (b_trace st)
                  end
              end
            end
          end
        end
      end
    end
  end.

(** How a run ends. *)
Inductive ending :=
  | Exited (status : Z)
  | Returned
  | Died (e : error)
  | Running.

Record outcome := mk_outcome {
  how : ending;
  final_fs : fs;
  trace : list event
}.

(** [while True]: at most [fuel] passes. *)
Fixpoint main_loop (fuel : nat) (h : Host) (epub_files : list string)
    (w : fs) (stdin : list string) (tr : list event) : outcome :=
  match fuel with
  | O => mk_outcome Running w tr
  | S fuel' =>
      match iteration h epub_files w stdin with
      | Break w' tr' => mk_outcome Returned w' (tr ++ tr')%list
      | Uncaught e w' tr' => mk_outcome (Died e) w' (tr ++ tr')%list
      | Continue w' stdin' tr' =>
          main_loop fuel' h epub_files w' stdin' (tr ++ tr')%list
      end
  end.

(** [main()]: every pass reads a line, so one more pass than there are
    lines is enough. *)
Definition main (h : Host) (w : fs) (stdin : list string) : outcome :=
  match get_epub_files h with
  | [] => mk_outcome (Exited 1) w []
  | (_ :: _) as epub_files =>
      main_loop (S (List.length stdin)) h epub_files w stdin []
  end.

(** The overwrite gate, read off a trace: a call of [process_epub] in
    [replace] mode is allowed only after an affirming answer given
    since the menu was last shown. *)
Fixpoint gated_from (h : Host) (affirmed : bool) (tr : list event) : bool :=
  match tr with
  | [] => true
  | AtMenu :: rest => gated_from h false rest
  | AnsweredOverwrite answer :: rest =>
      gated_from h (confirms_replace h answer) rest
  | Processing _ output_mode :: rest =>
      (negb (String.eqb output_mode "replace") || affirmed)
      && gated_from h affirmed rest
  end.

Definition gated (h : Host) (tr : list event) : bool := gated_from h false tr.

End Interactive.

(** ** Well-formed scratch directories *)

(** A component that [zipfile] keeps when it extracts: not empty, not
    [.] or [..], and without a slash. *)
Definition plain_part (c : string) : Prop :=
  invalid_path_part c = false /\ ~ In "/"%char (list_ascii_of_string c).

(** The directories [os.makedirs] walks through below [done], one for
    each component of [rest]. *)
Fixpoint prefixes_from (done rest : list string) : list (list string) :=
  match rest with
  | [] => []
  | c :: rest' => (done ++ [c])%list :: prefixes_from (done ++ [c])%list rest'
  end.

(** Everything in [t] is in [T], as the same kind of node with the same
    content. *)
Definition sub_tree (t T : tree) : Prop :=
  forall p n, t_lookup t p = Some n -> t_lookup T p = Some n.

(** The path [p] is what its own components join to, names no
    directory member, and every folder above it is a directory of [T]. *)
Definition key_ok (T : tree) (p : string) : Prop :=
  member_parts p <> []
  /\ Forall plain_part (member_parts p)
  /\ join_path (member_parts p) = p
  /\ member_is_dir p = false
  /\ forall d, In d (prefixes_from [] (removelast (member_parts p))) ->
               t_lookup T (join_path d) = Some Dir.

(** A scratch directory as extraction builds it: no path twice, and
    every path in it well-formed. *)
Definition tree_ok (T : tree) : Prop :=
  NoDup (map fst T)
  /\ forall p n, t_lookup T p = Some n -> key_ok T p.

(** ** What a pass through the menu leaves *)

(** The file system a pass leaves. *)
Definition step_fs (s : Interactive.step) : fs :=
  match s with
  | Interactive.Break w _ => w
  | Interactive.Uncaught _ w _ => w
  | Interactive.Continue w _ _ => w
  end.

(** The calls and answers of a pass. *)
Definition step_trace (s : Interactive.step) : list Interactive.event :=
  match s with
  | Interactive.Break _ tr => tr
  | Interactive.Uncaught _ _ tr => tr
  | Interactive.Continue _ _ tr => tr
  end.

(** The folder the interactive tool saves to. *)
Definition books_upgrade : ppath := parse_path "books-upgrade".

(** ** A small host and a small book, to run the tools on *)

Module Sample.

Definition digit_of (c : ascii) : option Z :=
  let n := nat_of_ascii c in
  if ((48 <=? n) && (n <=? 57))%nat then Some (Z.of_nat (n - 48)) else None.

Fixpoint parse_digits (acc : Z) (s : string) : option Z :=
  match s with
  | EmptyString => Some acc
  | String c rest =>
      match digit_of c with
      | Some d => parse_digits (10 * acc + d)%Z rest
      | None => None
      end
  end.

(** [int(s)] on plain decimal text with an optional minus sign. *)
Definition decimal_int (s : string) : option Z :=
  match s with
  | EmptyString => None
  | String "-" EmptyString => None
  | String "-" rest => option_map Z.opp (parse_digits 0 rest)
  | _ => parse_digits 0 s
  end.

(** A working directory with two books, one of them an earlier output. *)
Definition folder : list string := ["book.epub"; "book-upgrade.epub"].

Definition host : Host :=
  mk_Host
    (fun pattern => if String.eqb pattern "*.epub" then folder else [])
    (fun p => existsb (String.eqb p) ["book.epub"; "book-upgrade.epub"; "broken.epub"])
    decimal_int
    (fun s => s)
    (fun s => s)
    (nodup string_dec)
    (fun files => files)
    (fun _ => true).

Definition book : archive :=
  [ mk_entry "mimetype" "application/epub+zip" ZIP_STORED;
    mk_entry "META-INF/container.xml" "<container/>" ZIP_DEFLATED;
    mk_entry "OPS/style.css" "p { margin: 0 }" ZIP_DEFLATED;
    mk_entry "OPS/chapter1.xhtml" "<html/>" ZIP_DEFLATED ].

(** A scratch directory without a stylesheet. *)
Definition no_css_tree : tree :=
  [ ("mimetype", File "application/epub+zip");
    ("text", Dir);
    ("text/chapter1.xhtml", File "<html/>") ].

(** A book with a regular file called [OPS] and no stylesheet. *)
Definition ops_file_book : archive :=
  [ mk_entry "mimetype" "application/epub+zip" ZIP_STORED;
    mk_entry "OPS" "notes" ZIP_DEFLATED ].


(** A book that keeps a second file called [mimetype] in a folder. *)
Definition nested_mimetype_book : archive :=
  [ mk_entry "mimetype" "application/epub+zip" ZIP_STORED;
    mk_entry "OPS/style.css" "p { margin: 0 }" ZIP_DEFLATED;
    mk_entry "OPS/fonts/mimetype" "font/ttf" ZIP_DEFLATED ].

Definition disk : fs :=
  [ (parse_path "book.epub", ZipData book);
    (parse_path "book-upgrade.epub", ZipData book);
    (parse_path "broken.epub", RawData "not a zip file") ].

(** A working directory that holds outputs of earlier runs only. *)
Definition old_outputs : list string :=
  ["book-margins.epub"; "old-upgrade.epub.epub"].

Definition old_outputs_host : Host :=
  mk_Host
    (fun pattern => if String.eqb pattern "*.epub" then old_outputs else [])
    (fun p => existsb (String.eqb p) old_outputs)
    decimal_int
    (fun s => s)
    (fun s => s)
    (nodup string_dec)
    (fun files => files)
    (fun _ => true).

Definition old_outputs_disk : fs :=
  [ (parse_path "book-margins.epub", ZipData book);
    (parse_path "old-upgrade.epub.epub", ZipData book) ].

(** The host after the command-line tool has processed [book.epub]. *)
Definition upgraded_disk : fs :=
  Eval vm_compute in
    match Cli.process_epub host disk "book.epub" 20 with
    | Ok w' => w'
    | Raise _ => disk
    end.

End Sample.

(** * Properties *)

(** ** CSS fragments *)

Lemma append_assoc (a b c : string) : (a ++ b) ++ c = a ++ b ++ c.
Proof. induction a as [|x a IH]; simpl; [reflexivity | now rewrite IH]. Qed.

Ltac string_normalize :=
  cbn [String.concat map fst snd append];
  repeat (rewrite !append_assoc; cbn [append]).

(** C4. For every margin size the margin fragment is one rule on
    [html, body] whose declarations are [margin-left] and [margin-right],
    each with the value [-], the size in decimal, [px], and
    [padding: 0]; every declaration carries the [!important] marker.
    At size 20 the two margin declarations read [margin-left: -20px]
    and [margin-right: -20px]. *)
Theorem get_margin_css_declarations :
  (forall margin_size : Z, get_margin_css margin_size = margin_rule_spec margin_size)
  /\ get_margin_css 20 =
       css_rule "Уменьшенные поля для Kindle" "html, body"
         [ ("margin-left", "-20px"); ("margin-right", "-20px"); ("padding", "0") ].
Proof.
  split.
  - intro margin_size.
    unfold get_margin_css, margin_rule_spec, css_rule, css_declaration, newline.
    string_normalize. reflexivity.
  - reflexivity.
Qed.

(** C5. The combined fragment is the margin fragment followed by the
    hyphenation fragment. *)
Theorem get_combined_css_concat (margin_size : Z) :
  get_combined_css margin_size =
  get_margin_css margin_size ++ get_no_hyphenation_css.
Proof.
  unfold get_combined_css, get_margin_css, get_no_hyphenation_css.
  string_normalize. reflexivity.
Qed.

(** ** Text *)

Lemma prefix_spec (a s : string) :
  String.prefix a s = true <-> exists b, s = a ++ b.
Proof.
  revert s; induction a as [|x a IH]; intros s.
  - split; [intros _; now exists s | intros _; now destruct s].
  - destruct s as [|y s]; simpl.
    + split; [discriminate | intros [b Hb]; discriminate].
    + destruct (ascii_dec x y) as [->|Hxy].
      * rewrite IH. split; intros [b Hb]; exists b; [now subst | now injection Hb].
      * split; [discriminate | intros [b Hb]; injection Hb; intros; congruence].
Qed.

Lemma contains_spec (needle hay : string) :
  contains needle hay = true <-> exists a b, hay = a ++ needle ++ b.
Proof.
  induction hay as [|c hay IH]; cbn [contains].
  - destruct (String.prefix needle "") eqn:Hp.
    + apply prefix_spec in Hp as [b Hb]. split; [intros _; now exists "", b | reflexivity].
    + split; [discriminate | intros [a [b Hab]]].
      destruct a; [|discriminate]. simpl in Hab.
      assert (String.prefix needle "" = true) by (apply prefix_spec; now exists b).
      congruence.
  - destruct (String.prefix needle (String c hay)) eqn:Hp.
    + apply prefix_spec in Hp as [b Hb]. split; [intros _; now exists "", b | reflexivity].
    + rewrite IH. split.
      * intros [a [b ->]]. now exists (String c a), b.
      * intros [a [b Hab]]. destruct a as [|x a]; simpl in Hab.
        -- assert (String.prefix needle (String c hay) = true)
             by (apply prefix_spec; now exists b).
           congruence.
        -- injection Hab as _ ->. now exists a, b.
Qed.

Lemma endswith_spec (s suffix : string) :
  endswith s suffix = true <-> exists a, s = a ++ suffix.
Proof.
  induction s as [|c s IH]; cbn [endswith].
  - destruct (String.eqb_spec "" suffix) as [<-|Hne].
    + split; [intros _; now exists "" | reflexivity].
    + split; [discriminate | intros [a Ha]].
      destruct a; simpl in Ha; [congruence | discriminate].
  - destruct (String.eqb_spec (String c s) suffix) as [<-|Hne].
    + split; [intros _; now exists "" | reflexivity].
    + rewrite IH. split.
      * intros [a ->]. now exists (String c a).
      * intros [a Ha]. destruct a as [|x a]; simpl in Ha; [congruence|].
        injection Ha as _ ->. now exists a.
Qed.

(** ** File discovery *)

Lemma filter_files_spec (h : Host) (l : list string) (f : string) :
  In f (fst (Cli.filter_files h l)) <->
  In f l /\ path_exists h f = true
  /\ endswith (py_lower h f) ".epub" = true
  /\ endswith f "-upgrade.epub" = false.
Proof.
  induction l as [|x l IH]; cbn [Cli.filter_files].
  - simpl. tauto.
  - destruct (Cli.filter_files h l) as [kept msgs]. cbn [fst] in IH.
    destruct (path_exists h x) eqn:He; cbn [andb].
    + destruct (endswith (py_lower h x) ".epub") eqn:Hl.
      * destruct (endswith x "-upgrade.epub") eqn:Hu; cbn [negb fst In];
          rewrite IH; split.
        -- intros (Hin & H1 & H2 & H3). tauto.
        -- intros ([<-|Hin] & H1 & H2 & H3); [congruence | tauto].
        -- intros [<-|(Hin & H1 & H2 & H3)]; tauto.
        -- intros ([<-|Hin] & H1 & H2 & H3); tauto.
      * cbn [fst In]. rewrite IH. split.
        -- intros (Hin & H1 & H2 & H3). tauto.
        -- intros ([<-|Hin] & H1 & H2 & H3); [congruence | tauto].
    + cbn [fst In]. rewrite IH. split.
      * intros (Hin & H1 & H2 & H3). tauto.
      * intros ([<-|Hin] & H1 & H2 & H3); [congruence | tauto].
Qed.

Lemma main_processed_spec (h : Host) (w : fs) (argv : list string) (f : string) :
  In f (Cli.processed (Cli.main h w argv)) ->
  path_exists h f = true /\ endswith f "-upgrade.epub" = false.
Proof.
  unfold Cli.main.
  destruct (Cli.parse_args h (tl argv) [] 20) as [code msgs|epub_files margin_size];
    [intros []|].
  cbv zeta.
  destruct (Cli.resolved h argv epub_files) as [|x l] eqn:Hl.
  - destruct (Cli.scans argv epub_files); intros [].
  - destruct (Cli.filter_files h (set_iter h (x :: l))) as [unique_files skipped] eqn:Hf.
    destruct unique_files as [|u us]; [intros []|].
    cbn [Cli.processed]. intros Hin.
    assert (Hin' : In f (fst (Cli.filter_files h (set_iter h (x :: l)))))
      by (rewrite Hf; exact Hin).
    apply filter_files_spec in Hin'. tauto.
Qed.

Lemma interactive_get_epub_files_spec (h : Host) (f : string) :
  In f (Interactive.get_epub_files h) <->
  In f (glob h "*.epub")
  /\ forall marker, In marker Interactive.output_markers -> contains marker f = false.
Proof.
  unfold Interactive.get_epub_files. rewrite filter_In.
  rewrite negb_true_iff. split; intros [Hin Hm]; split; try exact Hin.
  - intros marker Hmk. destruct (contains marker f) eqn:Hc; [|reflexivity].
    assert (existsb (fun suffix => contains suffix f) Interactive.output_markers = true)
      by (apply existsb_exists; now exists marker).
    congruence.
  - destruct (existsb _ _) eqn:Hex; [|reflexivity].
    apply existsb_exists in Hex as [marker [Hmk Hc]].
    rewrite (Hm marker Hmk) in Hc. discriminate.
Qed.

(** C3, as the code has it.  The interactive scan keeps exactly the
    [*.epub] matches that contain none of the four output markers, so
    [book-upgrade.epub] is never in its result.  The command-line scan
    returns every match; [main] then drops the names that end with
    [-upgrade.epub], so no run calls [process_epub] on such a name. *)
Theorem discovery_excludes_outputs (h : Host) (w : fs) (argv : list string)
    (f : string) :
  (In f (Interactive.get_epub_files h) <->
     In f (glob h "*.epub")
     /\ forall marker, In marker Interactive.output_markers ->
                       contains marker f = false)
  /\ ~ In "book-upgrade.epub" (Interactive.get_epub_files h)
  /\ Cli.get_epub_files h = glob h "*.epub"
  /\ (In f (Cli.processed (Cli.main h w argv)) ->
        endswith f "-upgrade.epub" = false)
  /\ ~ In "book-upgrade.epub" (Cli.processed (Cli.main h w argv)).
Proof.
  split; [apply interactive_get_epub_files_spec|].
  split.
  { intros Hin. apply interactive_get_epub_files_spec in Hin as [_ Hm].
    specialize (Hm "-upgrade.epub"). cbn in Hm.
    assert (H : contains "-upgrade.epub" "book-upgrade.epub" = false) by tauto.
    vm_compute in H. discriminate. }
  split; [reflexivity|].
  split.
  { intros Hin. now apply main_processed_spec in Hin. }
  intros Hin. apply main_processed_spec in Hin as [_ Hu].
  vm_compute in Hu. discriminate.
Qed.

Lemma discovery_excludes_outputs_witness :
  In "book.epub" (Cli.processed (Cli.main Sample.host Sample.disk ["modify_epub_margins.py"]))
  /\ endswith "book.epub" "-upgrade.epub" = false.
Proof.
  split.
  - vm_compute. left. reflexivity.
  - apply (proj1 (proj2 (proj2 (proj2
      (discovery_excludes_outputs Sample.host Sample.disk
         ["modify_epub_margins.py"] "book.epub"))))).
    vm_compute. left. reflexivity.
Defined.

(** C3 as stated fails on the command-line tool: with [book-upgrade.epub]
    in the working directory, [get_epub_files] returns it; and a run
    processes files whose names contain [-margins.epub], or contain
    [-upgrade.epub] before another extension. *)
Lemma cli_scan_returns_upgrade_file :
  In "book-upgrade.epub" (glob Sample.host "*.epub")
  /\ In "book-upgrade.epub" (Cli.get_epub_files Sample.host)
  /\ contains "-margins.epub" "book-margins.epub" = true
  /\ contains "-upgrade.epub" "old-upgrade.epub.epub" = true
  /\ Cli.processed
       (Cli.main Sample.old_outputs_host Sample.old_outputs_disk
          ["modify_epub_margins.py"])
     = ["book-margins.epub"; "old-upgrade.epub.epub"].
Proof.
  split; [vm_compute; right; left; reflexivity|].
  split; [vm_compute; right; left; reflexivity|].
  repeat split; vm_compute; reflexivity.
Qed.

(** ** The scratch directory *)

Lemma t_lookup_set_same (t : tree) (p : string) (n : node) :
  t_lookup (t_set t p n) p = Some n.
Proof.
  induction t as [|[q m] t IH]; simpl.
  - now rewrite String.eqb_refl.
  - destruct (String.eqb q p) eqn:E; simpl; rewrite E; [reflexivity | exact IH].
Qed.

Lemma t_lookup_set_other (t : tree) (p q : string) (n : node) :
  q <> p -> t_lookup (t_set t p n) q = t_lookup t q.
Proof.
  intros Hne. induction t as [|[r m] t IH]; simpl.
  - destruct (String.eqb_spec p q); [congruence | reflexivity].
  - destruct (String.eqb_spec r p) as [->|Hrp]; simpl.
    + destruct (String.eqb_spec p q); [congruence | reflexivity].
    + destruct (String.eqb_spec r q); [reflexivity | exact IH].
Qed.

Lemma find_first {A} (f : A -> bool) (l : list A) (x : A) :
  find f l = Some x <->
  exists before after,
    l = (before ++ x :: after)%list /\ f x = true
    /\ forall y, In y before -> f y = false.
Proof.
  induction l as [|a l IH]; simpl.
  - split; [discriminate | intros (b & c & H & _)]. destruct b; discriminate.
  - destruct (f a) eqn:Hfa.
    + split.
      * intros [= ->]. exists [], l. repeat split; [exact Hfa | intros y []].
      * intros (b & c & H & Hx & Hb). destruct b as [|b0 b].
        -- simpl in H. now injection H as ->.
        -- simpl in H. injection H as -> _.
           rewrite (Hb b0 (or_introl eq_refl)) in Hfa. discriminate.
    + rewrite IH. split.
      * intros (b & c & -> & Hx & Hb). exists (a :: b), c.
        repeat split; [exact Hx|]. intros y [<-|Hy]; [exact Hfa | now apply Hb].
      * intros (b & c & H & Hx & Hb). destruct b as [|b0 b]; simpl in H.
        -- injection H as -> _. congruence.
        -- injection H as _ ->. exists b, c. repeat split; [exact Hx|].
           intros y Hy. apply Hb. now right.
Qed.

Lemma find_css_file_none (t : tree) :
  find_css_file t = None <->
  forall q, In q possible_paths -> t_exists t q = false.
Proof.
  unfold find_css_file. split.
  - intros H q Hq. exact (find_none _ _ H q Hq).
  - intros H. destruct (find (t_exists t) possible_paths) as [p|] eqn:E; [|reflexivity].
    apply find_some in E as [Hin Hex]. rewrite (H p Hin) in Hex. discriminate.
Qed.

(** C6, as the code has it.  [find_css_file] returns the first of the
    four conventional paths that exists, and nothing when none does.
    In that case [process_epub] makes the directory [OPS] and writes
    the placeholder line to [OPS/style.css], touching nothing else, and
    appends to that path -- unless [OPS] is a regular file of the book,
    where making the directory raises and the book is not processed.
    A stylesheet that was found is the path appended to, and the
    directory is left as it was. *)
Theorem stylesheet_locator (t : tree) :
  (forall p, find_css_file t = Some p <->
     exists before after,
       possible_paths = (before ++ p :: after)%list /\ t_exists t p = true
       /\ forall q, In q before -> t_exists t q = false)
  /\ (find_css_file t = None <->
        forall q, In q possible_paths -> t_exists t q = false)
  /\ (forall p, find_css_file t = Some p -> resolve_css_file t = Ok (p, t))
  /\ (find_css_file t = None ->
        match t_lookup t "OPS" with
        | Some (File _) => resolve_css_file t = Raise FileExistsError
        | _ =>
            exists t',
              resolve_css_file t = Ok ("OPS/style.css", t')
              /\ t_lookup t' "OPS" = Some Dir
              /\ t_lookup t' "OPS/style.css" = Some (File placeholder_css)
              /\ (forall q, q <> "OPS" -> q <> "OPS/style.css" ->
                    t_lookup t' q = t_lookup t q)
              /\ forall css_content,
                   exists t'',
                     append_file t' "OPS/style.css" css_content = Ok t''
                     /\ t_lookup t'' "OPS/style.css"
                        = Some (File (placeholder_css ++ css_content))
        end).
Proof.
  split; [intros p; apply find_first|].
  split; [apply find_css_file_none|].
  split; [intros p Hp; unfold resolve_css_file; now rewrite Hp|].
  intros Hnone. unfold resolve_css_file. rewrite Hnone.
  assert (Hcss : t_lookup t "OPS/style.css" = None).
  { pose proof (proj1 (find_css_file_none t) Hnone "OPS/style.css"
                 (or_introl eq_refl)) as H.
    unfold t_exists in H. now destruct (t_lookup t "OPS/style.css"). }
  unfold makedirs. cbn [makedirs_from app join_path String.concat].
  destruct (t_lookup t "OPS") as [[c|]|] eqn:Hops; cbn [bind].
  - reflexivity.
  - unfold write_file. cbn [String.concat append]. rewrite Hcss. cbn [bind].
    eexists. split; [reflexivity|].
    split; [rewrite t_lookup_set_other by discriminate; exact Hops|].
    split; [apply t_lookup_set_same|].
    split; [intros q _ Hq; now apply t_lookup_set_other|].
    intros css. unfold append_file. rewrite t_lookup_set_same.
    eexists. split; [reflexivity | apply t_lookup_set_same].
  - unfold write_file. cbn [String.concat append].
    rewrite t_lookup_set_other by discriminate. rewrite Hcss. cbn [bind].
    eexists. split; [reflexivity|].
    split; [rewrite t_lookup_set_other by discriminate; apply t_lookup_set_same|].
    split; [apply t_lookup_set_same|].
    split.
    { intros q H1 H2. rewrite t_lookup_set_other by exact H2.
      now apply t_lookup_set_other. }
    intros css. unfold append_file. rewrite t_lookup_set_same.
    eexists. split; [reflexivity | apply t_lookup_set_same].
Qed.

Lemma stylesheet_locator_witness :
  find_css_file Sample.no_css_tree = None
  /\ exists t',
       resolve_css_file Sample.no_css_tree = Ok ("OPS/style.css", t')
       /\ t_lookup t' "OPS/style.css" = Some (File placeholder_css).
Proof.
  split; [reflexivity|].
  pose proof (proj2 (proj2 (proj2 (stylesheet_locator Sample.no_css_tree)))
                eq_refl) as H.
  cbn in H. destruct H as (t' & H1 & _ & H3 & _).
  exists t'. split; [exact H1 | exact H3].
Defined.

(** C6 as stated fails when the book holds a regular file called [OPS]
    and none of the four stylesheets: nothing is created, the call
    raises. *)
Lemma stylesheet_not_created_over_file :
  exists t,
    extractall Sample.ops_file_book = Ok t
    /\ find_css_file t = None
    /\ resolve_css_file t = Raise FileExistsError
    /\ transform Sample.host (get_margin_css 20) Sample.ops_file_book
       = Raise FileExistsError.
Proof. eexists. repeat split; reflexivity. Qed.

(** ** Extraction keeps what it does not overwrite *)

Lemma makedirs_from_keeps (parts : list string) :
  forall t done t' p n,
    makedirs_from t done parts = Ok t' ->
    t_lookup t p = Some n -> t_lookup t' p = Some n.
Proof.
  induction parts as [|c parts IH]; intros t done t' p n; cbn [makedirs_from].
  - now intros [= <-].
  - destruct (t_lookup t (join_path (done ++ [c]))) as [[d|]|] eqn:E.
    + destruct parts; discriminate.
    + apply IH.
    + intros Hm Hp. eapply IH; [exact Hm|].
      rewrite t_lookup_set_other; [exact Hp|]. intros ->. congruence.
Qed.

Lemma write_file_other (t t' : tree) (p q data : string) (n : node) :
  write_file t q data = Ok t' -> q <> p ->
  t_lookup t p = Some n -> t_lookup t' p = Some n.
Proof.
  unfold write_file. intros Hw Hne Hp.
  destruct (t_lookup t q) as [[d|]|]; try discriminate;
    injection Hw as <-; rewrite t_lookup_set_other; auto.
Qed.

Lemma write_file_same (t t' : tree) (q data : string) :
  write_file t q data = Ok t' -> t_lookup t' q = Some (File data).
Proof.
  unfold write_file. intros Hw.
  destruct (t_lookup t q) as [[d|]|]; try discriminate;
    injection Hw as <-; apply t_lookup_set_same.
Qed.

Lemma append_file_other (t t' : tree) (p q data : string) (n : node) :
  append_file t q data = Ok t' -> q <> p ->
  t_lookup t p = Some n -> t_lookup t' p = Some n.
Proof.
  unfold append_file. intros Hw Hne Hp.
  destruct (t_lookup t q) as [[d|]|]; try discriminate;
    injection Hw as <-; rewrite t_lookup_set_other; auto.
Qed.

Lemma extract_member_other (t t' : tree) (e : entry) (p : string) (n : node) :
  extract_member t e = Ok t' -> member_target e <> p ->
  t_lookup t p = Some n -> t_lookup t' p = Some n.
Proof.
  unfold extract_member, make_upperdirs, member_target.
  destruct (member_parts (e_name e)) as [|c parts] eqn:Hparts.
  - destruct (member_is_dir (e_name e)); [now intros [= <-] | discriminate].
  - intros Hx Hne Hp.
    destruct (makedirs t (removelast (c :: parts))) as [t1|err] eqn:Hm;
      [|discriminate].
    cbn [bind] in Hx.
    pose proof (makedirs_from_keeps _ _ _ _ _ _ Hm Hp) as Hp1.
    destruct (member_is_dir (e_name e)).
    + destruct (t_lookup t1 (join_path (c :: parts))) as [[d|]|];
        try discriminate; injection Hx as <-; [exact Hp1|].
      rewrite t_lookup_set_other; auto.
    + eapply write_file_other; eauto.
Qed.

Lemma extract_member_writes (t t' : tree) (e : entry) :
  member_is_dir (e_name e) = false -> extract_member t e = Ok t' ->
  t_lookup t' (member_target e) = Some (File (e_data e)).
Proof.
  unfold extract_member, make_upperdirs, member_target. intros Hd.
  destruct (member_parts (e_name e)) as [|c parts]; rewrite Hd;
    [discriminate|].
  destruct (makedirs t (removelast (c :: parts))) as [t1|err]; [|discriminate].
  cbn [bind]. apply write_file_same.
Qed.

Lemma extract_members_keep_file (e : entry) (a : archive) :
  member_is_dir (e_name e) = false ->
  (forall e', In e' a -> member_target e' = member_target e -> e' = e) ->
  forall t t',
    t_lookup t (member_target e) = Some (File (e_data e)) ->
    extract_members t a = Ok t' ->
    t_lookup t' (member_target e) = Some (File (e_data e)).
Proof.
  intros Hd. induction a as [|x a IH]; intros Huniq t t' Hp; cbn [extract_members].
  - now intros [= <-].
  - destruct (extract_member t x) as [t1|err] eqn:Hx; [|discriminate].
    cbn [bind]. apply IH.
    + intros e' He'. apply Huniq. now right.
    + destruct (string_dec (member_target x) (member_target e)) as [Ht|Ht].
      * rewrite (Huniq x (or_introl eq_refl) Ht) in Hx.
        eapply extract_member_writes; eauto.
      * eapply extract_member_other; eauto.
Qed.

(** After extraction a member that is a file, and the only one at its
    place, is there with its bytes. *)
Lemma extract_members_file (e : entry) (a : archive) :
  In e a -> member_is_dir (e_name e) = false ->
  (forall e', In e' a -> member_target e' = member_target e -> e' = e) ->
  forall t t',
    extract_members t a = Ok t' ->
    t_lookup t' (member_target e) = Some (File (e_data e)).
Proof.
  intros Hin Hd. induction a as [|x a IH]; [destruct Hin|].
  intros Huniq t t'. cbn [extract_members].
  destruct (extract_member t x) as [t1|err] eqn:Hx; [|discriminate].
  cbn [bind]. intros Hrest.
  destruct (string_dec (member_target x) (member_target e)) as [Ht|Ht].
  - rewrite (Huniq x (or_introl eq_refl) Ht) in Hx.
    eapply extract_members_keep_file; [exact Hd | | | exact Hrest].
    + intros e' He'. apply Huniq. now right.
    + eapply extract_member_writes; eauto.
  - destruct Hin as [->|Hin]; [congruence|].
    eapply IH; [exact Hin | | exact Hrest].
    intros e' He'. apply Huniq. now right.
Qed.

Lemma resolve_css_file_path (t t' : tree) (css_file : string) :
  resolve_css_file t = Ok (css_file, t') -> In css_file possible_paths.
Proof.
  unfold resolve_css_file.
  destruct (find_css_file t) as [q|] eqn:Hf.
  - intros [= <- <-]. unfold find_css_file in Hf. now apply find_some in Hf.
  - destruct (makedirs t ["OPS"]) as [t1|err]; [|discriminate]. cbn [bind].
    destruct (write_file t1 _ _) as [t2|err]; [|discriminate]. cbn [bind].
    intros [= <- <-]. left. reflexivity.
Qed.

(** Resolving the stylesheet keeps every file and directory in place. *)
Lemma resolve_css_file_keeps (t t' : tree) (css_file p : string) (n : node) :
  resolve_css_file t = Ok (css_file, t') ->
  t_lookup t p = Some n -> t_lookup t' p = Some n.
Proof.
  unfold resolve_css_file. intros Hr Hp.
  destruct (find_css_file t) as [q|] eqn:Hf.
  - now injection Hr as <- <-.
  - destruct (makedirs t ["OPS"]) as [t1|err] eqn:Hm; [|discriminate].
    cbn [bind] in Hr.
    destruct (write_file t1 (join_path ["OPS"; "style.css"]) placeholder_css)
      as [t2|err] eqn:Hw; [|discriminate].
    cbn [bind] in Hr. injection Hr as <- <-.
    eapply write_file_other; [exact Hw | | ].
    + intros <-.
      pose proof (proj1 (find_css_file_none t) Hf "OPS/style.css"
                    (or_introl eq_refl)) as H.
      unfold t_exists in H. change (join_path ["OPS"; "style.css"])
        with "OPS/style.css" in Hp. rewrite Hp in H. discriminate.
    + eapply makedirs_from_keeps; eauto.
Qed.

Lemma basename_mimetype_excluded (h : Host) (t : tree) (x : entry) :
  In x (walk_members h t) -> e_name x <> "mimetype".
Proof.
  unfold walk_members. rewrite in_map_iff. intros [f [<- Hf]].
  apply filter_In in Hf as [_ Hb]. cbn [e_name]. intros Heq.
  rewrite Heq in Hb. discriminate.
Qed.


(** ** What [process_epub] leaves on the host *)

Lemma ppath_eqb_eq (p q : ppath) : ppath_eqb p q = true <-> p = q.
Proof.
  unfold ppath_eqb, list_string_eqb.
  destruct p as [r1 l1], q as [r2 l2]; cbn [p_root p_parts].
  destruct (String.eqb_spec r1 r2) as [->|Hr]; cbn [andb].
  - destruct (list_eq_dec string_dec l1 l2) as [->|Hl].
    + now split.
    + split; [discriminate | intros [=]; contradiction].
  - split; [discriminate | intros [=]; contradiction].
Qed.

Lemma ppath_eqb_refl (p : ppath) : ppath_eqb p p = true.
Proof. now apply ppath_eqb_eq. Qed.

Lemma run_transform_inv (h : Host) (w w' : fs) (src dst : ppath) (css : string) :
  run_transform h w src dst css = Ok w' ->
  exists a out,
    open_zip w src = Ok a /\ transform h css a = Ok out
    /\ w' = (dst, ZipData out) :: w.
Proof.
  unfold run_transform.
  destruct (open_zip w src) as [a|err] eqn:Ha; [|discriminate]. cbn [bind].
  destruct (transform h css a) as [out|err] eqn:Ht; [|discriminate]. cbn [bind].
  unfold write_zip. intros Hw. exists a, out.
  split; [reflexivity|]. split; [exact Ht|].
  destruct (fs_lookup w dst) as [[b|b|]|]; try discriminate;
    destruct (writable h dst); try discriminate; now injection Hw as <-.
Qed.

Lemma open_zip_written (w : fs) (dst : ppath) (out : archive) :
  open_zip ((dst, ZipData out) :: w) dst = Ok out.
Proof. unfold open_zip. cbn. now rewrite ppath_eqb_refl. Qed.

Lemma interactive_process_epub_inv (h : Host) (w w' : fs) (epub_path : string)
    (modification_type : string) (margin_size : Z) (output_mode : string)
    (output_dir : option ppath) :
  Interactive.process_epub h w epub_path modification_type margin_size
    output_mode output_dir = Ok w' ->
  exists output_path css_content,
    run_transform h w (parse_path epub_path) output_path css_content = Ok w'
    /\ (output_mode = "replace" -> output_path = parse_path epub_path)
    /\ (output_mode <> "replace" ->
          exists d, output_dir = Some d
                    /\ output_path = p_join d (p_name (parse_path epub_path))).
Proof.
  unfold Interactive.process_epub.
  destruct (String.eqb_spec output_mode "replace") as [->|Hmode].
  - cbn [bind].
    destruct (if String.eqb modification_type "margins" then _ else _)
      as [css|err]; [|discriminate].
    cbn [bind]. intros Hr. exists (parse_path epub_path), css.
    split; [exact Hr|]. split; [reflexivity | congruence].
  - destruct output_dir as [d|]; [|discriminate]. cbn [bind].
    destruct (if String.eqb modification_type "margins" then _ else _)
      as [css|err]; [|discriminate].
    cbn [bind]. intros Hr. exists (p_join d (p_name (parse_path epub_path))), css.
    split; [exact Hr|]. split; [congruence|]. intros _. now exists d.
Qed.




(** ** Batch loops *)

Lemma filter_partition_length {A} (p : A -> bool) (l : list A) :
  List.length (filter p l) + List.length (filter (fun x => negb (p x)) l)
  = List.length l.
Proof.
  induction l as [|x l IH]; [reflexivity|].
  cbn [filter]. destruct (p x); cbn [negb List.length]; lia.
Qed.

Lemma attempts_of_length (process : fs -> string -> result fs)
    (files : list string) :
  forall w, List.length (attempts_of process files w) = List.length files.
Proof.
  induction files as [|f files IH]; intros w; [reflexivity|].
  cbn [attempts_of List.length]. now rewrite IH.
Qed.



Lemma cli_batch_count (h : Host) (margin_size : Z) (files : list string) :
  forall st,
    Cli.b_success_count (Cli.batch h margin_size files st)
    + List.length (filter raised (Cli.attempts h margin_size files (Cli.b_fs st)))
    = Cli.b_success_count st + List.length files.
Proof.
  unfold Cli.attempts.
  induction files as [|f files IH]; intros st;
    cbn [Cli.batch attempts_of filter List.length]; [lia|].
  destruct (Cli.process_epub h (Cli.b_fs st) f margin_size) as [w'|err];
    match goal with |- context [Cli.batch _ _ _ ?s] => specialize (IH s) end;
    cbn [Cli.b_success_count Cli.b_fs raised List.length] in *; lia.
Qed.



Lemma interactive_process_epub_writes (h : Host) (w w' : fs) (epub_path : string)
    (modification_type : string) (margin_size : Z) (output_mode : string)
    (output_dir : option ppath) :
  Interactive.process_epub h w epub_path modification_type margin_size
    output_mode output_dir = Ok w' ->
  exists dst css a out,
    Interactive.output_path_of (parse_path epub_path) output_mode output_dir
    = Some dst
    /\ open_zip w (parse_path epub_path) = Ok a
    /\ transform h css a = Ok out
    /\ w' = (dst, ZipData out) :: w.
Proof.
  intros Hp.
  apply interactive_process_epub_inv in Hp as (dst & css & Hr & Hrep & Hfold).
  apply run_transform_inv in Hr as (a & out & Ha & Ht & ->).
  exists dst, css, a, out. repeat split; try assumption.
  unfold Interactive.output_path_of.
  destruct (String.eqb_spec output_mode "replace") as [Hm|Hm].
  - now rewrite (Hrep Hm).
  - destruct (Hfold Hm) as (d & -> & ->). reflexivity.
Qed.

Lemma interactive_batch_count (h : Host) (mt : string) (margin_size : Z)
    (mode : string) (dir : option ppath) (files : list string) :
  forall st,
    Interactive.b_success_count
      (Interactive.batch h mt margin_size mode dir files st)
    + List.length
        (filter raised
           (Interactive.attempts h mt margin_size mode dir files
              (Interactive.b_fs st)))
    = Interactive.b_success_count st + List.length files.
Proof.
  unfold Interactive.attempts.
  induction files as [|f files IH]; intros st;
    cbn [Interactive.batch attempts_of filter List.length]; [lia|].
  destruct (Interactive.process_epub h (Interactive.b_fs st) f mt margin_size
              mode dir) as [w'|err];
    match goal with
    | |- context [Interactive.batch _ _ _ _ _ _ ?s] => specialize (IH s)
    end;
    cbn [Interactive.b_success_count Interactive.b_fs raised List.length] in *;
    lia.
Qed.



Lemma cli_main_runs_batch (h : Host) (w : fs) (argv : list string) :
  Cli.processed (Cli.main h w argv) <> [] ->
  exists margin_size log,
    Cli.main h w argv =
    Cli.mk_outcome 0
      (Cli.b_printed
         (Cli.batch h margin_size (Cli.processed (Cli.main h w argv))
            (Cli.mk_batch w 0 log))
       ++ [Cli.MsgSummary
             (Cli.b_success_count
                (Cli.batch h margin_size (Cli.processed (Cli.main h w argv))
                   (Cli.mk_batch w 0 log)))
             (List.length (Cli.processed (Cli.main h w argv)))])%list
      (Cli.b_fs
         (Cli.batch h margin_size (Cli.processed (Cli.main h w argv))
            (Cli.mk_batch w 0 log)))
      (Cli.processed (Cli.main h w argv)).
Proof.
  unfold Cli.main.
  destruct (Cli.parse_args h (tl argv) [] 20) as [code msgs|epub_files margin_size];
    [intros H; now contradiction H|].
  cbv zeta.
  destruct (Cli.resolved h argv epub_files) as [|x l].
  - destruct (Cli.scans argv epub_files); intros H; now contradiction H.
  - destruct (Cli.filter_files h (set_iter h (x :: l))) as [unique_files skipped].
    destruct unique_files as [|u us]; [intros H; now contradiction H|].
    intros _. cbn [Cli.processed]. eexists. eexists. reflexivity.
Qed.



(** ** Command-line arguments *)






(** ** The interactive menu *)

Lemma ask_modification_type_shorter (h : Host) (stdin : list string) :
  forall r rest,
    Interactive.ask_modification_type h stdin = Some (r, rest) ->
    List.length rest < List.length stdin.
Proof.
  induction stdin as [|line stdin IH]; intros r rest; cbn; [discriminate|].
  repeat (match goal with
          | |- context [if ?b then _ else _] => destruct b
          end; [intros [= _ <-]; lia|]).
  intros H. apply IH in H. lia.
Qed.

Lemma ask_margin_size_shorter (h : Host) (stdin : list string) :
  forall r rest,
    Interactive.ask_margin_size h stdin = Some (r, rest) ->
    List.length rest < List.length stdin.
Proof.
  induction stdin as [|line stdin IH]; intros r rest; cbn; [discriminate|].
  destruct (String.eqb _ _); [intros [= _ <-]; lia|].
  destruct (py_int h _); [intros [= _ <-]; lia|].
  intros H. apply IH in H. lia.
Qed.

Lemma ask_output_mode_shorter (h : Host) (stdin : list string) :
  forall r rest,
    Interactive.ask_output_mode h stdin = Some (r, rest) ->
    List.length rest < List.length stdin.
Proof.
  induction stdin as [|line stdin IH]; intros r rest; cbn; [discriminate|].
  repeat (match goal with
          | |- context [if ?b then _ else _] => destruct b
          end; [intros [= _ <-]; lia|]).
  intros H. apply IH in H. lia.
Qed.

Lemma ask_output_mode_values (h : Host) (stdin : list string) :
  forall mode rest,
    Interactive.ask_output_mode h stdin = Some (Some mode, rest) ->
    mode = "folder" \/ mode = "replace".
Proof.
  induction stdin as [|line stdin IH]; intros mode rest; cbn; [discriminate|].
  destruct (String.eqb _ "1"); [intros [= <- _]; now left|].
  destruct (String.eqb _ "2"); [intros [= <- _]; now right|].
  destruct (String.eqb _ "0"); [discriminate|].
  apply IH.
Qed.

Lemma ask_file_selection_shorter (h : Host) (files stdin : list string) :
  forall r rest,
    Interactive.ask_file_selection h files stdin = Some (r, rest) ->
    List.length rest < List.length stdin.
Proof.
  induction stdin as [|line stdin IH]; intros r rest; cbn; [discriminate|].
  destruct (String.eqb _ "0"); [intros [= _ <-]; lia|].
  destruct (String.eqb _ _); [intros [= _ <-]; lia|].
  destruct (py_int h _) as [n|].
  - destruct (_ && _)%bool; [intros [= _ <-]; lia|].
    intros H. apply IH in H. lia.
  - intros H. apply IH in H. lia.
Qed.

Lemma interactive_batch_trace (h : Host) (mt : string) (margin_size : Z)
    (mode : string) (dir : option ppath) (files : list string) :
  forall st,
    Interactive.b_trace (Interactive.batch h mt margin_size mode dir files st)
    = (Interactive.b_trace st
       ++ map (fun f => Interactive.Processing f mode) files)%list.
Proof.
  induction files as [|f files IH]; intros st; cbn [Interactive.batch map].
  - now rewrite app_nil_r.
  - destruct (Interactive.process_epub h (Interactive.b_fs st) f mt margin_size
                mode dir);
      rewrite IH; cbn [Interactive.b_trace]; now rewrite <- app_assoc.
Qed.

Lemma gated_from_processing (h : Host) (affirmed : bool) (mode : string)
    (files : list string) :
  negb (String.eqb mode "replace") || affirmed = true ->
  Interactive.gated_from h affirmed
    (map (fun f => Interactive.Processing f mode) files) = true.
Proof.
  intros Hok. induction files as [|f files IH]; [reflexivity|].
  cbn [map Interactive.gated_from]. now rewrite Hok, IH.
Qed.

Lemma gated_from_app_menu (h : Host) (tr rest : list Interactive.event) :
  forall affirmed,
    Interactive.gated_from h affirmed (tr ++ Interactive.AtMenu :: rest)
    = Interactive.gated_from h affirmed tr
      && Interactive.gated_from h false rest.
Proof.
  induction tr as [|ev tr IH]; intros affirmed; cbn [app Interactive.gated_from].
  - reflexivity.
  - destruct ev; rewrite IH; [reflexivity | reflexivity |].
    now rewrite andb_assoc.
Qed.

Lemma iteration_sound (h : Host) (epub_files : list string) (w : fs)
    (stdin : list string) :
  match Interactive.iteration h epub_files w stdin with
  | Interactive.Continue _ stdin' tr =>
      List.length stdin' < List.length stdin
      /\ exists rest, tr = Interactive.AtMenu :: rest
                      /\ Interactive.gated_from h false rest = true
  | Interactive.Break _ tr | Interactive.Uncaught _ _ tr =>
      exists rest, tr = Interactive.AtMenu :: rest
                   /\ Interactive.gated_from h false rest = true
  end.
Proof.
  unfold Interactive.iteration.
  destruct (Interactive.ask_modification_type h stdin) as [[[mt|] in1]|] eqn:H1;
    [| now exists [] | now exists []].
  apply ask_modification_type_shorter in H1.
  destruct (if (String.eqb mt "margins" || String.eqb mt "both")%bool
            then Interactive.ask_margin_size h in1 else Some (20%Z, in1))
    as [[margin_size in2]|] eqn:H2; [| now exists []].
  assert (L2 : List.length in2 <= List.length in1).
  { destruct (_ || _)%bool.
    - apply ask_margin_size_shorter in H2. lia.
    - injection H2 as _ <-. lia. }
  destruct (Interactive.ask_output_mode h in2) as [[[mode|] in3]|] eqn:H3;
    [| split; [apply ask_output_mode_shorter in H3; lia | now exists []]
     | now exists []].
  pose proof (ask_output_mode_values _ _ _ _ H3) as Hmode.
  apply ask_output_mode_shorter in H3.
  assert (Hgate :
    forall in4 tr,
      List.length in4 <= List.length in3 ->
      (exists rest, tr = Interactive.AtMenu :: rest
         /\ Interactive.gated_from h false rest = true
         /\ forall files,
              Interactive.gated_from h false
                (rest ++ map (fun f => Interactive.Processing f mode) files)
              = true) ->
      match
        match
          (if String.eqb mode "folder"
           then match Interactive.mkdir_output_dir h w (parse_path "books-upgrade") with
                | Ok w1 => Ok (Some (parse_path "books-upgrade"), w1)
                | Raise e => Raise e
                end
           else Ok (None, w))
        with
        | Raise e => Interactive.Uncaught e w tr
        | Ok (output_dir, w1) =>
            match Interactive.ask_file_selection h epub_files in4 with
            | None => Interactive.Uncaught EOFError w1 tr
            | Some (None, in5) => Interactive.Continue w1 in5 tr
            | Some (Some selected_files, in5) =>
                match in5 with
                | [] => Interactive.Uncaught EOFError w1 tr
                | confirm :: in6 =>
                    if negb (Interactive.says_yes h confirm)
                    then Interactive.Continue w1 in6 tr
                    else
                      match in6 with
                      | [] =>
                          Interactive.Uncaught EOFError
                            (Interactive.b_fs
                               (Interactive.batch h mt margin_size mode
                                  output_dir selected_files
                                  (Interactive.mk_batch w1 0 tr)))
                            (Interactive.b_trace
                               (Interactive.batch h mt margin_size mode
                                  output_dir selected_files
                                  (Interactive.mk_batch w1 0 tr)))
                      | another :: in7 =>
                          if negb (Interactive.says_yes h another)
                          then
                            Interactive.Break
                              (Interactive.b_fs
                                 (Interactive.batch h mt margin_size mode
                                    output_dir selected_files
                                    (Interactive.mk_batch w1 0 tr)))
                              (Interactive.b_trace
                                 (Interactive.batch h mt margin_size mode
                                    output_dir selected_files
                                    (Interactive.mk_batch w1 0 tr)))
                          else
                            Interactive.Continue
                              (Interactive.b_fs
                                 (Interactive.batch h mt margin_size mode
                                    output_dir selected_files
                                    (Interactive.mk_batch w1 0 tr)))
                              in7
                              (Interactive.b_trace
                                 (Interactive.batch h mt margin_size mode
                                    output_dir selected_files
                                    (Interactive.mk_batch w1 0 tr)))
                      end
                end
            end
        end
      with
      | Interactive.Continue _ stdin' tr0 =>
          List.length stdin' < List.length stdin
          /\ exists rest, tr0 = Interactive.AtMenu :: rest
                          /\ Interactive.gated_from h false rest = true
      | Interactive.Break _ tr0 | Interactive.Uncaught _ _ tr0 =>
          exists rest, tr0 = Interactive.AtMenu :: rest
                       /\ Interactive.gated_from h false rest = true
      end).
  { intros in4 tr L4 (rest & -> & Hrest & Hfiles).
    assert (Hbatch : forall dir files w1,
              exists rest',
                Interactive.b_trace
                  (Interactive.batch h mt margin_size mode dir files
                     (Interactive.mk_batch w1 0 (Interactive.AtMenu :: rest)))
                = Interactive.AtMenu :: rest'
                /\ Interactive.gated_from h false rest' = true).
    { intros dir files w1. rewrite interactive_batch_trace.
      cbn [Interactive.b_trace app]. eexists. split; [reflexivity | apply Hfiles]. }
    destruct (if String.eqb mode "folder" then _ else _) as [[dir w1]|err];
      [| now exists rest].
    destruct (Interactive.ask_file_selection h epub_files in4)
      as [[[selected|] in5]|] eqn:H5;
      [| split; [apply ask_file_selection_shorter in H5; lia | now exists rest]
       | now exists rest].
    apply ask_file_selection_shorter in H5.
    destruct in5 as [|confirm in6]; [now exists rest|].
    cbn [List.length] in H5.
    destruct (negb (Interactive.says_yes h confirm));
      [split; [lia | now exists rest]|].
    destruct in6 as [|another in7]; [apply Hbatch|].
    cbn [List.length] in H5.
    destruct (negb (Interactive.says_yes h another));
      [apply Hbatch | split; [lia | apply Hbatch]]. }
  destruct (String.eqb_spec mode "replace") as [->|Hne].
  - destruct in3 as [|answer in4]; [now exists []|].
    destruct (Interactive.confirms_replace h answer) eqn:Hc; cbn [negb].
    + apply Hgate; [cbn [List.length]; lia|].
      eexists. split; [reflexivity|]. split.
      * reflexivity.
      * intros files. cbn [app Interactive.gated_from]. rewrite Hc.
        apply gated_from_processing. reflexivity.
    + split; [cbn [List.length] in *; lia|].
      eexists. split; reflexivity.
  - apply Hgate; [lia|].
    exists []. split; [reflexivity|]. split; [reflexivity|].
    intros files. cbn [app]. apply gated_from_processing.
    destruct (String.eqb_spec mode "replace"); [contradiction | reflexivity].
Qed.

Lemma main_loop_sound (h : Host) (epub_files : list string) :
  forall fuel w stdin tr,
    List.length stdin < fuel ->
    Interactive.gated_from h false tr = true ->
    Interactive.how (Interactive.main_loop fuel h epub_files w stdin tr)
    <> Interactive.Running
    /\ Interactive.gated h
         (Interactive.trace (Interactive.main_loop fuel h epub_files w stdin tr))
       = true.
Proof.
  induction fuel as [|fuel IH]; intros w stdin tr Hlen Htr; [lia|].
  cbn [Interactive.main_loop].
  pose proof (iteration_sound h epub_files w stdin) as Hstep.
  destruct (Interactive.iteration h epub_files w stdin) as [w' tr'|e w' tr'|w' stdin' tr'].
  - destruct Hstep as (rest & -> & Hrest). cbn [Interactive.how Interactive.trace].
    split; [discriminate|]. unfold Interactive.gated.
    rewrite gated_from_app_menu, Htr, Hrest. reflexivity.
  - destruct Hstep as (rest & -> & Hrest). cbn [Interactive.how Interactive.trace].
    split; [discriminate|]. unfold Interactive.gated.
    rewrite gated_from_app_menu, Htr, Hrest. reflexivity.
  - destruct Hstep as (Hshort & rest & -> & Hrest).
    apply IH; [lia|].
    rewrite gated_from_app_menu, Htr, Hrest. reflexivity.
Qed.

(** C9. Whatever the user types, a run of the interactive tool ends
    after finitely many passes through the menu, and every call of
    [process_epub] in [replace] mode comes after an answer at the
    overwrite prompt that is [yes] or [да] once stripped and lowered,
    given in the same pass.  Any other answer there sends the run back
    to the menu with the file system as it was. *)
Theorem overwrite_needs_confirmation (h : Host) (w : fs) (stdin : list string) :
  Interactive.gated h (Interactive.trace (Interactive.main h w stdin)) = true
  /\ Interactive.how (Interactive.main h w stdin) <> Interactive.Running
  /\ forall epub_files modification_type in1 margin_size in2 answer in4,
       Interactive.ask_modification_type h stdin
       = Some (Some modification_type, in1) ->
       (if (String.eqb modification_type "margins"
            || String.eqb modification_type "both")%bool
        then Interactive.ask_margin_size h in1 else Some (20%Z, in1))
       = Some (margin_size, in2) ->
       Interactive.ask_output_mode h in2 = Some (Some "replace", answer :: in4) ->
       Interactive.confirms_replace h answer = false ->
       Interactive.iteration h epub_files w stdin
       = Interactive.Continue w in4
           [Interactive.AtMenu; Interactive.AnsweredOverwrite answer].
Proof.
  split; [|split].
  - unfold Interactive.main.
    destruct (Interactive.get_epub_files h) as [|f files]; [reflexivity|].
    apply main_loop_sound; [lia | reflexivity].
  - unfold Interactive.main.
    destruct (Interactive.get_epub_files h) as [|f files]; [discriminate|].
    apply main_loop_sound; [lia | reflexivity].
  - intros epub_files mt in1 margin_size in2 answer in4 H1 H2 H3 Hc.
    unfold Interactive.iteration. rewrite H1, H2, H3.
    cbn [String.eqb Ascii.eqb Bool.eqb]. rewrite Hc. reflexivity.
Qed.

Lemma overwrite_needs_confirmation_witness :
  Interactive.iteration Sample.host ["book.epub"] Sample.disk
    ["1"; ""; "2"; "no"; "0"]
  = Interactive.Continue Sample.disk ["0"]
      [Interactive.AtMenu; Interactive.AnsweredOverwrite "no"].
Proof.
  apply (proj2 (proj2 (overwrite_needs_confirmation Sample.host Sample.disk
                         ["1"; ""; "2"; "no"; "0"]))
           ["book.epub"] "margins" [""; "2"; "no"; "0"] 20%Z ["2"; "no"; "0"]
           "no" ["0"]); reflexivity.
Defined.

(** ** Paths on the host *)

Lemma append_nil_r (s : string) : s ++ "" = s.
Proof. induction s as [|c s IH]; simpl; [reflexivity | now rewrite IH]. Qed.

Lemma append_inv_head (a x y : string) : a ++ x = a ++ y -> x = y.
Proof.
  induction a as [|c a IH]; simpl; [trivial|]. intros [= H]. now apply IH.
Qed.

Lemma append_eq_empty (a b : string) : a ++ b = "" -> a = "" /\ b = "".
Proof. destruct a; simpl; [now split | discriminate]. Qed.

Lemma append_last_char (a b : string) (c d : ascii) :
  a ++ String c "" = b ++ String d "" -> c = d.
Proof.
  revert b. induction a as [|x a IH]; intros [|y b]; simpl; intros H.
  - now injection H.
  - injection H as _ H2. symmetry in H2.
    apply append_eq_empty in H2 as [_ H2]. discriminate.
  - injection H as _ H2. apply append_eq_empty in H2 as [_ H2]. discriminate.
  - injection H as _ H2. now apply IH in H2.
Qed.

Lemma split_path_nonempty (s : string) : split_path s <> [].
Proof.
  destruct s as [|c s]; cbn [split_path]; [discriminate|].
  destruct (Ascii.eqb c "/"); [discriminate|].
  destruct (split_path s); discriminate.
Qed.

Lemma join_split_path (s : string) : join_path (split_path s) = s.
Proof.
  unfold join_path. induction s as [|c s IH]; [reflexivity|].
  cbn [split_path]. pose proof (split_path_nonempty s) as Hne.
  destruct (Ascii.eqb_spec c "/") as [->|Hc].
  - destruct (split_path s) as [|x l]; [contradiction|].
    cbn [String.concat]. cbn [String.concat] in IH. rewrite IH. reflexivity.
  - destruct (split_path s) as [|x l]; [contradiction|].
    destruct l as [|y l]; cbn [String.concat] in *; rewrite <- IH; reflexivity.
Qed.

Lemma split_path_no_slash (s : string) :
  Forall (fun c => ~ In "/"%char (list_ascii_of_string c)) (split_path s).
Proof.
  induction s as [|c s IH]; cbn [split_path].
  - constructor; [intros [] | constructor].
  - destruct (Ascii.eqb_spec c "/") as [->|Hc].
    + constructor; [intros [] | exact IH].
    + destruct (split_path s) as [|x l].
      * constructor; [|constructor]. cbn. intros [H|[]]. congruence.
      * inversion IH as [|? ? Hx Hl]; subst. constructor; [|exact Hl].
        cbn. intros [H|H]; [congruence | contradiction].
Qed.

Lemma split_path_single (s : string) :
  ~ In "/"%char (list_ascii_of_string s) -> split_path s = [s].
Proof.
  induction s as [|c s IH]; cbn [split_path list_ascii_of_string];
    [reflexivity|].
  intros Hno. destruct (Ascii.eqb_spec c "/") as [->|Hc].
  - exfalso. apply Hno. now left.
  - rewrite IH; [reflexivity|]. intros H. apply Hno. now right.
Qed.

Lemma no_slash_append (a b : string) :
  In "/"%char (list_ascii_of_string (a ++ b)) <->
  In "/"%char (list_ascii_of_string a) \/ In "/"%char (list_ascii_of_string b).
Proof.
  induction a as [|c a IH]; cbn [append list_ascii_of_string In].
  - tauto.
  - rewrite IH. tauto.
Qed.

Lemma concat_snoc (sep : string) (l : list string) (x : string) :
  l <> [] ->
  String.concat sep (l ++ [x]) = String.concat sep l ++ sep ++ x.
Proof.
  induction l as [|y l IH]; [contradiction|]. intros _.
  destruct l as [|z l].
  - reflexivity.
  - cbn [app String.concat] in *. rewrite IH by discriminate.
    now rewrite !append_assoc.
Qed.

(** A string is its last component, alone or after a slash. *)
Lemma split_path_last (s : string) :
  s = last (split_path s) ""
  \/ exists a, s = a ++ "/" ++ last (split_path s) "".
Proof.
  pose proof (join_split_path s) as Hj. unfold join_path in Hj.
  pose proof (split_path_nonempty s) as Hne.
  rewrite (app_removelast_last "" Hne) in Hj.
  destruct (removelast (split_path s)) as [|y l] eqn:Hr.
  - left. cbn in Hj. now symmetry.
  - right. rewrite concat_snoc in Hj by discriminate.
    eexists. symmetry. exact Hj.
Qed.

Lemma last_filter {A} (keep : A -> bool) (l : list A) (d : A) :
  l <> [] -> keep (last l d) = true -> last (filter keep l) d = last l d.
Proof.
  induction l as [|x l IH]; [contradiction|]. intros _ Hk.
  destruct l as [|y l].
  - cbn in *. now rewrite Hk.
  - change (last (x :: y :: l) d) with (last (y :: l) d) in *.
    change (filter keep (x :: y :: l))
      with (if keep x then x :: filter keep (y :: l) else filter keep (y :: l)).
    specialize (IH ltac:(discriminate) Hk).
    destruct (keep x); [|exact IH].
    destruct (filter keep (y :: l)) as [|z l'] eqn:Hf; [|exact IH].
    exfalso.
    assert (Hin : In (last (y :: l) d) (filter keep (y :: l))).
    { apply filter_In. split; [|exact Hk].
      rewrite (app_removelast_last d (l := y :: l)) at 2 by discriminate.
      apply in_or_app. right. now left. }
    rewrite Hf in Hin. destruct Hin.
Qed.

Lemma rsplit_dot_spec (name : string) :
  forall before from_dot,
    rsplit_dot name = Some (before, from_dot) ->
    name = before ++ from_dot /\ exists rest, from_dot = String "." rest.
Proof.
  induction name as [|c name IH]; intros before from_dot; cbn [rsplit_dot];
    [discriminate|].
  destruct (rsplit_dot name) as [[b d]|].
  - intros [= <- <-]. destruct (IH b d eq_refl) as [-> Hd]. now split.
  - destruct (Ascii.eqb_spec c ".") as [->|Hc]; [|discriminate].
    intros [= <- <-]. split; [reflexivity | now exists name].
Qed.

(** A name is its stem followed by nothing or by a dot and more. *)
Lemma stem_of_spec (name : string) :
  exists x,
    name = stem_of name ++ x /\ (x = "" \/ exists rest, x = String "." rest).
Proof.
  unfold stem_of.
  destruct (rsplit_dot name) as [[before from_dot]|] eqn:Hr.
  - destruct (rsplit_dot_spec _ _ _ Hr) as [Hn Hd].
    destruct (_ && _)%bool.
    + exists from_dot. split; [exact Hn | now right].
    + exists "". split; [now rewrite append_nil_r | now left].
  - exists "". split; [now rewrite append_nil_r | now left].
Qed.

Lemma stem_of_no_slash (name : string) :
  ~ In "/"%char (list_ascii_of_string name) ->
  ~ In "/"%char (list_ascii_of_string (stem_of name)).
Proof.
  intros Hno H. destruct (stem_of_spec name) as (x & Hx & _).
  apply Hno. rewrite Hx. apply no_slash_append. now left.
Qed.

Lemma p_name_no_slash (f : string) :
  ~ In "/"%char (list_ascii_of_string (p_name (parse_path f))).
Proof.
  unfold p_name, parse_path. cbn [p_parts].
  set (l := filter _ (split_path f)).
  assert (Hl : Forall (fun c => ~ In "/"%char (list_ascii_of_string c)) l).
  { apply Forall_forall. intros c Hc. apply filter_In in Hc as [Hc _].
    pose proof (split_path_no_slash f) as Hall.
    rewrite Forall_forall in Hall. now apply Hall. }
  destruct l as [|x l'] eqn:El; [intros []|].
  rewrite Forall_forall in Hl. apply Hl.
  rewrite (app_removelast_last "" (l := x :: l')) at 2 by discriminate.
  apply in_or_app. right. now left.
Qed.

Lemma parse_root_no_slash (s : string) :
  ~ In "/"%char (list_ascii_of_string s) -> parse_root s = "".
Proof.
  destruct s as [|c s]; [reflexivity|]. cbn [list_ascii_of_string In].
  intros Hno.
  destruct c as [[] [] [] [] [] [] [] []]; try reflexivity.
  exfalso. apply Hno. now left.
Qed.

Lemma parse_path_single (s : string) :
  ~ In "/"%char (list_ascii_of_string s) -> s <> "" -> s <> "." ->
  parse_path s = mk_ppath "" [s].
Proof.
  intros Hno H1 H2. unfold parse_path.
  rewrite parse_root_no_slash by exact Hno.
  rewrite split_path_single by exact Hno. cbn [filter].
  destruct (String.eqb_spec s ""); [contradiction|].
  destruct (String.eqb_spec s "."); [contradiction|]. reflexivity.
Qed.

Lemma upgrade_name_plain (stem : string) :
  stem ++ "-upgrade.epub" <> "" /\ stem ++ "-upgrade.epub" <> ".".
Proof.
  split; intros H.
  - apply append_eq_empty in H as [_ H]. discriminate.
  - destruct stem as [|c stem]; [discriminate|].
    injection H as _ H. apply append_eq_empty in H as [_ H]. discriminate.
Qed.

Lemma output_path_formula (f : string) :
  Cli.output_path_of (parse_path f) =
  mk_ppath (p_root (parse_path f))
    (removelast (p_parts (parse_path f))
     ++ [(p_stem (parse_path f) ++ "-upgrade.epub")%string])%list.
Proof.
  unfold Cli.output_path_of, p_join.
  destruct (upgrade_name_plain (p_stem (parse_path f))) as [H1 H2].
  rewrite parse_path_single; [reflexivity | | exact H1 | exact H2].
  intros H. apply no_slash_append in H as [H|H].
  - revert H. apply stem_of_no_slash, p_name_no_slash.
  - cbn in H. repeat (destruct H as [H|H]; [discriminate|]). contradiction.
Qed.

Lemma upgrade_name_differs (name : string) :
  stem_of name ++ "-upgrade.epub" <> name.
Proof.
  intros H. destruct (stem_of_spec name) as (x & Hx & Hshape).
  rewrite Hx in H at 2. apply append_inv_head in H.
  destruct Hshape as [->|[rest ->]]; discriminate.
Qed.

Lemma output_path_differs (f : string) :
  Cli.output_path_of (parse_path f) <> parse_path f.
Proof.
  rewrite output_path_formula. intros H.
  assert (Hparts :
    (removelast (p_parts (parse_path f))
     ++ [(p_stem (parse_path f) ++ "-upgrade.epub")%string])%list
    = p_parts (parse_path f)) by (rewrite <- H at 3; reflexivity).
  destruct (p_parts (parse_path f)) as [|x l] eqn:Hp.
  - discriminate.
  - rewrite (app_removelast_last "" (l := x :: l)) in Hparts at 2 by discriminate.
    apply app_inj_tail in Hparts as [_ Hlast].
    unfold p_stem, p_name in Hlast. rewrite Hp in Hlast.
    now apply upgrade_name_differs in Hlast.
Qed.

Lemma p_name_output_path (g : string) :
  p_name (Cli.output_path_of (parse_path g))
  = p_stem (parse_path g) ++ "-upgrade.epub".
Proof.
  rewrite output_path_formula. unfold p_name at 1. cbn [p_parts].
  apply last_last.
Qed.

Lemma source_name_not_upgrade (h : Host) (f : string) :
  (forall s, endswith (py_lower h s) ".epub" = true ->
             endswith s "b" = true \/ endswith s "B" = true) ->
  endswith (py_lower h f) ".epub" = true ->
  endswith f "-upgrade.epub" = false ->
  endswith (p_name (parse_path f)) "-upgrade.epub" = false.
Proof.
  intros Hlower Hepub Hnot.
  assert (Hlast : exists a c, f = a ++ String c "" /\ c <> "/"%char /\ c <> "."%char).
  { destruct (Hlower f Hepub) as [H|H]; apply endswith_spec in H as [a Ha];
      exists a; eexists; (split; [exact Ha|]); split; discriminate. }
  destruct Hlast as (a & c & Hf & Hc1 & Hc2).
  set (x := last (split_path f) "").
  assert (Hx1 : x <> "").
  { intros Hx. destruct (split_path_last f) as [H|[a' H]]; fold x in H;
      rewrite Hx in H.
    - rewrite H in Hf. destruct a; discriminate.
    - rewrite Hf in H. change (a' ++ "/" ++ "") with (a' ++ String "/" "") in H.
      apply append_last_char in H. contradiction. }
  assert (Hx2 : x <> ".").
  { intros Hx. destruct (split_path_last f) as [H|[a' H]]; fold x in H;
      rewrite Hx in H; rewrite Hf in H.
    - change "." with ("" ++ String "." "") in H.
      apply append_last_char in H. contradiction.
    - change (a' ++ "/" ++ ".") with (a' ++ String "/" (String "." "")) in H.
      replace (a' ++ String "/" (String "." ""))
        with ((a' ++ String "/" "") ++ String "." "") in H
        by (rewrite append_assoc; reflexivity).
      apply append_last_char in H. contradiction. }
  assert (Hname : p_name (parse_path f) = x).
  { unfold p_name, parse_path. cbn [p_parts]. apply last_filter.
    - apply split_path_nonempty.
    - fold x. destruct (String.eqb_spec x ""); [contradiction|].
      destruct (String.eqb_spec x "."); [contradiction|]. reflexivity. }
  rewrite Hname.
  destruct (endswith x "-upgrade.epub") eqn:He; [|reflexivity].
  apply endswith_spec in He as [y Hy].
  assert (Hends : endswith f "-upgrade.epub" = true).
  { apply endswith_spec.
    destruct (split_path_last f) as [H|[a' H]]; fold x in H; rewrite Hy in H.
    - now exists y.
    - exists (a' ++ "/" ++ y). rewrite H. now rewrite !append_assoc. }
  congruence.
Qed.

Lemma cli_process_epub_frame (h : Host) (w w' : fs) (f : string)
    (margin_size : Z) (p : ppath) :
  Cli.process_epub h w f margin_size = Ok w' ->
  Cli.output_path_of (parse_path f) <> p ->
  fs_lookup w' p = fs_lookup w p.
Proof.
  unfold Cli.process_epub. intros Hp Hne.
  apply run_transform_inv in Hp as (a & out & _ & _ & ->).
  cbn [fs_lookup].
  destruct (ppath_eqb (Cli.output_path_of (parse_path f)) p) eqn:E;
    [|reflexivity].
  apply ppath_eqb_eq in E. contradiction.
Qed.

Lemma cli_batch_frame (h : Host) (margin_size : Z) (files : list string)
    (p : ppath) :
  (forall g, In g files -> Cli.output_path_of (parse_path g) <> p) ->
  forall st,
    fs_lookup (Cli.b_fs (Cli.batch h margin_size files st)) p
    = fs_lookup (Cli.b_fs st) p.
Proof.
  induction files as [|g files IH]; intros Hout st; cbn [Cli.batch];
    [reflexivity|].
  assert (Hrest : forall g', In g' files -> Cli.output_path_of (parse_path g') <> p)
    by (intros g' Hg'; apply Hout; now right).
  destruct (Cli.process_epub h (Cli.b_fs st) g margin_size) as [w'|err] eqn:Hp;
    rewrite (IH Hrest); cbn [Cli.b_fs]; [|reflexivity].
  eapply cli_process_epub_frame; [exact Hp|]. apply Hout. now left.
Qed.

Lemma main_processed_lower (h : Host) (w : fs) (argv : list string) (f : string) :
  In f (Cli.processed (Cli.main h w argv)) ->
  endswith (py_lower h f) ".epub" = true /\ endswith f "-upgrade.epub" = false.
Proof.
  unfold Cli.main.
  destruct (Cli.parse_args h (tl argv) [] 20) as [code msgs|epub_files margin_size];
    [intros []|].
  cbv zeta.
  destruct (Cli.resolved h argv epub_files) as [|x l] eqn:Hl.
  - destruct (Cli.scans argv epub_files); intros [].
  - destruct (Cli.filter_files h (set_iter h (x :: l))) as [unique_files skipped] eqn:Hf.
    destruct unique_files as [|u us]; [intros []|].
    cbn [Cli.processed]. intros Hin.
    assert (Hin' : In f (fst (Cli.filter_files h (set_iter h (x :: l)))))
      by (rewrite Hf; exact Hin).
    apply filter_files_spec in Hin'. tauto.
Qed.

(** C10. The command-line [process_epub] writes to the folder of its
    input, under the input's stem followed by [-upgrade.epub]; that is
    never the input path, so a call leaves the input file as it was.
    In a whole run no processed file is overwritten either, since the
    names [main] keeps do not end with [-upgrade.epub] (given that
    [str.lower] turns only [b] and [B] into a final [b]). *)
Theorem cli_keeps_source (h : Host) (w : fs) :
  (forall f,
     Cli.output_path_of (parse_path f) =
     mk_ppath (p_root (parse_path f))
       (removelast (p_parts (parse_path f))
        ++ [(p_stem (parse_path f) ++ "-upgrade.epub")%string])%list
     /\ Cli.output_path_of (parse_path f) <> parse_path f)
  /\ (forall f margin_size w',
        Cli.process_epub h w f margin_size = Ok w' ->
        fs_lookup w' (parse_path f) = fs_lookup w (parse_path f))
  /\ ((forall s, endswith (py_lower h s) ".epub" = true ->
                 endswith s "b" = true \/ endswith s "B" = true) ->
      forall argv f,
        In f (Cli.processed (Cli.main h w argv)) ->
        fs_lookup (Cli.final_fs (Cli.main h w argv)) (parse_path f)
        = fs_lookup w (parse_path f)).
Proof.
  split; [|split].
  - intros f. split; [apply output_path_formula | apply output_path_differs].
  - intros f margin_size w' Hp.
    eapply cli_process_epub_frame; [exact Hp | apply output_path_differs].
  - intros Hlower argv f Hin.
    assert (Hne : Cli.processed (Cli.main h w argv) <> [])
      by (intros E; rewrite E in Hin; destruct Hin).
    destruct (cli_main_runs_batch h w argv Hne) as (m & log & Heq).
    rewrite Heq at 1. cbn [Cli.final_fs].
    rewrite cli_batch_frame; [reflexivity|].
    intros g Hg Hout.
    destruct (main_processed_lower h w argv f Hin) as [Hf1 Hf2].
    pose proof (source_name_not_upgrade h f Hlower Hf1 Hf2) as Hname.
    rewrite <- Hout, p_name_output_path in Hname.
    assert (Htrue : endswith (p_stem (parse_path g) ++ "-upgrade.epub")
                      "-upgrade.epub" = true)
      by (apply endswith_spec; now eexists).
    congruence.
Qed.

Lemma cli_keeps_source_witness :
  fs_lookup Sample.upgraded_disk (parse_path "book.epub")
  = fs_lookup Sample.disk (parse_path "book.epub")
  /\ fs_lookup
       (Cli.final_fs
          (Cli.main Sample.host Sample.disk ["modify_epub_margins.py"]))
       (parse_path "book.epub")
     = fs_lookup Sample.disk (parse_path "book.epub").
Proof.
  split.
  - apply (proj1 (proj2 (cli_keeps_source Sample.host Sample.disk))
             "book.epub" 20%Z Sample.upgraded_disk).
    vm_compute. reflexivity.
  - apply (proj2 (proj2 (cli_keeps_source Sample.host Sample.disk))).
    + intros s Hs. left. cbn [py_lower Sample.host] in Hs.
      apply endswith_spec in Hs as [a ->]. apply endswith_spec.
      exists (a ++ ".epu"). now rewrite append_assoc.
    + vm_compute. left. reflexivity.
Defined.

(** ** Files called [mimetype] below the root *)

(** C1 at a book that keeps a file [OPS/fonts/mimetype]: the walk skips
    every file whose own name is [mimetype], so the new archive holds
    the root [mimetype] and the stylesheet with the fragment appended,
    and the file in the folder is gone. *)
Theorem nested_mimetype_is_dropped :
  In (mk_entry "OPS/fonts/mimetype" "font/ttf" ZIP_DEFLATED)
     Sample.nested_mimetype_book
  /\ transform Sample.host (get_margin_css 20) Sample.nested_mimetype_book
     = Ok [ mk_entry "mimetype" "application/epub+zip" ZIP_STORED;
            mk_entry "OPS/style.css" ("p { margin: 0 }" ++ get_margin_css 20)
              ZIP_DEFLATED ]
  /\ Cli.process_epub Sample.host
       [(parse_path "nested.epub", ZipData Sample.nested_mimetype_book)]
       "nested.epub" 20
     = Ok [ (parse_path "nested-upgrade.epub",
             ZipData
               [ mk_entry "mimetype" "application/epub+zip" ZIP_STORED;
                 mk_entry "OPS/style.css"
                   ("p { margin: 0 }" ++ get_margin_css 20) ZIP_DEFLATED ]);
            (parse_path "nested.epub", ZipData Sample.nested_mimetype_book) ].
Proof.
  split; [right; right; left; reflexivity|].
  split; vm_compute; reflexivity.
Qed.

(** ** What the new archive holds *)

Lemma tree_files_lookup (t : tree) (p c : string) :
  t_lookup t p = Some (File c) -> In (p, c) (tree_files t).
Proof.
  induction t as [|[q n] t IH]; cbn [t_lookup tree_files]; [discriminate|].
  destruct (String.eqb_spec q p) as [->|Hne].
  - intros [= ->]. now left.
  - intros H. destruct n; [right|]; now apply IH.
Qed.

Lemma build_archive_file (h : Host) (t : tree) (p c : string) :
  (forall l, Permutation (scandir_order h l) l) ->
  t_lookup t p = Some (File c) ->
  (basename p = "mimetype" -> p = "mimetype") ->
  exists x, In x (build_archive h t) /\ e_name x = p /\ e_data x = c.
Proof.
  intros Hperm Hp Hbase. unfold build_archive.
  destruct (String.eqb_spec (basename p) "mimetype") as [Hb|Hb].
  - rewrite (Hbase Hb) in *. unfold mimetype_member. rewrite Hp.
    eexists. split; [left; reflexivity | now split].
  - exists (mk_entry p c ZIP_DEFLATED). split; [|now split].
    apply in_or_app. right. unfold walk_members.
    apply in_map_iff. exists (p, c). split; [reflexivity|].
    apply filter_In. split.
    + apply (Permutation_in _ (Permutation_sym (Hperm _))).
      now apply tree_files_lookup.
    + cbn [fst]. now destruct (String.eqb_spec (basename p) "mimetype").
Qed.

Lemma makedirs_from_files_back (parts : list string) :
  forall t done t' p c,
    makedirs_from t done parts = Ok t' ->
    t_lookup t' p = Some (File c) -> t_lookup t p = Some (File c).
Proof.
  induction parts as [|d parts IH]; intros t done t' p c; cbn [makedirs_from].
  - now intros [= <-].
  - destruct (t_lookup t (join_path (done ++ [d]))) as [[x|]|] eqn:E.
    + destruct parts; discriminate.
    + apply IH.
    + intros Hm Hp. specialize (IH _ _ _ _ _ Hm Hp).
      destruct (string_dec p (join_path (done ++ [d]))) as [->|Hne].
      * rewrite t_lookup_set_same in IH. discriminate.
      * now rewrite t_lookup_set_other in IH.
Qed.

Lemma extract_member_file_origin (t t' : tree) (e : entry) (p c : string) :
  extract_member t e = Ok t' ->
  t_lookup t' p = Some (File c) ->
  t_lookup t p = Some (File c) \/ member_target e = p.
Proof.
  unfold extract_member, make_upperdirs, member_target.
  destruct (member_parts (e_name e)) as [|d parts].
  - destruct (member_is_dir (e_name e)); [intros [= <-]; now left | discriminate].
  - destruct (makedirs t (removelast (d :: parts))) as [t1|err] eqn:Hm;
      [|discriminate].
    cbn [bind]. intros Hx Hp.
    destruct (string_dec (join_path (d :: parts)) p) as [Heq|Hne];
      [now right | left].
    eapply makedirs_from_files_back; [exact Hm|].
    destruct (member_is_dir (e_name e)).
    + destruct (t_lookup t1 (join_path (d :: parts))) as [[x|]|];
        try discriminate; injection Hx as <-; [exact Hp|].
      rewrite t_lookup_set_other in Hp; [exact Hp | congruence].
    + unfold write_file in Hx.
      destruct (t_lookup t1 (join_path (d :: parts))) as [[x|]|];
        try discriminate; injection Hx as <-;
        (rewrite t_lookup_set_other in Hp; [exact Hp | congruence]).
Qed.

(** A file of the scratch directory was put there by a member. *)
Lemma extract_members_file_origin (a : archive) (p c : string) :
  forall t t',
    extract_members t a = Ok t' ->
    t_lookup t' p = Some (File c) ->
    t_lookup t p = Some (File c) \/ exists e, In e a /\ member_target e = p.
Proof.
  induction a as [|x a IH]; intros t t'; cbn [extract_members].
  - intros [= <-] Hp. now left.
  - destruct (extract_member t x) as [t1|err] eqn:Hx; [|discriminate].
    cbn [bind]. intros Hrest Hp.
    destruct (IH _ _ Hrest Hp) as [H1|(e & He & Ht)].
    + destruct (extract_member_file_origin _ _ _ _ _ Hx H1) as [H0|Ht];
        [now left | right; exists x; split; [now left | exact Ht]].
    + right. exists e. split; [now right | exact Ht].
Qed.

(** A name without empty, [.] or [..] components is extracted under
    that very name. *)
Lemma member_target_clean (e : entry) :
  forallb (fun c => negb (invalid_path_part c)) (split_path (e_name e)) = true ->
  member_target e = e_name e.
Proof.
  intros Hclean. unfold member_target, member_parts.
  assert (Hf : forall l, forallb (fun c => negb (invalid_path_part c)) l = true ->
                         filter (fun c => negb (invalid_path_part c)) l = l).
  { induction l as [|x l IH]; [reflexivity|]. cbn [forallb filter].
    intros H. apply andb_true_iff in H as [Hx Hl]. now rewrite Hx, IH. }
  rewrite Hf by exact Hclean. apply join_split_path.
Qed.

(** X1, the part of C1 that holds.  When [transform] returns, one of the
    four conventional paths is the stylesheet appended to.  Every
    member of the source that is a file, the only member at its place,
    and not called [mimetype] below the root, is in the new archive
    under the path it was extracted to, with its bytes -- followed by
    the fragment when it is that stylesheet.  When no member is
    extracted to the stylesheet's path, the path is [OPS/style.css] and
    the new archive holds it with the placeholder line followed by the
    fragment. *)
Theorem transform_keeps_members (h : Host) (css_content : string)
    (a out : archive) :
  (forall l, Permutation (scandir_order h l) l) ->
  transform h css_content a = Ok out ->
  exists css_file,
    In css_file possible_paths
    /\ (forall e,
          In e a -> member_is_dir (e_name e) = false ->
          (forall e', In e' a -> member_target e' = member_target e -> e' = e) ->
          (basename (member_target e) = "mimetype" ->
           member_target e = "mimetype") ->
          exists x,
            In x out /\ e_name x = member_target e
            /\ e_data x = if String.eqb (member_target e) css_file
                          then e_data e ++ css_content else e_data e)
    /\ ((forall e, In e a -> member_target e <> css_file) ->
        css_file = "OPS/style.css"
        /\ In (mk_entry css_file (placeholder_css ++ css_content) ZIP_DEFLATED)
              out).
Proof.
  intros Hperm. unfold transform, extractall.
  destruct (extract_members [] a) as [t0|err] eqn:Hx; [|discriminate].
  cbn [bind].
  destruct (resolve_css_file t0) as [[css_file t1]|err] eqn:Hr; [|discriminate].
  cbn [bind fst snd].
  destruct (append_file t1 css_file css_content) as [t2|err] eqn:Ha; [|discriminate].
  cbn [bind]. intros [= <-].
  pose proof (resolve_css_file_path _ _ _ Hr) as Hcss.
  exists css_file. split; [exact Hcss|]. split.
  - intros e Hin Hd Huniq Hbase.
    pose proof (extract_members_file e a Hin Hd Huniq _ _ Hx) as H0.
    pose proof (resolve_css_file_keeps _ _ _ _ _ Hr H0) as H1.
    apply build_archive_file; [exact Hperm | | exact Hbase].
    destruct (String.eqb_spec (member_target e) css_file) as [Heq|Hne].
    + unfold append_file in Ha. rewrite <- Heq in Ha. rewrite H1 in Ha.
      injection Ha as <-. apply t_lookup_set_same.
    + eapply append_file_other; [exact Ha | congruence | exact H1].
  - intros Hnone.
    assert (Hplace : css_file = "OPS/style.css"
                     /\ t_lookup t1 css_file = Some (File placeholder_css)).
    { unfold resolve_css_file in Hr.
      destruct (find_css_file t0) as [q|] eqn:Hf.
      - exfalso. injection Hr as <- <-.
        unfold find_css_file in Hf. apply find_some in Hf as [_ Hex].
        unfold t_exists in Hex. unfold append_file in Ha.
        destruct (t_lookup t0 q) as [[c|]|] eqn:Hq; try discriminate.
        destruct (extract_members_file_origin _ _ _ _ _ Hx Hq)
          as [H|(e & He & Ht)]; [discriminate|].
        exact (Hnone e He Ht).
      - destruct (makedirs t0 ["OPS"]) as [t'|err]; [|discriminate].
        cbn [bind] in Hr.
        destruct (write_file t' (join_path ["OPS"; "style.css"]) placeholder_css)
          as [t''|err] eqn:Hw; [|discriminate].
        cbn [bind] in Hr. injection Hr as <- <-.
        split; [reflexivity | eapply write_file_same; eauto]. }
    destruct Hplace as [-> H1]. split; [reflexivity|].
    assert (H2 : t_lookup t2 "OPS/style.css"
                 = Some (File (placeholder_css ++ css_content))).
    { unfold append_file in Ha. rewrite H1 in Ha. injection Ha as <-.
      apply t_lookup_set_same. }
    destruct (build_archive_file h t2 _ _ Hperm H2) as (x & Hx1 & Hx2 & Hx3).
    { intros H. vm_compute in H. discriminate. }
    unfold build_archive in *. apply in_app_or in Hx1 as [Hx1|Hx1].
    + exfalso. unfold mimetype_member in Hx1.
      destruct (t_lookup t2 "mimetype") as [[c|]|]; cbn in Hx1;
        try (destruct Hx1 as [<-|[]]; discriminate); contradiction.
    + apply in_or_app. right. unfold walk_members in *.
      apply in_map_iff in Hx1 as (f & <- & Hf). cbn [e_name e_data] in *.
      apply in_map_iff. exists f. split; [|exact Hf].
      destruct f as [n d]. cbn [fst snd] in *. now subst.
Qed.

Lemma transform_keeps_members_witness :
  exists css_file x,
    In css_file possible_paths
    /\ In x (match transform Sample.host (get_margin_css 20) Sample.book with
             | Ok out => out
             | Raise _ => []
             end)
    /\ e_name x = "OPS/chapter1.xhtml" /\ e_data x = "<html/>".
Proof.
  destruct (transform Sample.host (get_margin_css 20) Sample.book)
    as [out|err] eqn:Ht; [|vm_compute in Ht; discriminate].
  destruct (transform_keeps_members Sample.host (get_margin_css 20) Sample.book
              out (fun l => Permutation_refl l) Ht)
    as (css_file & Hcss & Hmembers & _).
  destruct (Hmembers (mk_entry "OPS/chapter1.xhtml" "<html/>" ZIP_DEFLATED))
    as (x & Hin & Hname & Hdata).
  - right; right; right; left; reflexivity.
  - reflexivity.
  - intros e' [<-|[<-|[<-|[<-|[]]]]] Heq;
      solve [reflexivity | vm_compute in Heq; discriminate].
  - intros H. vm_compute in H. discriminate.
  - exists css_file, x. repeat split; try assumption.
    rewrite Hdata.
    destruct Hcss as [<-|[<-|[<-|[<-|[]]]]]; reflexivity.
Defined.

(** ** Overwrite mode *)

(** X2. In [replace] mode a call of [process_epub] that returns has put the
    transformed archive at the path of the input and has touched no
    other path; the fragment appended is the one of the modification
    asked for. *)
Theorem replace_mode_overwrites_input (h : Host) (w w' : fs) (epub_path : string)
    (modification_type : string) (margin_size : Z) (output_dir : option ppath) :
  Interactive.process_epub h w epub_path modification_type margin_size
    "replace" output_dir = Ok w' ->
  exists a out css_content,
    open_zip w (parse_path epub_path) = Ok a
    /\ transform h css_content a = Ok out
    /\ w' = (parse_path epub_path, ZipData out) :: w
    /\ open_zip w' (parse_path epub_path) = Ok out
    /\ (modification_type = "margins" /\ css_content = get_margin_css margin_size
        \/ modification_type = "hyphens" /\ css_content = get_no_hyphenation_css
        \/ modification_type = "both"
           /\ css_content = get_combined_css margin_size).
Proof.
  unfold Interactive.process_epub. cbn [String.eqb Ascii.eqb Bool.eqb bind].
  destruct (String.eqb_spec modification_type "margins") as [->|H1].
  - cbn [bind]. intros Hr.
    apply run_transform_inv in Hr as (a & out & Ha & Ht & ->).
    exists a, out, (get_margin_css margin_size).
    repeat split; try assumption; [apply open_zip_written | now left].
  - destruct (String.eqb_spec modification_type "hyphens") as [->|H2].
    + cbn [bind]. intros Hr.
      apply run_transform_inv in Hr as (a & out & Ha & Ht & ->).
      exists a, out, get_no_hyphenation_css.
      repeat split; try assumption; [apply open_zip_written | right; now left].
    + destruct (String.eqb_spec modification_type "both") as [->|H3];
        [|discriminate].
      cbn [bind]. intros Hr.
      apply run_transform_inv in Hr as (a & out & Ha & Ht & ->).
      exists a, out, (get_combined_css margin_size).
      repeat split; try assumption; [apply open_zip_written | right; now right].
Qed.

Lemma replace_mode_overwrites_input_witness :
  exists out,
    open_zip
      (match Interactive.process_epub Sample.host Sample.disk "book.epub"
               "both" 20 "replace" None with
       | Ok w' => w'
       | Raise _ => []
       end)
      (parse_path "book.epub") = Ok out.
Proof.
  destruct (Interactive.process_epub Sample.host Sample.disk "book.epub"
              "both" 20 "replace" None) as [w'|err] eqn:Hp;
    [|vm_compute in Hp; discriminate].
  destruct (replace_mode_overwrites_input _ _ _ _ _ _ _ Hp)
    as (a & out & css & _ & _ & _ & Hopen & _).
  now exists out.
Defined.

(** ** More on the batch loops *)

(** X3. Whatever the number of failures, the success count a batch loop
    ends with is the number of calls of [process_epub] that returned,
    in both tools; it never exceeds the number of files. *)
Theorem batch_counts_successes (h : Host) (files : list string) (w : fs) :
  (forall margin_size log,
     Cli.b_success_count
       (Cli.batch h margin_size files (Cli.mk_batch w 0 log))
     = List.length
         (filter (fun r => negb (raised r))
            (Cli.attempts h margin_size files w))
     /\ Cli.b_success_count
          (Cli.batch h margin_size files (Cli.mk_batch w 0 log))
        <= List.length files)
  /\ (forall modification_type margin_size output_mode output_dir tr,
        Interactive.b_success_count
          (Interactive.batch h modification_type margin_size output_mode
             output_dir files (Interactive.mk_batch w 0 tr))
        = List.length
            (filter (fun r => negb (raised r))
               (Interactive.attempts h modification_type margin_size
                  output_mode output_dir files w))
        /\ Interactive.b_success_count
             (Interactive.batch h modification_type margin_size output_mode
                output_dir files (Interactive.mk_batch w 0 tr))
           <= List.length files).
Proof.
  split.
  - intros margin_size log.
    pose proof (cli_batch_count h margin_size files (Cli.mk_batch w 0 log)) as Hc.
    cbn [Cli.b_fs Cli.b_success_count] in Hc.
    pose proof (filter_partition_length raised
                  (Cli.attempts h margin_size files w)) as Hp.
    unfold Cli.attempts in *. rewrite attempts_of_length in Hp. lia.
  - intros mt margin_size mode dir tr.
    pose proof (interactive_batch_count h mt margin_size mode dir files
                  (Interactive.mk_batch w 0 tr)) as Hc.
    cbn [Interactive.b_fs Interactive.b_success_count] in Hc.
    pose proof (filter_partition_length raised
                  (Interactive.attempts h mt margin_size mode dir files w)) as Hp.
    unfold Interactive.attempts in *. rewrite attempts_of_length in Hp. lia.
Qed.

Lemma cli_batch_all_fail (h : Host) (margin_size : Z) (files : list string) :
  forall st,
    forallb raised (Cli.attempts h margin_size files (Cli.b_fs st)) = true ->
    Cli.b_fs (Cli.batch h margin_size files st) = Cli.b_fs st
    /\ Cli.b_success_count (Cli.batch h margin_size files st)
       = Cli.b_success_count st.
Proof.
  unfold Cli.attempts.
  induction files as [|f files IH]; intros st; cbn [Cli.batch attempts_of forallb];
    [now split|].
  destruct (Cli.process_epub h (Cli.b_fs st) f margin_size) as [w'|err];
    cbn [raised andb]; [discriminate|].
  intros Hall. now apply (IH (Cli.mk_batch _ _ _)).
Qed.

(** X4. A command-line run that gets to the batch exits with status 0
    whatever happens to the files: when every call of [process_epub]
    raises, the run still ends normally, reports 0 out of [N], and the
    file system is as it was. *)
Theorem cli_failures_keep_status (h : Host) (w : fs) (argv : list string)
    (epub_files : list string) (margin_size : Z) :
  Cli.processed (Cli.main h w argv) <> [] ->
  Cli.parse_args h (tl argv) [] 20 = Cli.Parsed epub_files margin_size ->
  forallb raised
    (Cli.attempts h margin_size (Cli.processed (Cli.main h w argv)) w) = true ->
  Cli.status (Cli.main h w argv) = 0%Z
  /\ Cli.final_fs (Cli.main h w argv) = w
  /\ exists before,
       Cli.printed (Cli.main h w argv)
       = (before
          ++ [Cli.MsgSummary 0 (List.length (Cli.processed (Cli.main h w argv)))])%list.
Proof.
  intros Hne Hparse Hall. revert Hne Hall. unfold Cli.main.
  rewrite Hparse. cbv zeta. set (m := margin_size).
  destruct (Cli.resolved h argv epub_files) as [|x l].
  - destruct (Cli.scans argv epub_files); intros H; now contradiction H.
  - destruct (Cli.filter_files h (set_iter h (x :: l))) as [unique_files skipped].
    destruct unique_files as [|u us]; [intros H; now contradiction H|].
    intros _. cbn [Cli.processed Cli.status Cli.final_fs Cli.printed].
    intros Hall.
    match goal with
    | |- context [Cli.batch h m (u :: us) ?s] =>
        destruct (cli_batch_all_fail h m (u :: us) s Hall) as [Hfs Hcount]
    end.
    rewrite Hfs, Hcount. cbn [Cli.b_fs Cli.b_success_count].
    split; [reflexivity|]. split; [reflexivity|]. eexists. reflexivity.
Qed.

Lemma cli_failures_keep_status_witness :
  Cli.status
    (Cli.main Sample.host Sample.disk ["modify_epub_margins.py"; "broken.epub"])
  = 0%Z
  /\ Cli.final_fs
       (Cli.main Sample.host Sample.disk ["modify_epub_margins.py"; "broken.epub"])
     = Sample.disk.
Proof.
  destruct (cli_failures_keep_status Sample.host Sample.disk
              ["modify_epub_margins.py"; "broken.epub"] ["broken.epub"] 20%Z)
    as (H1 & H2 & _).
  - vm_compute. discriminate.
  - reflexivity.
  - vm_compute. reflexivity.
  - split; assumption.
Defined.

(** ** What a command-line run writes *)

Lemma cli_main_final_fs (h : Host) (w : fs) (argv : list string) (p : ppath) :
  (forall f, In f (Cli.processed (Cli.main h w argv)) ->
             Cli.output_path_of (parse_path f) <> p) ->
  fs_lookup (Cli.final_fs (Cli.main h w argv)) p = fs_lookup w p.
Proof.
  destruct (Cli.processed (Cli.main h w argv)) as [|f0 fs0] eqn:Hproc.
  - intros _. revert Hproc. unfold Cli.main.
    destruct (Cli.parse_args h (tl argv) [] 20) as [code msgs|epub_files m];
      [reflexivity|].
    cbv zeta. destruct (Cli.resolved h argv epub_files) as [|x l].
    + destruct (Cli.scans argv epub_files); reflexivity.
    + destruct (Cli.filter_files h (set_iter h (x :: l))) as [unique_files skipped].
      destruct unique_files as [|u us]; [reflexivity | discriminate].
  - intros Hout.
    assert (Hne : Cli.processed (Cli.main h w argv) <> [])
      by (rewrite Hproc; discriminate).
    destruct (cli_main_runs_batch h w argv Hne) as (m & log & Heq).
    rewrite Heq at 1. cbn [Cli.final_fs]. rewrite Hproc.
    now rewrite cli_batch_frame.
Qed.

(** X5. A command-line run writes nowhere but at the output paths of the
    files it processes: a path whose content differs after the run is
    the output path of a processed file, so its name ends with
    [-upgrade.epub]. *)
Theorem cli_run_writes_only_outputs (h : Host) (w : fs) (argv : list string)
    (p : ppath) :
  fs_lookup (Cli.final_fs (Cli.main h w argv)) p <> fs_lookup w p ->
  exists f,
    In f (Cli.processed (Cli.main h w argv))
    /\ p = Cli.output_path_of (parse_path f)
    /\ endswith (p_name p) "-upgrade.epub" = true.
Proof.
  intros Hdiff.
  destruct (existsb (fun f => ppath_eqb (Cli.output_path_of (parse_path f)) p)
              (Cli.processed (Cli.main h w argv))) eqn:Hex.
  - apply existsb_exists in Hex as (f & Hin & Heq).
    apply ppath_eqb_eq in Heq. exists f. split; [exact Hin|].
    split; [now symmetry|]. rewrite <- Heq, p_name_output_path.
    apply endswith_spec. now eexists.
  - exfalso. apply Hdiff. apply cli_main_final_fs. intros f Hin Heq.
    assert (Htrue : existsb
                      (fun f => ppath_eqb (Cli.output_path_of (parse_path f)) p)
                      (Cli.processed (Cli.main h w argv)) = true).
    { apply existsb_exists. exists f. split; [exact Hin|].
      now apply ppath_eqb_eq. }
    congruence.
Qed.

Lemma cli_run_writes_only_outputs_witness :
  exists f,
    In f (Cli.processed
            (Cli.main Sample.host Sample.disk ["modify_epub_margins.py"]))
    /\ parse_path "book-upgrade.epub" = Cli.output_path_of (parse_path f)
    /\ endswith (p_name (parse_path "book-upgrade.epub")) "-upgrade.epub" = true.
Proof.
  apply (cli_run_writes_only_outputs Sample.host Sample.disk
           ["modify_epub_margins.py"] (parse_path "book-upgrade.epub")).
  vm_compute. discriminate.
Defined.

(** X6. Every candidate the filtering loop of [main] meets is accounted
    for: it is kept for processing, or reported as already processed
    (it exists, is an [.epub] and ends with [-upgrade.epub]), or
    reported as skipped (it does not exist or is no [.epub]); and the
    loop reports nothing else. *)
Theorem every_candidate_accounted (h : Host) (candidates : list string) :
  (forall c, In c candidates ->
     In c (fst (Cli.filter_files h candidates))
     \/ (In (Cli.MsgSkipProcessed c) (snd (Cli.filter_files h candidates))
         /\ path_exists h c = true
         /\ endswith (py_lower h c) ".epub" = true
         /\ endswith c "-upgrade.epub" = true)
     \/ (In (Cli.MsgSkip c) (snd (Cli.filter_files h candidates))
         /\ (path_exists h c && endswith (py_lower h c) ".epub")%bool = false))
  /\ (forall msg, In msg (snd (Cli.filter_files h candidates)) ->
        exists c, In c candidates
                  /\ (msg = Cli.MsgSkipProcessed c \/ msg = Cli.MsgSkip c)).
Proof.
  induction candidates as [|x l [IH1 IH2]]; cbn [Cli.filter_files].
  - split; [intros c [] | intros msg []].
  - destruct (Cli.filter_files h l) as [kept msgs]. cbn [fst snd] in *.
    destruct (path_exists h x && endswith (py_lower h x) ".epub")%bool eqn:Hok.
    + apply andb_true_iff in Hok as [He Hl].
      destruct (endswith x "-upgrade.epub") eqn:Hu; cbn [negb fst snd]; split.
      * intros c [<-|Hc].
        -- right. left. repeat split; try assumption. now left.
        -- destruct (IH1 c Hc) as [H|[(H & H')|(H & H')]];
             [now left | right; left; split; [now right | exact H']
             | right; right; split; [now right | exact H']].
      * intros msg [<-|Hm]; [exists x; split; [now left | now left]|].
        destruct (IH2 msg Hm) as (c & Hc & Hmsg). exists c. split; [now right | exact Hmsg].
      * intros c [<-|Hc]; [left; now left|].
        destruct (IH1 c Hc) as [H|[H|H]]; [left; now right | now right; left | now right; right].
      * intros msg Hm. destruct (IH2 msg Hm) as (c & Hc & Hmsg).
        exists c. split; [now right | exact Hmsg].
    + cbn [fst snd]. split.
      * intros c [<-|Hc]; [right; right; split; [now left | exact Hok]|].
        destruct (IH1 c Hc) as [H|[(H & H')|(H & H')]];
          [now left | right; left; split; [now right | exact H']
          | right; right; split; [now right | exact H']].
      * intros msg [<-|Hm]; [exists x; split; [now left | now right]|].
        destruct (IH2 msg Hm) as (c & Hc & Hmsg). exists c. split; [now right | exact Hmsg].
Qed.

Lemma every_candidate_accounted_witness :
  In (Cli.MsgSkip "missing.epub")
     (snd (Cli.filter_files Sample.host ["book.epub"; "missing.epub"])).
Proof.
  destruct (proj1 (every_candidate_accounted Sample.host
                     ["book.epub"; "missing.epub"]) "missing.epub"
              (or_intror (or_introl eq_refl)))
    as [H|[(H & _)|(H & _)]].
  - vm_compute in H. destruct H as [H|[]]. discriminate H.
  - vm_compute in H. destruct H as [H|[]]. discriminate H.
  - exact H.
Defined.

(** ** Reading the arguments piece by piece *)

Lemma parse_args_app_bounded (h : Host) (post : list string) :
  forall n pre epub_files margin_size epub_files' margin_size',
    List.length pre <= n ->
    Cli.parse_args h pre epub_files margin_size
    = Cli.Parsed epub_files' margin_size' ->
    Cli.parse_args h (pre ++ post) epub_files margin_size
    = Cli.parse_args h post epub_files' margin_size'
    /\ exists added, epub_files' = (epub_files ++ added)%list.
Proof.
  induction n as [|n IH]; intros pre f m f' m' Hlen.
  - destruct pre; [|cbn in Hlen; lia]. cbn [Cli.parse_args app].
    intros [= <- <-]. split; [reflexivity | exists []; now rewrite app_nil_r].
  - destruct pre as [|x pre].
    { cbn [Cli.parse_args app]. intros [= <- <-].
      split; [reflexivity | exists []; now rewrite app_nil_r]. }
    cbn [List.length] in Hlen. cbn [app Cli.parse_args].
    destruct (String.eqb x "--help" || String.eqb x "-h")%bool; [discriminate|].
    destruct (String.eqb x "--margin").
    + destruct pre as [|value pre]; [discriminate|]. cbn [app].
      destruct (py_int h value) as [k|]; [|discriminate].
      apply IH. cbn [List.length] in Hlen. lia.
    + destruct (String.eqb x "--all"); [apply IH; lia|].
      destruct (contains "*" x); intros Hp;
        (destruct (IH pre _ _ _ _ ltac:(lia) Hp) as [Heq [added ->]];
         split; [exact Heq|]; rewrite <- app_assoc; eexists; reflexivity).
Qed.

(** X7. The argument loop reads a list of arguments piece by piece: when
    a first part parses on its own, reading the whole list is reading
    the rest from the files and the margin the first part leaves, and
    the files collected so far are kept, in order, in front of what the
    first part adds.  So a help flag right after such a part ends the
    run with status 0, the usage being all that is printed, whatever
    follows it. *)
Theorem parse_args_compose (h : Host) (pre post : list string)
    (epub_files epub_files' : list string) (margin_size margin_size' : Z) :
  Cli.parse_args h pre epub_files margin_size
  = Cli.Parsed epub_files' margin_size' ->
  Cli.parse_args h (pre ++ post) epub_files margin_size
  = Cli.parse_args h post epub_files' margin_size'
  /\ (exists added, epub_files' = (epub_files ++ added)%list)
  /\ forall w argv0 flag,
       epub_files = [] -> margin_size = 20%Z ->
       flag = "--help" \/ flag = "-h" ->
       Cli.main h w (argv0 :: pre ++ flag :: post)
       = Cli.mk_outcome 0 [Cli.MsgUsage] w [].
Proof.
  intros Hp.
  destruct (parse_args_app_bounded h post (List.length pre) pre _ _ _ _
              (le_n _) Hp) as [H1 H2].
  split; [exact H1|]. split; [exact H2|].
  intros w argv0 flag -> -> Hflag. unfold Cli.main. cbn [tl].
  destruct (parse_args_app_bounded h (flag :: post) (List.length pre) pre _ _ _ _
              (le_n _) Hp) as [H3 _].
  rewrite H3. cbn [Cli.parse_args].
  destruct Hflag as [->| ->]; reflexivity.
Qed.

Lemma parse_args_compose_witness :
  Cli.main Sample.host Sample.disk
    ("modify_epub_margins.py" :: ["--margin"; "15"; "book.epub"]
       ++ "-h" :: ["--margin"; "abc"])
  = Cli.mk_outcome 0 [Cli.MsgUsage] Sample.disk [].
Proof.
  apply (proj2 (proj2 (parse_args_compose Sample.host
                         ["--margin"; "15"; "book.epub"] ["--margin"; "abc"]
                         [] ["book.epub"] 20%Z 15%Z eq_refl)));
    [reflexivity | reflexivity | now right].
Defined.

(** ** What the menus hand on *)

(** X8. The file menu never hands on a file that was not offered: its
    answer is the whole list, or one file of the list (a number out of
    range, or text that is no number, is asked again), and it has read
    at least one line. *)
Theorem ask_file_selection_in_range (h : Host) (epub_files stdin : list string)
    (selected rest : list string) :
  Interactive.ask_file_selection h epub_files stdin = Some (Some selected, rest) ->
  (selected = epub_files
   \/ exists i f, nth_error epub_files i = Some f /\ selected = [f])
  /\ (forall f, In f selected -> In f epub_files)
  /\ List.length rest < List.length stdin.
Proof.
  intros Hask.
  split; [|split; [|eapply ask_file_selection_shorter; eauto]].
  - revert Hask. induction stdin as [|line stdin IH]; cbn; [discriminate|].
    destruct (String.eqb _ "0"); [discriminate|].
    destruct (String.eqb _ _); [intros [= <- _]; now left|].
    destruct (py_int h _) as [n|]; [|exact IH].
    destruct ((0 <=? n - 1)%Z && (n - 1 <? Z.of_nat (List.length epub_files))%Z)%bool
      eqn:Hr; [|exact IH].
    intros [= <- _]. right.
    apply andb_true_iff in Hr as [H0 H1].
    apply Z.leb_le in H0. apply Z.ltb_lt in H1.
    exists (Z.to_nat (n - 1)), (nth (Z.to_nat (n - 1)) epub_files "").
    split; [|reflexivity]. apply nth_error_nth'. lia.
  - revert Hask. induction stdin as [|line stdin IH]; cbn; [discriminate|].
    destruct (String.eqb _ "0"); [discriminate|].
    destruct (String.eqb _ _); [intros [= <- _]; trivial|].
    destruct (py_int h _) as [n|]; [|exact IH].
    destruct ((0 <=? n - 1)%Z && (n - 1 <? Z.of_nat (List.length epub_files))%Z)%bool
      eqn:Hr; [|exact IH].
    intros [= <- _] f [<-|[]].
    apply andb_true_iff in Hr as [H0 H1].
    apply Z.leb_le in H0. apply Z.ltb_lt in H1.
    apply nth_In. lia.
Qed.

Lemma ask_file_selection_in_range_witness :
  Interactive.ask_file_selection Sample.host ["a.epub"; "b.epub"]
    ["7"; "x"; "2"; "y"] = Some (Some ["b.epub"], ["y"])
  /\ In "b.epub" ["a.epub"; "b.epub"].
Proof.
  split; [reflexivity|].
  apply (proj1 (proj2 (ask_file_selection_in_range Sample.host
                         ["a.epub"; "b.epub"] ["7"; "x"; "2"; "y"]
                         ["b.epub"] ["y"] eq_refl))).
  left. reflexivity.
Defined.

(** ** What a pass through the menu does *)

Lemma interactive_batch_nil (h : Host) (mt : string) (margin_size : Z)
    (mode : string) (dir : option ppath) (st : Interactive.batch_state) :
  Interactive.batch h mt margin_size mode dir [] st = st.
Proof. reflexivity. Qed.

(** A pass either calls [process_epub] on no file, and then leaves the
    file system as it was but for the folder [books-upgrade], or it
    runs the batch loop on files of the list, in one of the two output
    modes. *)
Lemma iteration_shape (h : Host) (epub_files : list string) (w : fs)
    (stdin : list string) :
  exists w1 pre,
    (w1 = w \/ (fs_lookup w books_upgrade = None
                /\ w1 = (books_upgrade, Directory) :: w))
    /\ (pre = [Interactive.AtMenu]
        \/ exists answer, pre = [Interactive.AtMenu;
                                  Interactive.AnsweredOverwrite answer])
    /\ ((step_fs (Interactive.iteration h epub_files w stdin) = w1
         /\ step_trace (Interactive.iteration h epub_files w stdin) = pre)
        \/ exists mt margin_size mode dir selected,
             (mode = "folder" \/ mode = "replace")
             /\ (forall f, In f selected -> In f epub_files)
             /\ step_fs (Interactive.iteration h epub_files w stdin)
                = Interactive.b_fs
                    (Interactive.batch h mt margin_size mode dir selected
                       (Interactive.mk_batch w1 0 pre))
             /\ step_trace (Interactive.iteration h epub_files w stdin)
                = Interactive.b_trace
                    (Interactive.batch h mt margin_size mode dir selected
                       (Interactive.mk_batch w1 0 pre))).
Proof.
  unfold Interactive.iteration.
  destruct (Interactive.ask_modification_type h stdin) as [[[mt|] in1]|];
    [| exists w, [Interactive.AtMenu]; cbn; tauto
     | exists w, [Interactive.AtMenu]; cbn; tauto].
  destruct (if (String.eqb mt "margins" || String.eqb mt "both")%bool
            then Interactive.ask_margin_size h in1 else Some (20%Z, in1))
    as [[margin_size in2]|];
    [| exists w, [Interactive.AtMenu]; cbn; tauto].
  destruct (Interactive.ask_output_mode h in2) as [[[mode|] in3]|] eqn:H3;
    [| exists w, [Interactive.AtMenu]; cbn; tauto
     | exists w, [Interactive.AtMenu]; cbn; tauto].
  pose proof (ask_output_mode_values _ _ _ _ H3) as Hmode.
  assert (Hrest :
    forall in4 pre,
      (pre = [Interactive.AtMenu]
       \/ exists answer, pre = [Interactive.AtMenu;
                                 Interactive.AnsweredOverwrite answer]) ->
      exists w1 pre',
        (w1 = w \/ (fs_lookup w books_upgrade = None
                    /\ w1 = (books_upgrade, Directory) :: w))
        /\ (pre' = [Interactive.AtMenu]
            \/ exists answer, pre' = [Interactive.AtMenu;
                                       Interactive.AnsweredOverwrite answer])
        /\ forall s,
             s = match
                   (if String.eqb mode "folder"
                    then match Interactive.mkdir_output_dir h w
                                 (parse_path "books-upgrade") with
                         | Ok w1 => Ok (Some (parse_path "books-upgrade"), w1)
                         | Raise e => Raise e
                         end
                    else Ok (None, w))
                 with
                 | Raise e => Interactive.Uncaught e w pre
                 | Ok (output_dir, w1) =>
                     match Interactive.ask_file_selection h epub_files in4 with
                     | None => Interactive.Uncaught EOFError w1 pre
                     | Some (None, in5) => Interactive.Continue w1 in5 pre
                     | Some (Some selected_files, in5) =>
                         match in5 with
                         | [] => Interactive.Uncaught EOFError w1 pre
                         | confirm :: in6 =>
                             if negb (Interactive.says_yes h confirm)
                             then Interactive.Continue w1 in6 pre
                             else
                               let st :=
                                 Interactive.batch h mt margin_size mode
                                   output_dir selected_files
                                   (Interactive.mk_batch w1 0 pre) in
                               match in6 with
                               | [] =>
                                   Interactive.Uncaught EOFError
                                     (Interactive.b_fs st) (Interactive.b_trace st)
                               | another :: in7 =>
                                   if negb (Interactive.says_yes h another)
                                   then Interactive.Break (Interactive.b_fs st)
                                          (Interactive.b_trace st)
                                   else Interactive.Continue (Interactive.b_fs st)
                                          in7 (Interactive.b_trace st)
                               end
                         end
                     end
                 end ->
             (step_fs s = w1 /\ step_trace s = pre')
             \/ exists mt margin_size mode dir selected,
                  (mode = "folder" \/ mode = "replace")
                  /\ (forall f, In f selected -> In f epub_files)
                  /\ step_fs s
                     = Interactive.b_fs
                         (Interactive.batch h mt margin_size mode dir selected
                            (Interactive.mk_batch w1 0 pre'))
                  /\ step_trace s
                     = Interactive.b_trace
                         (Interactive.batch h mt margin_size mode dir selected
                            (Interactive.mk_batch w1 0 pre'))).
  { intros in4 pre Hpre.
    assert (Hdir : exists r,
               r = (if String.eqb mode "folder"
                    then match Interactive.mkdir_output_dir h w
                                 (parse_path "books-upgrade") with
                         | Ok w1 => Ok (Some (parse_path "books-upgrade"), w1)
                         | Raise e => Raise e
                         end
                    else Ok (None, w))
               /\ match r with
                  | Ok (_, w1) =>
                      w1 = w \/ (fs_lookup w books_upgrade = None
                                 /\ w1 = (books_upgrade, Directory) :: w)
                  | Raise _ => True
                  end).
    { eexists. split; [reflexivity|].
      destruct (String.eqb mode "folder"); [|now left].
      unfold Interactive.mkdir_output_dir. fold books_upgrade.
      destruct (fs_lookup w books_upgrade) as [[x|x|]|]; try exact I; [now left|].
      destruct (writable h books_upgrade); [right; now split | exact I]. }
    destruct Hdir as (r & Hr & Hw1). rewrite <- Hr.
    destruct r as [[dir w1]|err].
    - exists w1, pre. split; [exact Hw1|]. split; [exact Hpre|].
      intros s ->.
      destruct (Interactive.ask_file_selection h epub_files in4)
        as [[[selected|] in5]|] eqn:H5; [| left; now split | left; now split].
      destruct (ask_file_selection_in_range _ _ _ _ _ H5) as (_ & Hsel & _).
      destruct in5 as [|confirm in6]; [left; now split|].
      destruct (negb (Interactive.says_yes h confirm)); [left; now split|].
      cbv zeta.
      destruct in6 as [|another in7];
        [| destruct (negb (Interactive.says_yes h another))];
        right; exists mt, margin_size, mode, dir, selected;
        (split; [exact Hmode|]); (split; [exact Hsel|]); split; reflexivity.
    - exists w, pre. split; [now left|]. split; [exact Hpre|].
      intros s ->. left. now split. }
  destruct (String.eqb mode "replace").
  - destruct in3 as [|answer in4]; [exists w, [Interactive.AtMenu]; cbn; tauto|].
    destruct (negb (Interactive.confirms_replace h answer)).
    + exists w, [Interactive.AtMenu; Interactive.AnsweredOverwrite answer].
      split; [now left|]. split; [right; now exists answer|]. left. now split.
    + destruct (Hrest in4 [Interactive.AtMenu; Interactive.AnsweredOverwrite answer])
        as (w1 & pre' & Hw1 & Hpre' & Hs); [right; now exists answer|].
      exists w1, pre'. split; [exact Hw1|]. split; [exact Hpre'|].
      apply Hs. reflexivity.
  - destruct (Hrest in3 [Interactive.AtMenu]) as (w1 & pre' & Hw1 & Hpre' & Hs);
      [now left|].
    exists w1, pre'. split; [exact Hw1|]. split; [exact Hpre'|].
    apply Hs. reflexivity.
Qed.

Lemma main_loop_keeps_trace (h : Host) (epub_files : list string) :
  forall fuel w stdin tr ev,
    In ev tr ->
    In ev (Interactive.trace (Interactive.main_loop fuel h epub_files w stdin tr)).
Proof.
  induction fuel as [|fuel IH]; intros w stdin tr ev Hin;
    cbn [Interactive.main_loop]; [exact Hin|].
  destruct (Interactive.iteration h epub_files w stdin);
    cbn [Interactive.trace]; try (apply in_or_app; now left).
  apply IH. apply in_or_app. now left.
Qed.

Lemma iteration_processing (h : Host) (epub_files : list string) (w : fs)
    (stdin : list string) (f mode : string) :
  In (Interactive.Processing f mode)
     (step_trace (Interactive.iteration h epub_files w stdin)) ->
  In f epub_files /\ (mode = "folder" \/ mode = "replace").
Proof.
  destruct (iteration_shape h epub_files w stdin)
    as (w1 & pre & _ & Hpre & [[_ ->]|(mt & m & mode' & dir & sel & Hmode & Hsel & _ & ->)]).
  - destruct Hpre as [->|[a ->]]; cbn; intros H;
      repeat (destruct H as [H|H]; [discriminate|]); contradiction.
  - rewrite interactive_batch_trace. cbn [Interactive.b_trace].
    intros H. apply in_app_or in H as [H|H].
    + destruct Hpre as [->|[a ->]]; cbn in H;
        repeat (destruct H as [H|H]; [discriminate|]); contradiction.
    + apply in_map_iff in H as (g & [= <- <-] & Hg). split; [now apply Hsel | exact Hmode].
Qed.

Lemma main_loop_processing (h : Host) (epub_files : list string)
    (f mode : string) :
  forall fuel w stdin tr,
    In (Interactive.Processing f mode)
       (Interactive.trace (Interactive.main_loop fuel h epub_files w stdin tr)) ->
    In (Interactive.Processing f mode) tr
    \/ (In f epub_files /\ (mode = "folder" \/ mode = "replace")).
Proof.
  induction fuel as [|fuel IH]; intros w stdin tr; cbn [Interactive.main_loop];
    [now left|].
  pose proof (iteration_processing h epub_files w stdin f mode) as Hstep.
  destruct (Interactive.iteration h epub_files w stdin) as [w' tr'|e w' tr'|w' in' tr'];
    cbn [Interactive.trace step_trace] in *.
  - intros H. apply in_app_or in H as [H|H]; [now left | right; now apply Hstep].
  - intros H. apply in_app_or in H as [H|H]; [now left | right; now apply Hstep].
  - intros H. apply IH in H as [H|H]; [|now right].
    apply in_app_or in H as [H|H]; [now left | right; now apply Hstep].
Qed.

(** X9. Whatever the user types, the interactive tool calls
    [process_epub] only on files its scan found when it started -- so
    never on a file whose name contains one of the four output markers
    -- and only in the output modes [folder] and [replace]. *)
Theorem interactive_processes_found_files (h : Host) (w : fs)
    (stdin : list string) (f mode : string) :
  In (Interactive.Processing f mode)
     (Interactive.trace (Interactive.main h w stdin)) ->
  In f (Interactive.get_epub_files h)
  /\ (mode = "folder" \/ mode = "replace")
  /\ forall marker, In marker Interactive.output_markers ->
                    contains marker f = false.
Proof.
  unfold Interactive.main.
  destruct (Interactive.get_epub_files h) as [|x l] eqn:Hfiles; [intros []|].
  intros H. apply main_loop_processing in H as [[]|[Hin Hmode]].
  rewrite <- Hfiles in *. split; [exact Hin|]. split; [exact Hmode|].
  now apply (proj1 (interactive_get_epub_files_spec h f) Hin).
Qed.

Lemma interactive_processes_found_files_witness :
  In "book.epub" (Interactive.get_epub_files Sample.host).
Proof.
  apply (interactive_processes_found_files Sample.host Sample.disk
           ["2"; "1"; "1"; "y"; "n"] "book.epub" "folder").
  vm_compute. right. left. reflexivity.
Defined.

Lemma main_loop_idle (h : Host) (epub_files : list string) (w : fs) :
  forall fuel w0 stdin tr,
    (w0 = w \/ (fs_lookup w books_upgrade = None
                /\ w0 = (books_upgrade, Directory) :: w)) ->
    (forall f mode,
       ~ In (Interactive.Processing f mode)
            (Interactive.trace
               (Interactive.main_loop fuel h epub_files w0 stdin tr))) ->
    Interactive.final_fs (Interactive.main_loop fuel h epub_files w0 stdin tr) = w
    \/ (fs_lookup w books_upgrade = None
        /\ Interactive.final_fs
             (Interactive.main_loop fuel h epub_files w0 stdin tr)
           = (books_upgrade, Directory) :: w).
Proof.
  induction fuel as [|fuel IH]; intros w0 stdin tr Hw0;
    cbn [Interactive.main_loop]; [intros _; exact Hw0|].
  intros Hidle.
  assert (Hstep : step_fs (Interactive.iteration h epub_files w0 stdin) = w
                  \/ (fs_lookup w books_upgrade = None
                      /\ step_fs (Interactive.iteration h epub_files w0 stdin)
                         = (books_upgrade, Directory) :: w)).
  { destruct (iteration_shape h epub_files w0 stdin)
      as (w1 & pre & Hw1 & Hpre & Hcase).
    assert (Hw1' : w1 = w \/ (fs_lookup w books_upgrade = None
                              /\ w1 = (books_upgrade, Directory) :: w)).
    { destruct Hw1 as [->|[Hnone ->]]; [exact Hw0|].
      destruct Hw0 as [->|[Hn ->]]; [right; now split|].
      cbn [fs_lookup] in Hnone. rewrite ppath_eqb_refl in Hnone. discriminate. }
    destruct Hcase as [[-> _]|(mt & m & mode & dir & sel & _ & _ & Hfs & Htr)];
      [exact Hw1'|].
    destruct sel as [|g sel].
    - rewrite Hfs. exact Hw1'.
    - exfalso. apply (Hidle g mode).
      assert (Hin : In (Interactive.Processing g mode)
                       (step_trace (Interactive.iteration h epub_files w0 stdin))).
      { rewrite Htr, interactive_batch_trace. apply in_or_app. right. now left. }
      destruct (Interactive.iteration h epub_files w0 stdin) as [w' tr'|e w' tr'|w' in' tr'];
        cbn [Interactive.trace step_trace] in *;
        try (apply in_or_app; now right).
      apply main_loop_keeps_trace. apply in_or_app. now right. }
  destruct (Interactive.iteration h epub_files w0 stdin) as [w' tr'|e w' tr'|w' in' tr'];
    cbn [Interactive.final_fs step_fs] in *; try exact Hstep.
  apply IH; [exact Hstep | exact Hidle].
Qed.

(** X10. A run of the interactive tool in which [process_epub] is never
    called -- the user leaves, backs out of a menu, declines a
    confirmation, or the input ends -- changes nothing on the host but,
    at most, creating the folder [books-upgrade]. *)
Theorem interactive_idle_run_keeps_files (h : Host) (w : fs)
    (stdin : list string) :
  (forall f mode,
     ~ In (Interactive.Processing f mode)
          (Interactive.trace (Interactive.main h w stdin))) ->
  Interactive.final_fs (Interactive.main h w stdin) = w
  \/ (fs_lookup w books_upgrade = None
      /\ Interactive.final_fs (Interactive.main h w stdin)
         = (books_upgrade, Directory) :: w).
Proof.
  unfold Interactive.main.
  destruct (Interactive.get_epub_files h) as [|x l]; [intros _; now left|].
  apply main_loop_idle. now left.
Qed.

Lemma interactive_idle_run_keeps_files_witness :
  Interactive.final_fs
    (Interactive.main Sample.host Sample.disk ["1"; ""; "1"; "0"; "0"])
  = (books_upgrade, Directory) :: Sample.disk.
Proof.
  destruct (interactive_idle_run_keeps_files Sample.host Sample.disk
              ["1"; ""; "1"; "0"; "0"]) as [H|[_ H]].
  - intros f mode H. vm_compute in H.
    repeat (destruct H as [H|H]; [discriminate H|]). exact H.
  - vm_compute in H. discriminate H.
  - exact H.
Defined.

(** ** The folder [books-upgrade] *)

(** X11. When the user picks the output mode [folder] and
    [books-upgrade] is there but is no directory, making the folder
    raises [FileExistsError], which nothing catches: the run ends there,
    with no file processed and the file system as it was. *)
Theorem folder_mode_dies_on_a_file (h : Host) (w : fs) (stdin : list string)
    (modification_type : string) (in1 : list string) (margin_size : Z)
    (in2 in3 : list string) (c : fcontent) :
  Interactive.get_epub_files h <> [] ->
  Interactive.ask_modification_type h stdin
  = Some (Some modification_type, in1) ->
  (if (String.eqb modification_type "margins"
       || String.eqb modification_type "both")%bool
   then Interactive.ask_margin_size h in1 else Some (20%Z, in1))
  = Some (margin_size, in2) ->
  Interactive.ask_output_mode h in2 = Some (Some "folder", in3) ->
  fs_lookup w books_upgrade = Some c -> c <> Directory ->
  Interactive.main h w stdin
  = Interactive.mk_outcome (Interactive.Died FileExistsError) w
      [Interactive.AtMenu].
Proof.
  intros Hfiles H1 H2 H3 Hc Hnd. unfold Interactive.main.
  destruct (Interactive.get_epub_files h) as [|x l]; [contradiction|].
  cbn [Interactive.main_loop]. unfold Interactive.iteration.
  rewrite H1, H2, H3. cbn [String.eqb Ascii.eqb Bool.eqb].
  unfold Interactive.mkdir_output_dir. fold books_upgrade. rewrite Hc.
  destruct c; [reflexivity | reflexivity | contradiction].
Qed.

Lemma folder_mode_dies_on_a_file_witness :
  Interactive.main Sample.host
    ((books_upgrade, RawData "notes") :: Sample.disk) ["2"; "1"; "1"; "y"]
  = Interactive.mk_outcome (Interactive.Died FileExistsError)
      ((books_upgrade, RawData "notes") :: Sample.disk) [Interactive.AtMenu].
Proof.
  apply (folder_mode_dies_on_a_file Sample.host
           ((books_upgrade, RawData "notes") :: Sample.disk)
           ["2"; "1"; "1"; "y"] "hyphens" ["1"; "1"; "y"] 20%Z
           ["1"; "1"; "y"] ["1"; "y"] (RawData "notes"));
    solve [reflexivity | vm_compute; discriminate | discriminate].
Defined.

(** X12. For a plain file name, as the scan gives them, the output mode
    [folder] writes to [books-upgrade/<name>], which is not the input:
    a call of [process_epub] that returns leaves the input file as it
    was. *)
Theorem folder_mode_keeps_source (h : Host) (w w' : fs) (epub_path : string)
    (modification_type : string) (margin_size : Z) :
  ~ In "/"%char (list_ascii_of_string epub_path) ->
  epub_path <> "" -> epub_path <> "." ->
  Interactive.output_path_of (parse_path epub_path) "folder" (Some books_upgrade)
  = Some (mk_ppath "" ["books-upgrade"; epub_path])
  /\ (Interactive.process_epub h w epub_path modification_type margin_size
        "folder" (Some books_upgrade) = Ok w' ->
      fs_lookup w' (mk_ppath "" ["books-upgrade"; epub_path])
      <> None
      /\ fs_lookup w' (parse_path epub_path) = fs_lookup w (parse_path epub_path)).
Proof.
  intros Hno H1 H2.
  assert (Hparse : parse_path epub_path = mk_ppath "" [epub_path])
    by now apply parse_path_single.
  assert (Hout : Interactive.output_path_of (parse_path epub_path) "folder"
                   (Some books_upgrade)
                 = Some (mk_ppath "" ["books-upgrade"; epub_path])).
  { unfold Interactive.output_path_of. cbn [String.eqb Ascii.eqb Bool.eqb].
    rewrite Hparse. unfold p_join, p_name. cbn [p_parts last].
    rewrite parse_path_single by assumption. reflexivity. }
  split; [exact Hout|].
  intros Hp.
  apply interactive_process_epub_writes in Hp
    as (dst & css & a & out & Hd & _ & _ & ->).
  rewrite Hout in Hd. injection Hd as <-.
  cbn [fs_lookup]. rewrite ppath_eqb_refl. split; [discriminate|].
  rewrite Hparse.
  destruct (ppath_eqb (mk_ppath "" ["books-upgrade"; epub_path])
              (mk_ppath "" [epub_path])) eqn:E; [|reflexivity].
  apply ppath_eqb_eq in E. discriminate.
Qed.

Lemma folder_mode_keeps_source_witness :
  Interactive.output_path_of (parse_path "book.epub") "folder" (Some books_upgrade)
  = Some (mk_ppath "" ["books-upgrade"; "book.epub"]).
Proof.
  apply (proj1 (folder_mode_keeps_source Sample.host Sample.disk Sample.disk
                  "book.epub" "both" 20%Z
                  ltac:(cbn; intros H;
                        repeat (destruct H as [H|H]; [discriminate H|]);
                        exact H)
                  ltac:(discriminate) ltac:(discriminate))).
Defined.

(** ** Sizes below zero *)

Lemma py_str_int_negative (n : Z) :
  (n < 0)%Z -> py_str_int n = "-" ++ py_str_int (- n).
Proof.
  destruct n as [|p|p]; [lia | lia | intros _; reflexivity].
Qed.

(** X13. No range check guards the margin size: for a size below zero
    the fragment is written all the same, and since the template puts
    its own minus sign before the number, the two margin values read
    [--<k>px] for the size [-k]. *)
Theorem negative_margin_doubles_sign (margin_size : Z) :
  (margin_size < 0)%Z ->
  py_str_int margin_size = "-" ++ py_str_int (- margin_size)
  /\ contains ("margin-left: --" ++ py_str_int (- margin_size) ++ "px !important;")
       (get_margin_css margin_size) = true
  /\ contains ("margin-right: --" ++ py_str_int (- margin_size) ++ "px !important;")
       (get_margin_css margin_size) = true.
Proof.
  intros Hneg. pose proof (py_str_int_negative margin_size Hneg) as Hs.
  split; [exact Hs|].
  unfold get_margin_css. rewrite Hs.
  split; apply contains_spec.
  - exists "
/* Уменьшенные поля для Kindle */
html, body {
    ".
    exists ("
    margin-right: --" ++ py_str_int (- margin_size) ++ "px !important;
    padding: 0 !important;
}
").
    string_normalize. reflexivity.
  - exists ("
/* Уменьшенные поля для Kindle */
html, body {
    margin-left: --" ++ py_str_int (- margin_size) ++ "px !important;
    ").
    exists "
    padding: 0 !important;
}
".
    string_normalize. reflexivity.
Qed.

Lemma negative_margin_doubles_sign_witness :
  contains "margin-left: --5px !important;" (get_margin_css (-5)) = true.
Proof.
  apply (proj1 (proj2 (negative_margin_doubles_sign (-5)%Z ltac:(lia)))).
Defined.

(** ** Joining and splitting paths *)

Lemma split_path_slash (x s : string) :
  ~ In "/"%char (list_ascii_of_string x) ->
  split_path (x ++ "/" ++ s) = x :: split_path s.
Proof.
  induction x as [|c x IH]; cbn [append list_ascii_of_string In].
  - intros _. reflexivity.
  - intros Hno. cbn [split_path].
    destruct (Ascii.eqb_spec c "/") as [->|Hc]; [exfalso; apply Hno; now left|].
    change (x ++ String "/" s) with (x ++ "/" ++ s).
    rewrite IH; [reflexivity|]. intros H. apply Hno. now right.
Qed.

Lemma split_join_path (l : list string) :
  l <> [] ->
  Forall (fun c => ~ In "/"%char (list_ascii_of_string c)) l ->
  split_path (join_path l) = l.
Proof.
  unfold join_path. induction l as [|x l IH]; [contradiction|]. intros _ Hall.
  inversion Hall as [|? ? Hx Hl]; subst.
  destruct l as [|y l].
  - cbn [String.concat]. now apply split_path_single.
  - change (String.concat "/" (x :: y :: l))
      with (x ++ "/" ++ String.concat "/" (y :: l)).
    rewrite split_path_slash by exact Hx. f_equal.
    apply IH; [discriminate | exact Hl].
Qed.

Lemma plain_parts_no_slash (l : list string) :
  Forall plain_part l ->
  Forall (fun c => ~ In "/"%char (list_ascii_of_string c)) l.
Proof. apply Forall_impl. intros c [_ H]. exact H. Qed.

Lemma filter_plain (l : list string) :
  Forall plain_part l ->
  filter (fun c => negb (invalid_path_part c)) l = l.
Proof.
  induction l as [|x l IH]; [reflexivity|]. intros Hall.
  inversion Hall as [|? ? [Hx _] Hl]; subst. cbn [filter].
  now rewrite Hx, IH.
Qed.

Lemma member_parts_join (l : list string) :
  l <> [] -> Forall plain_part l -> member_parts (join_path l) = l.
Proof.
  intros Hne Hall. unfold member_parts.
  rewrite split_join_path; [now apply filter_plain | exact Hne|].
  now apply plain_parts_no_slash.
Qed.

Lemma member_parts_plain (name : string) :
  Forall plain_part (member_parts name).
Proof.
  unfold member_parts. apply Forall_forall. intros c Hc.
  apply filter_In in Hc as [Hin Hv]. split.
  - now apply negb_true_iff.
  - pose proof (split_path_no_slash name) as Hall.
    rewrite Forall_forall in Hall. now apply Hall.
Qed.

Lemma string_last_char (s : string) :
  s <> "" -> exists a c, s = a ++ String c "".
Proof.
  induction s as [|x s IH]; [contradiction|]. intros _.
  destruct s as [|y s].
  - now exists "", x.
  - destruct (IH ltac:(discriminate)) as (a & c & Ha).
    exists (String x a), c. cbn [append]. now rewrite Ha.
Qed.

Lemma in_last_char (a : string) (c : ascii) :
  In c (list_ascii_of_string (a ++ String c "")).
Proof.
  induction a as [|x a IH]; cbn; [now left | now right].
Qed.

Lemma member_is_dir_join (l : list string) :
  l <> [] -> Forall plain_part l -> member_is_dir (join_path l) = false.
Proof.
  intros Hne Hall. unfold member_is_dir.
  destruct (endswith (join_path l) "/") eqn:He; [|reflexivity]. exfalso.
  apply endswith_spec in He as [a Ha].
  pose proof (split_join_path l Hne (plain_parts_no_slash l Hall)) as Hsplit.
  assert (Hlast : In (last l "") l).
  { rewrite (app_removelast_last "" Hne) at 2. apply in_or_app. right. now left. }
  rewrite Forall_forall in Hall. destruct (Hall _ Hlast) as [Hv Hno].
  assert (Hx : last l "" <> "").
  { intros E. rewrite E in Hv. discriminate. }
  destruct (string_last_char _ Hx) as (b & c & Hb).
  assert (Hc : c <> "/"%char).
  { intros ->. apply Hno. rewrite Hb. apply in_last_char. }
  destruct (split_path_last (join_path l)) as [H|[a' H]];
    rewrite Hsplit, Hb in H; rewrite Ha in H.
  - change (a ++ "/") with (a ++ String "/" "") in H.
    apply append_last_char in H. congruence.
  - change (a ++ "/") with (a ++ String "/" "") in H.
    replace (a' ++ "/" ++ b ++ String c "")
      with ((a' ++ "/" ++ b) ++ String c "") in H
      by (now rewrite !append_assoc).
    apply append_last_char in H. congruence.
Qed.

(** ** Extraction builds a well-formed directory *)

Lemma t_lookup_none_keys (t : tree) (p : string) :
  t_lookup t p = None <-> ~ In p (map fst t).
Proof.
  induction t as [|[q n] t IH]; cbn [t_lookup map fst In]; [tauto|].
  destruct (String.eqb_spec q p) as [->|Hne].
  - split; [discriminate | intros H; exfalso; apply H; now left].
  - rewrite IH. tauto.
Qed.

Lemma t_set_keys (t : tree) (p q : string) (n : node) :
  In q (map fst (t_set t p n)) <-> q = p \/ In q (map fst t).
Proof.
  induction t as [|[r m] t IH]; cbn [t_set map fst In].
  - intuition congruence.
  - destruct (String.eqb_spec r p) as [->|Hne]; cbn [map fst In].
    + intuition congruence.
    + rewrite IH. tauto.
Qed.

Lemma t_set_nodup (t : tree) (p : string) (n : node) :
  NoDup (map fst t) -> NoDup (map fst (t_set t p n)).
Proof.
  induction t as [|[r m] t IH]; cbn [t_set map fst]; intros Hnd.
  - constructor; [intros [] | constructor].
  - inversion Hnd as [|? ? Hr Ht]; subst.
    destruct (String.eqb_spec r p) as [->|Hne]; cbn [map fst].
    + now constructor.
    + constructor; [|now apply IH].
      rewrite t_set_keys. intros [H|H]; [congruence | contradiction].
Qed.

Lemma key_ok_mono (t t' : tree) (p : string) :
  (forall q, t_lookup t q = Some Dir -> t_lookup t' q = Some Dir) ->
  key_ok t p -> key_ok t' p.
Proof.
  intros Hmono (H1 & H2 & H3 & H4 & H5). repeat split; try assumption.
  intros d Hd. apply Hmono. now apply H5.
Qed.

(** Putting a node at a well-formed path that holds no directory keeps
    the directory well-formed. *)
Lemma t_set_ok (t : tree) (p : string) (n : node) :
  tree_ok t -> t_lookup t p <> Some Dir -> key_ok t p ->
  tree_ok (t_set t p n).
Proof.
  intros [Hnd Hkeys] Hp Hkey.
  assert (Hmono : forall q, t_lookup t q = Some Dir ->
                            t_lookup (t_set t p n) q = Some Dir).
  { intros q Hq. rewrite t_lookup_set_other; [exact Hq|]. intros ->. contradiction. }
  split; [now apply t_set_nodup|].
  intros q m Hq. destruct (string_dec q p) as [->|Hne].
  - eapply key_ok_mono; eauto.
  - rewrite t_lookup_set_other in Hq by exact Hne.
    eapply key_ok_mono; eauto.
Qed.

Lemma prefixes_from_snoc (rest : list string) :
  forall done c,
    prefixes_from done (rest ++ [c])
    = (prefixes_from done rest ++ [(done ++ rest ++ [c])%list])%list.
Proof.
  induction rest as [|x rest IH]; intros done c; cbn [app prefixes_from].
  - reflexivity.
  - rewrite IH. now rewrite <- !app_assoc.
Qed.

Lemma new_dir_key_ok (t : tree) (done : list string) (c : string) :
  Forall plain_part (done ++ [c]) ->
  (forall d, In d (prefixes_from [] done) -> t_lookup t (join_path d) = Some Dir) ->
  key_ok t (join_path (done ++ [c])).
Proof.
  intros Hplain Hanc.
  assert (Hne : (done ++ [c])%list <> []) by (destruct done; discriminate).
  unfold key_ok. rewrite member_parts_join by assumption.
  split; [exact Hne|]. split; [exact Hplain|]. split; [reflexivity|].
  split; [now apply member_is_dir_join|].
  rewrite removelast_last. exact Hanc.
Qed.

Lemma makedirs_from_ok (rest : list string) :
  forall t done t',
    tree_ok t ->
    Forall plain_part (done ++ rest) ->
    (forall d, In d (prefixes_from [] done) ->
               t_lookup t (join_path d) = Some Dir) ->
    makedirs_from t done rest = Ok t' ->
    tree_ok t'
    /\ forall d, In d (prefixes_from [] (done ++ rest)) ->
                 t_lookup t' (join_path d) = Some Dir.
Proof.
  induction rest as [|c rest IH]; intros t done t' Hok Hplain Hanc;
    cbn [makedirs_from].
  - intros [= <-]. rewrite app_nil_r. now split.
  - assert (Hplain' : Forall plain_part ((done ++ [c]) ++ rest))
      by (now rewrite <- app_assoc).
    assert (Hpc : Forall plain_part (done ++ [c])).
    { apply Forall_app in Hplain as [Hd Hr]. inversion Hr; subst.
      apply Forall_app. split; [exact Hd | now constructor]. }
    replace (done ++ c :: rest)%list with ((done ++ [c]) ++ rest)%list
      by (now rewrite <- app_assoc).
    destruct (t_lookup t (join_path (done ++ [c]))) as [[x|]|] eqn:E.
    + destruct rest; discriminate.
    + apply IH; [exact Hok | exact Hplain'|].
      intros d Hd. rewrite prefixes_from_snoc in Hd. cbn [app] in Hd. apply in_app_or in Hd as [Hd|[<-|[]]];
        [now apply Hanc | exact E].
    + assert (Hkey : key_ok t (join_path (done ++ [c])))
        by now apply new_dir_key_ok.
      apply IH; [apply t_set_ok; [exact Hok | congruence | exact Hkey]
                | exact Hplain'|].
      intros d Hd. rewrite prefixes_from_snoc in Hd. cbn [app] in Hd. apply in_app_or in Hd as [Hd|[<-|[]]].
      * rewrite t_lookup_set_other; [now apply Hanc|].
        intros Heq. rewrite <- Heq in E. rewrite (Hanc d Hd) in E. discriminate.
      * apply t_lookup_set_same.
Qed.

Lemma Forall_removelast {A} (P : A -> Prop) (l : list A) :
  Forall P l -> Forall P (removelast l).
Proof.
  induction l as [|x l IH]; [trivial|]. intros H. inversion H; subst.
  destruct l as [|y l]; [constructor|].
  change (removelast (x :: y :: l)) with (x :: removelast (y :: l)).
  constructor; [assumption | now apply IH].
Qed.

Lemma target_key_ok (t : tree) (name : string) :
  member_parts name <> [] ->
  (forall d, In d (prefixes_from [] (removelast (member_parts name))) ->
             t_lookup t (join_path d) = Some Dir) ->
  key_ok t (join_path (member_parts name)).
Proof.
  intros Hne Hanc. pose proof (member_parts_plain name) as Hplain.
  unfold key_ok. rewrite member_parts_join by assumption.
  split; [exact Hne|]. split; [exact Hplain|]. split; [reflexivity|].
  split; [now apply member_is_dir_join | exact Hanc].
Qed.

Lemma extract_member_ok (t t' : tree) (e : entry) :
  tree_ok t -> extract_member t e = Ok t' -> tree_ok t'.
Proof.
  intros Hok. unfold extract_member, make_upperdirs.
  destruct (member_parts (e_name e)) as [|c parts] eqn:Hparts.
  - destruct (member_is_dir (e_name e)); [now intros [= <-] | discriminate].
  - destruct (makedirs t (removelast (c :: parts))) as [t1|err] eqn:Hm;
      [|discriminate].
    cbn [bind].
    pose proof (member_parts_plain (e_name e)) as Hplain. rewrite Hparts in Hplain.
    destruct (makedirs_from_ok _ _ _ _ Hok
                (Forall_removelast _ _ Hplain : Forall plain_part ([] ++ _))
                (fun d (H : In d []) => match H with end) Hm) as [Hok1 Hanc].
    cbn [app] in Hanc.
    assert (Hkey : key_ok t1 (join_path (c :: parts))).
    { rewrite <- Hparts. apply target_key_ok; rewrite Hparts;
        [discriminate | exact Hanc]. }
    destruct (member_is_dir (e_name e)).
    + destruct (t_lookup t1 (join_path (c :: parts))) as [[x|]|] eqn:E;
        try discriminate; intros [= <-]; [exact Hok1|].
      apply t_set_ok; [exact Hok1 | congruence | exact Hkey].
    + unfold write_file.
      destruct (t_lookup t1 (join_path (c :: parts))) as [[x|]|] eqn:E;
        try discriminate; intros [= <-];
        (apply t_set_ok; [exact Hok1 | congruence | exact Hkey]).
Qed.

Lemma extract_members_ok (a : archive) :
  forall t t', tree_ok t -> extract_members t a = Ok t' -> tree_ok t'.
Proof.
  induction a as [|e a IH]; intros t t' Hok; cbn [extract_members].
  - now intros [= <-].
  - destruct (extract_member t e) as [t1|err] eqn:He; [|discriminate].
    cbn [bind]. apply IH. eapply extract_member_ok; eauto.
Qed.

Lemma tree_ok_nil : tree_ok [].
Proof. split; [constructor | intros p n H; discriminate]. Qed.

Lemma find_ext_eq {A} (f g : A -> bool) (l : list A) :
  (forall x, In x l -> f x = g x) -> find f l = find g l.
Proof.
  induction l as [|x l IH]; [reflexivity|]. intros H. cbn [find].
  rewrite (H x (or_introl eq_refl)), IH; [reflexivity|].
  intros y Hy. apply H. now right.
Qed.

Lemma t_exists_set_existing (t : tree) (q p : string) (n : node) :
  t_exists t q = true -> t_exists (t_set t q n) p = t_exists t p.
Proof.
  unfold t_exists. intros Hq. destruct (string_dec p q) as [->|Hne].
  - rewrite t_lookup_set_same. exact (eq_sym Hq).
  - now rewrite t_lookup_set_other.
Qed.

(** What [transform] does, from the inside: the new archive is built
    from a well-formed directory in which the stylesheet found first is
    the one that was appended to. *)
Lemma transform_inv (h : Host) (css_content : string) (a out : archive) :
  transform h css_content a = Ok out ->
  exists t2 css_file orig,
    out = build_archive h t2
    /\ tree_ok t2
    /\ In css_file possible_paths
    /\ t_lookup t2 css_file = Some (File (orig ++ css_content))
    /\ find_css_file t2 = Some css_file
    /\ exists t0 t1,
         extractall a = Ok t0 /\ resolve_css_file t0 = Ok (css_file, t1)
         /\ t_lookup t1 css_file = Some (File orig)
         /\ t2 = t_set t1 css_file (File (orig ++ css_content)).
Proof.
  unfold transform.
  destruct (extractall a) as [t0|err] eqn:Hx; [|discriminate]. cbn [bind].
  assert (Hok0 : tree_ok t0)
    by (eapply extract_members_ok; [apply tree_ok_nil | exact Hx]).
  destruct (resolve_css_file t0) as [[css_file t1]|err] eqn:Hr; [|discriminate].
  cbn [bind fst snd].
  destruct (append_file t1 css_file css_content) as [t2|err] eqn:Ha; [|discriminate].
  cbn [bind]. intros [= <-].
  pose proof (resolve_css_file_path _ _ _ Hr) as Hcss.
  assert (Hres : tree_ok t1
                 /\ exists n, t_lookup t1 css_file = Some n
                              /\ find_css_file t1 = Some css_file).
  { unfold resolve_css_file in Hr.
    destruct (find_css_file t0) as [q|] eqn:Hf.
    - injection Hr as <- <-. split; [exact Hok0|].
      pose proof Hf as Hf'. unfold find_css_file in Hf'.
      apply find_some in Hf' as [_ Hex]. unfold t_exists in Hex.
      destruct (t_lookup t0 q) as [n|]; [|discriminate]. now exists n.
    - destruct (makedirs t0 ["OPS"]) as [t'|err] eqn:Hm; [|discriminate].
      cbn [bind] in Hr.
      destruct (write_file t' (join_path ["OPS"; "style.css"]) placeholder_css)
        as [t''|err] eqn:Hw; [|discriminate].
      cbn [bind] in Hr. injection Hr as <- <-.
      assert (Hplain : Forall plain_part ([] ++ ["OPS"])).
      { constructor; [|constructor]. split; [reflexivity|].
        cbn. intros H. repeat (destruct H as [H|H]; [discriminate H|]). exact H. }
      destruct (makedirs_from_ok _ _ _ _ Hok0 Hplain
                  (fun d (H : In d []) => match H with end) Hm) as [Hok' Hanc].
      pose proof (write_file_same _ _ _ _ Hw) as Hsame.
      split.
      + unfold write_file in Hw.
        assert (Hkey : key_ok t' (join_path ["OPS"; "style.css"])).
        { change ["OPS"; "style.css"] with (member_parts "OPS/style.css").
          apply target_key_ok; [discriminate | exact Hanc]. }
        destruct (t_lookup t' (join_path ["OPS"; "style.css"])) as [[x|]|] eqn:E;
          try discriminate; injection Hw as <-;
          (apply t_set_ok; [exact Hok' | congruence | exact Hkey]).
      + exists (File placeholder_css). split; [exact Hsame|].
        unfold find_css_file, possible_paths. cbn [find].
        unfold t_exists. change (join_path ["OPS"; "style.css"])
          with "OPS/style.css" in Hsame. now rewrite Hsame. }
  destruct Hres as (Hok1 & n & Hn & Hfind).
  unfold append_file in Ha. rewrite Hn in Ha.
  destruct n as [orig|]; [|discriminate]. injection Ha as <-.
  exists (t_set t1 css_file (File (orig ++ css_content))), css_file, orig.
  split; [reflexivity|].
  split; [apply t_set_ok; [exact Hok1 | congruence | eapply (proj2 Hok1); eauto]|].
  split; [exact Hcss|]. split; [apply t_lookup_set_same|].
  split.
  - rewrite <- Hfind. unfold find_css_file. apply find_ext_eq.
    intros p _. apply t_exists_set_existing. unfold t_exists. now rewrite Hn.
  - exists t0, t1. repeat split; assumption.
Qed.

Lemma tree_files_keys (t : tree) (p c : string) :
  In (p, c) (tree_files t) -> In (p, File c) t.
Proof.
  induction t as [|[q n] t IH]; cbn [tree_files]; [intros []|].
  destruct n as [d|].
  - intros [[= -> ->]|H]; [now left | right; now apply IH].
  - intros H. right. now apply IH.
Qed.

Lemma in_tree_lookup (t : tree) (p : string) (n : node) :
  NoDup (map fst t) -> In (p, n) t -> t_lookup t p = Some n.
Proof.
  induction t as [|[q m] t IH]; cbn [map fst t_lookup]; [intros _ []|].
  intros Hnd [[= -> ->]|Hin]; [now rewrite String.eqb_refl|].
  inversion Hnd as [|? ? Hq Ht]; subst.
  destruct (String.eqb_spec q p) as [->|Hne]; [|now apply IH].
  exfalso. apply Hq. apply in_map_iff. now exists (p, n).
Qed.

Lemma tree_files_lookup_back (t : tree) (p c : string) :
  NoDup (map fst t) -> In (p, c) (tree_files t) ->
  t_lookup t p = Some (File c).
Proof. intros Hnd H. apply in_tree_lookup; [exact Hnd | now apply tree_files_keys]. Qed.

Lemma tree_files_nodup (t : tree) :
  NoDup (map fst t) -> NoDup (map fst (tree_files t)).
Proof.
  induction t as [|[q n] t IH]; cbn [map fst tree_files]; [trivial|].
  intros Hnd. inversion Hnd as [|? ? Hq Ht]; subst.
  destruct n as [d|]; [|now apply IH]. cbn [map fst].
  constructor; [|now apply IH].
  intros H. apply Hq. apply in_map_iff in H as ((q', c) & Heq & Hin).
  cbn [fst] in Heq. subst q'. apply tree_files_keys in Hin.
  apply in_map_iff. now exists (q, File c).
Qed.

Lemma nodup_map_filter {A B} (f : A -> B) (keep : A -> bool) (l : list A) :
  NoDup (map f l) -> NoDup (map f (filter keep l)).
Proof.
  induction l as [|x l IH]; cbn [map filter]; [trivial|].
  intros Hnd. inversion Hnd as [|? ? Hx Hl]; subst.
  destruct (keep x); [|now apply IH]. cbn [map].
  constructor; [|now apply IH].
  intros H. apply Hx. apply in_map_iff in H as (y & Hy & Hin).
  apply filter_In in Hin as [Hin _]. apply in_map_iff. now exists y.
Qed.

Lemma walk_members_spec (h : Host) (t : tree) (x : entry) :
  (forall l, Permutation (scandir_order h l) l) ->
  NoDup (map fst t) ->
  In x (walk_members h t) <->
  t_lookup t (e_name x) = Some (File (e_data x))
  /\ basename (e_name x) <> "mimetype"
  /\ e_compress x = ZIP_DEFLATED.
Proof.
  intros Hperm Hnd. unfold walk_members. rewrite in_map_iff. split.
  - intros ((p, c) & <- & Hin). cbn [fst snd e_name e_data e_compress].
    apply filter_In in Hin as [Hin Hb]. cbn [fst] in Hb.
    apply (Permutation_in _ (Hperm _)) in Hin.
    split; [now apply tree_files_lookup_back|]. split; [|reflexivity].
    intros E. rewrite E in Hb. discriminate.
  - intros (Hl & Hb & Hc). exists (e_name x, e_data x). split.
    + destruct x as [n d c]. cbn in *. now subst.
    + apply filter_In. cbn [fst]. split.
      * apply (Permutation_in _ (Permutation_sym (Hperm _))).
        now apply tree_files_lookup.
      * now destruct (String.eqb_spec (basename (e_name x)) "mimetype").
Qed.

(** X14. The archive [transform] builds has no member name twice; its
    members are deflated, but for a [mimetype] member, which is stored
    and comes first; and each member other than a directory member
    [mimetype/] bears a name that extraction maps to itself. *)
Theorem output_members_well_formed (h : Host) (css_content : string)
    (a out : archive) :
  (forall l, Permutation (scandir_order h l) l) ->
  transform h css_content a = Ok out ->
  NoDup (map e_name out)
  /\ (forall x, In x out ->
        e_compress x = ZIP_DEFLATED
        \/ (e_compress x = ZIP_STORED
            /\ (e_name x = "mimetype" \/ e_name x = "mimetype/")
            /\ exists rest, out = x :: rest))
  /\ (forall x, In x out ->
        e_name x = "mimetype/"
        \/ (member_target x = e_name x /\ member_is_dir (e_name x) = false)).
Proof.
  intros Hperm Ht.
  destruct (transform_inv _ _ _ _ Ht) as (t2 & css_file & orig & -> & Hok & _).
  destruct Hok as [Hnd Hkeys]. unfold build_archive.
  assert (Hwalk : forall x, In x (walk_members h t2) ->
                            key_ok t2 (e_name x) /\ e_compress x = ZIP_DEFLATED
                            /\ e_name x <> "mimetype").
  { intros x Hx. pose proof (basename_mimetype_excluded _ _ _ Hx) as Hn.
    apply (walk_members_spec h t2 x Hperm Hnd) in Hx as (Hl & _ & Hc).
    split; [eapply Hkeys; eauto | now split]. }
  assert (Hwnd : NoDup (map e_name (walk_members h t2))).
  { unfold walk_members. rewrite map_map. cbn [e_name].
    apply nodup_map_filter.
    apply (Permutation_NoDup (Permutation_map fst (Permutation_sym (Hperm _)))).
    now apply tree_files_nodup. }
  split; [|split].
  - unfold mimetype_member.
    destruct (t_lookup t2 "mimetype") as [[c|]|]; cbn [app map e_name];
      try exact Hwnd; constructor; try exact Hwnd;
      intros H; apply in_map_iff in H as (x & Hname & Hx);
      destruct (Hwalk x Hx) as (Hkey & _ & Hne); try congruence.
    destruct Hkey as (_ & _ & _ & Hdir & _). rewrite Hname in Hdir. discriminate.
  - intros x Hx. apply in_app_or in Hx as [Hx|Hx].
    + right. unfold mimetype_member in *.
      destruct (t_lookup t2 "mimetype") as [[c|]|]; cbn [In] in Hx;
        try contradiction; destruct Hx as [<-|[]]; cbn [e_compress e_name];
        (split; [reflexivity|]); (split; [tauto|]); eexists; reflexivity.
    + left. now apply Hwalk.
  - intros x Hx. apply in_app_or in Hx as [Hx|Hx].
    + unfold mimetype_member in Hx.
      destruct (t_lookup t2 "mimetype") as [[c|]|]; cbn [In] in Hx;
        try contradiction; destruct Hx as [<-|[]]; cbn [e_name];
        [right; split; reflexivity | now left].
    + right. destruct (Hwalk x Hx) as ((_ & _ & Hj & Hd & _) & _).
      split; [exact Hj | exact Hd].
Qed.

Lemma output_members_well_formed_witness :
  NoDup (map e_name
           (match transform Sample.host (get_margin_css 20) Sample.book with
            | Ok out => out
            | Raise _ => []
            end)).
Proof.
  destruct (transform Sample.host (get_margin_css 20) Sample.book)
    as [out|err] eqn:Ht; [|constructor].
  apply (proj1 (output_members_well_formed Sample.host (get_margin_css 20)
                  Sample.book out (fun l => Permutation_refl l) Ht)).
Defined.

(** ** Where the members of the new archive come from *)

Lemma extract_member_file_source (t t' : tree) (e : entry) (p c : string) :
  extract_member t e = Ok t' ->
  t_lookup t' p = Some (File c) ->
  t_lookup t p = Some (File c)
  \/ (member_target e = p /\ member_is_dir (e_name e) = false /\ e_data e = c).
Proof.
  intros Hx Hp.
  destruct (extract_member_file_origin _ _ _ _ _ Hx Hp) as [H|Ht]; [now left|].
  destruct (member_is_dir (e_name e)) eqn:Hd.
  - left. revert Hx.
    unfold extract_member, make_upperdirs, member_target in *.
    destruct (member_parts (e_name e)) as [|d parts]; rewrite Hd.
    + now intros [= <-].
    + destruct (makedirs t (removelast (d :: parts))) as [t1|err] eqn:Hm;
        [|discriminate].
      cbn [bind]. rewrite Ht.
      destruct (t_lookup t1 p) as [[x|]|] eqn:E; try discriminate;
        intros [= <-]; [congruence|].
      rewrite t_lookup_set_same in Hp. discriminate.
  - right. split; [exact Ht|]. split; [reflexivity|].
    pose proof (extract_member_writes _ _ _ Hd Hx) as Hw.
    rewrite Ht in Hw. congruence.
Qed.

Lemma extract_members_file_source (a : archive) (p c : string) :
  forall t t',
    extract_members t a = Ok t' ->
    t_lookup t' p = Some (File c) ->
    t_lookup t p = Some (File c)
    \/ exists e, In e a /\ member_target e = p
                 /\ member_is_dir (e_name e) = false /\ e_data e = c.
Proof.
  induction a as [|x a IH]; intros t t'; cbn [extract_members].
  - intros [= <-] Hp. now left.
  - destruct (extract_member t x) as [t1|err] eqn:Hx; [|discriminate].
    cbn [bind]. intros Hrest Hp.
    destruct (IH _ _ Hrest Hp) as [H1|(e & He & Ht)].
    + destruct (extract_member_file_source _ _ _ _ _ Hx H1) as [H0|Ht];
        [now left | right; exists x; split; [now left | exact Ht]].
    + right. exists e. split; [now right | exact Ht].
Qed.

Lemma resolve_css_file_files_back (t t' : tree) (css_file p c : string) :
  resolve_css_file t = Ok (css_file, t') ->
  p <> css_file ->
  t_lookup t' p = Some (File c) -> t_lookup t p = Some (File c).
Proof.
  unfold resolve_css_file.
  destruct (find_css_file t) as [q|]; [now intros [= <- <-]|].
  destruct (makedirs t ["OPS"]) as [t1|err] eqn:Hm; [|discriminate].
  cbn [bind].
  destruct (write_file t1 (join_path ["OPS"; "style.css"]) placeholder_css)
    as [t2|err] eqn:Hw; [|discriminate].
  cbn [bind]. intros [= <- <-] Hne Hp.
  eapply makedirs_from_files_back; [exact Hm|].
  unfold write_file in Hw.
  destruct (t_lookup t1 (join_path ["OPS"; "style.css"])) as [[x|]|];
    try discriminate; injection Hw as <-;
    now rewrite t_lookup_set_other in Hp.
Qed.

(** X15. [transform] invents no file: a member of the new archive is the
    stylesheet appended to, or the directory member [mimetype/], or it
    carries the path and the bytes of a file member of the source. *)
Theorem output_members_come_from_source (h : Host) (css_content : string)
    (a out : archive) :
  (forall l, Permutation (scandir_order h l) l) ->
  transform h css_content a = Ok out ->
  exists css_file,
    In css_file possible_paths
    /\ forall x, In x out ->
         e_name x = css_file
         \/ e_name x = "mimetype/"
         \/ exists e,
              In e a /\ member_is_dir (e_name e) = false
              /\ member_target e = e_name x /\ e_data e = e_data x.
Proof.
  intros Hperm Ht.
  destruct (transform_inv _ _ _ _ Ht)
    as (t2 & css_file & orig & -> & [Hnd _] & Hcss & _ & _
        & t0 & t1 & Hx & Hr & _ & ->).
  exists css_file. split; [exact Hcss|].
  assert (Hfile : forall p c,
             t_lookup (t_set t1 css_file (File (orig ++ css_content))) p
             = Some (File c) ->
             p = css_file
             \/ exists e, In e a /\ member_is_dir (e_name e) = false
                          /\ member_target e = p /\ e_data e = c).
  { intros p c Hp. destruct (string_dec p css_file) as [->|Hne]; [now left|].
    right. rewrite t_lookup_set_other in Hp by exact Hne.
    apply (resolve_css_file_files_back _ _ _ _ _ Hr Hne) in Hp.
    destruct (extract_members_file_source _ _ _ _ _ Hx Hp)
      as [H|(e & He & Ht' & Hd & Hc)]; [discriminate|].
    exists e. repeat split; assumption. }
  intros x Hin. unfold build_archive in Hin. apply in_app_or in Hin as [Hin|Hin].
  - unfold mimetype_member in Hin.
    destruct (t_lookup _ "mimetype") as [[c|]|] eqn:Hm; cbn [In] in Hin;
      try contradiction; destruct Hin as [<-|[]]; cbn [e_name e_data];
      [|right; now left].
    destruct (Hfile _ _ Hm) as [H|H]; [now left | right; now right].
  - apply (walk_members_spec h _ x Hperm Hnd) in Hin as (Hl & _ & _).
    destruct (Hfile _ _ Hl) as [H|H]; [now left | right; now right].
Qed.

Lemma output_members_come_from_source_witness :
  exists css_file,
    In css_file possible_paths
    /\ forall x,
         In x (match transform Sample.host (get_margin_css 20) Sample.book with
               | Ok out => out
               | Raise _ => []
               end) ->
         e_name x = css_file
         \/ e_name x = "mimetype/"
         \/ exists e,
              In e Sample.book /\ member_is_dir (e_name e) = false
              /\ member_target e = e_name x /\ e_data e = e_data x.
Proof.
  destruct (transform Sample.host (get_margin_css 20) Sample.book)
    as [out|err] eqn:Ht; [|vm_compute in Ht; discriminate Ht].
  apply (output_members_come_from_source Sample.host (get_margin_css 20)
           Sample.book out (fun l => Permutation_refl l) Ht).
Defined.

(** ** Processing an archive the tool wrote *)

Lemma makedirs_from_sub (T : tree) (rest : list string) :
  forall t done,
    sub_tree t T ->
    (forall d, In d (prefixes_from done rest) ->
               t_lookup T (join_path d) = Some Dir) ->
    exists t',
      makedirs_from t done rest = Ok t'
      /\ sub_tree t' T
      /\ forall p n, t_lookup t p = Some n -> t_lookup t' p = Some n.
Proof.
  induction rest as [|c rest IH]; intros t done Hsub Hanc;
    cbn [makedirs_from].
  - exists t. repeat split; auto.
  - cbn [prefixes_from] in Hanc.
    pose proof (Hanc _ (or_introl eq_refl)) as Hd.
    assert (Hanc' : forall d, In d (prefixes_from (done ++ [c]) rest) ->
                              t_lookup T (join_path d) = Some Dir)
      by (intros d H; apply Hanc; now right).
    destruct (t_lookup t (join_path (done ++ [c]))) as [[x|]|] eqn:E.
    + apply Hsub in E. congruence.
    + apply IH; assumption.
    + destruct (IH (t_set t (join_path (done ++ [c])) Dir) (done ++ [c])%list)
        as (t' & Hm & Hsub' & Hmono); [|exact Hanc'|].
      * intros p n Hp. destruct (string_dec p (join_path (done ++ [c]))) as [->|Hne].
        -- rewrite t_lookup_set_same in Hp. congruence.
        -- rewrite t_lookup_set_other in Hp by exact Hne. now apply Hsub.
      * exists t'. split; [exact Hm|]. split; [exact Hsub'|].
        intros p n Hp. apply Hmono. rewrite t_lookup_set_other; [exact Hp|].
        intros ->. congruence.
Qed.

Lemma extract_file_member_sub (T t : tree) (e : entry) :
  tree_ok T -> sub_tree t T ->
  t_lookup T (e_name e) = Some (File (e_data e)) ->
  exists t',
    extract_member t e = Ok t'
    /\ sub_tree t' T
    /\ (forall p n, t_lookup t p = Some n -> t_lookup t' p = Some n)
    /\ t_lookup t' (e_name e) = Some (File (e_data e)).
Proof.
  intros [_ Hkeys] Hsub HT.
  destruct (Hkeys _ _ HT) as (Hne & _ & Hjoin & Hdir & Hanc).
  unfold extract_member, make_upperdirs. rewrite Hdir.
  destruct (member_parts (e_name e)) as [|c parts] eqn:Hparts; [contradiction|].
  destruct (makedirs_from_sub T _ t [] Hsub Hanc) as (t1 & Hm & Hsub1 & Hmono1).
  unfold makedirs. rewrite Hm. cbn [bind]. rewrite Hjoin. unfold write_file.
  assert (Hnd : t_lookup t1 (e_name e) <> Some Dir).
  { intros H. apply Hsub1 in H. congruence. }
  exists (t_set t1 (e_name e) (File (e_data e))).
  split; [destruct (t_lookup t1 (e_name e)) as [[x|]|]; congruence|].
  split; [|split; [|apply t_lookup_set_same]].
  - intros p n Hp. destruct (string_dec p (e_name e)) as [->|Hp'].
    + rewrite t_lookup_set_same in Hp. congruence.
    + rewrite t_lookup_set_other in Hp by exact Hp'. now apply Hsub1.
  - intros p n Hp. apply Hmono1 in Hp.
    destruct (string_dec p (e_name e)) as [->|Hp'].
    + rewrite t_lookup_set_same. apply Hsub1 in Hp. congruence.
    + now rewrite t_lookup_set_other.
Qed.

Lemma extract_mimetype_dir_sub (T t : tree) (e : entry) :
  sub_tree t T -> e_name e = "mimetype/" ->
  t_lookup T "mimetype" = Some Dir ->
  exists t',
    extract_member t e = Ok t'
    /\ sub_tree t' T
    /\ (forall p n, t_lookup t p = Some n -> t_lookup t' p = Some n)
    /\ t_lookup t' "mimetype" = Some Dir.
Proof.
  intros Hsub Hn HT. unfold extract_member, make_upperdirs. rewrite Hn.
  cbn [member_parts split_path Ascii.eqb Bool.eqb filter invalid_path_part
       String.eqb negb orb removelast makedirs makedirs_from bind member_is_dir].
  change (endswith "mimetype/" "/") with true. cbn [join_path String.concat].
  destruct (t_lookup t "mimetype") as [[x|]|] eqn:E.
  - apply Hsub in E. congruence.
  - exists t. repeat split; auto.
  - exists (t_set t "mimetype" Dir). split; [reflexivity|].
    split; [|split; [|apply t_lookup_set_same]].
    + intros p n Hp. destruct (string_dec p "mimetype") as [->|Hp'].
      * rewrite t_lookup_set_same in Hp. congruence.
      * rewrite t_lookup_set_other in Hp by exact Hp'. now apply Hsub.
    + intros p n Hp. rewrite t_lookup_set_other; [exact Hp|].
      intros ->. congruence.
Qed.

(** Members that name files and directories of a well-formed directory
    [T] are extracted without an error, into a part of [T]. *)
Lemma extract_members_sub (T : tree) (es : archive) :
  tree_ok T ->
  (forall e, In e es ->
     t_lookup T (e_name e) = Some (File (e_data e))
     \/ (e_name e = "mimetype/" /\ t_lookup T "mimetype" = Some Dir)) ->
  forall t,
    sub_tree t T ->
    exists t',
      extract_members t es = Ok t'
      /\ sub_tree t' T
      /\ (forall p n, t_lookup t p = Some n -> t_lookup t' p = Some n)
      /\ forall e, In e es ->
           (t_lookup T (e_name e) = Some (File (e_data e)) ->
            t_lookup t' (e_name e) = Some (File (e_data e)))
           /\ (e_name e = "mimetype/" -> t_lookup T "mimetype" = Some Dir ->
               t_lookup t' "mimetype" = Some Dir).
Proof.
  intros Hok. induction es as [|e es IH]; intros Hes t Hsub;
    cbn [extract_members].
  - exists t. split; [reflexivity|]. split; [exact Hsub|]. split; [auto|].
    intros e [].
  - assert (Hstep : exists t1,
               extract_member t e = Ok t1 /\ sub_tree t1 T
               /\ (forall p n, t_lookup t p = Some n -> t_lookup t1 p = Some n)
               /\ (t_lookup T (e_name e) = Some (File (e_data e)) ->
                   t_lookup t1 (e_name e) = Some (File (e_data e)))
               /\ (e_name e = "mimetype/" -> t_lookup T "mimetype" = Some Dir ->
                   t_lookup t1 "mimetype" = Some Dir)).
    { destruct (Hes e (or_introl eq_refl)) as [Hf|[Hn Hd]].
      - destruct (extract_file_member_sub T t e Hok Hsub Hf)
          as (t1 & H1 & H2 & H3 & H4).
        exists t1. repeat split; auto.
        intros Hn Hd. destruct Hok as [_ Hkeys].
        destruct (Hkeys _ _ Hf) as (_ & _ & _ & Hdir & _).
        rewrite Hn in Hdir. discriminate.
      - destruct (extract_mimetype_dir_sub T t e Hsub Hn Hd)
          as (t1 & H1 & H2 & H3 & H4).
        exists t1. repeat split; auto.
        intros Hf. destruct Hok as [_ Hkeys].
        destruct (Hkeys _ _ Hf) as (_ & _ & _ & Hdir & _).
        rewrite Hn in Hdir. discriminate. }
    destruct Hstep as (t1 & H1 & Hsub1 & Hmono1 & Hfile1 & Hdir1).
    rewrite H1. cbn [bind].
    destruct (IH (fun e' He' => Hes e' (or_intror He')) t1 Hsub1)
      as (t' & Hx & Hsub' & Hmono' & Hall).
    exists t'. split; [exact Hx|]. split; [exact Hsub'|].
    split; [intros p n Hp; apply Hmono', Hmono1, Hp|].
    intros e' [<-|He'].
    + split; [intros Hf; apply Hmono'; now apply Hfile1
             | intros Hn Hd; apply Hmono'; now apply Hdir1].
    + now apply Hall.
Qed.

Lemma possible_paths_basename (p : string) :
  In p possible_paths -> basename p <> "mimetype" /\ p <> "mimetype".
Proof.
  intros [<-|[<-|[<-|[<-|[]]]]]; split; intros H; vm_compute in H; discriminate H.
Qed.

(** X16. An archive the tool wrote can be processed again, and nothing
    marks that it was processed before: the second [transform] finds the
    same stylesheet and appends its fragment after the first one, and
    every other member of the first result is in the second as it is. *)
Theorem reprocessing_appends_again (h : Host) (css_content css_content' : string)
    (a out : archive) :
  (forall l, Permutation (scandir_order h l) l) ->
  transform h css_content a = Ok out ->
  exists out2 css_file orig,
    In css_file possible_paths
    /\ transform h css_content' out = Ok out2
    /\ In (mk_entry css_file (orig ++ css_content) ZIP_DEFLATED) out
    /\ In (mk_entry css_file ((orig ++ css_content) ++ css_content') ZIP_DEFLATED)
          out2
    /\ forall x, In x out -> e_name x <> css_file -> In x out2.
Proof.
  intros Hperm Ht.
  destruct (transform_inv _ _ _ _ Ht)
    as (T & css_file & orig & -> & HokT & Hcss & Hstyle & Hfind & _).
  pose proof HokT as [HndT HkeysT].
  destruct (possible_paths_basename _ Hcss) as [Hbase Hnm].
  assert (Hmembers : forall e, In e (build_archive h T) ->
             t_lookup T (e_name e) = Some (File (e_data e))
             \/ (e_name e = "mimetype/" /\ t_lookup T "mimetype" = Some Dir)).
  { intros e He. unfold build_archive in He. apply in_app_or in He as [He|He].
    - unfold mimetype_member in He.
      destruct (t_lookup T "mimetype") as [[c|]|] eqn:Hm; cbn [In] in He;
        try contradiction; destruct He as [<-|[]]; cbn [e_name e_data];
        [now left | right; now split].
    - left. now apply (walk_members_spec h T e Hperm HndT) in He as (Hl & _). }
  destruct (extract_members_sub T (build_archive h T) HokT Hmembers [])
    as (t0 & Hx & Hsub & _ & Hall); [intros p n H; discriminate H|].
  assert (Hok0 : tree_ok t0)
    by (eapply extract_members_ok; [apply tree_ok_nil | exact Hx]).
  assert (Hin_style : In (mk_entry css_file (orig ++ css_content) ZIP_DEFLATED)
                         (build_archive h T)).
  { unfold build_archive. apply in_or_app. right.
    apply (walk_members_spec h T _ Hperm HndT). cbn [e_name e_data e_compress].
    now repeat split. }
  assert (Hstyle0 : t_lookup t0 css_file = Some (File (orig ++ css_content))).
  { exact (proj1 (Hall _ Hin_style) Hstyle). }
  assert (Hfind0 : find_css_file t0 = Some css_file).
  { unfold find_css_file in *. apply find_first in Hfind
      as (before & after & Hlist & _ & Hbefore).
    apply find_first. exists before, after. split; [exact Hlist|].
    split; [unfold t_exists; now rewrite Hstyle0|].
    intros q Hq. specialize (Hbefore q Hq). unfold t_exists in *.
    destruct (t_lookup t0 q) as [n|] eqn:E; [|reflexivity].
    apply Hsub in E. now rewrite E in Hbefore. }
  set (T2 := t_set t0 css_file (File ((orig ++ css_content) ++ css_content'))).
  assert (Hok2 : tree_ok T2).
  { apply t_set_ok; [exact Hok0 | congruence | eapply (proj2 Hok0); eauto]. }
  exists (build_archive h T2), css_file, orig.
  split; [exact Hcss|]. split.
  { unfold transform, extractall. rewrite Hx. cbn [bind].
    unfold resolve_css_file. rewrite Hfind0. cbn [bind fst snd].
    unfold append_file. rewrite Hstyle0. reflexivity. }
  split; [exact Hin_style|]. split.
  { unfold build_archive. apply in_or_app. right.
    apply (walk_members_spec h T2 _ Hperm (proj1 Hok2)).
    cbn [e_name e_data e_compress]. split; [apply t_lookup_set_same | now split]. }
  intros x Hin Hne.
  destruct (Hall x Hin) as [Hfile Hdir].
  unfold build_archive in Hin |- *. apply in_app_or in Hin as [Hin|Hin].
  - apply in_or_app. left. unfold mimetype_member in *.
    destruct (t_lookup T "mimetype") as [[c|]|] eqn:Hm; cbn [In] in Hin;
      try contradiction; destruct Hin as [<-|[]]; cbn [e_name e_data] in *.
    + unfold T2. rewrite t_lookup_set_other by exact Hne.
      rewrite (Hfile Hm). now left.
    + unfold T2. rewrite t_lookup_set_other by (intros E; now apply Hnm).
      rewrite (Hdir eq_refl eq_refl). now left.
  - apply in_or_app. right.
    apply (walk_members_spec h T x Hperm HndT) in Hin as (Hl & Hb & Hc).
    apply (walk_members_spec h T2 x Hperm (proj1 Hok2)).
    split; [|now split]. unfold T2. rewrite t_lookup_set_other by exact Hne.
    now apply Hfile.
Qed.

Lemma reprocessing_appends_again_witness :
  exists out2 css_file orig,
    In css_file possible_paths
    /\ transform Sample.host (get_margin_css 20)
         (match transform Sample.host (get_margin_css 20) Sample.book with
          | Ok out => out
          | Raise _ => []
          end) = Ok out2
    /\ In (mk_entry css_file
             ((orig ++ get_margin_css 20) ++ get_margin_css 20) ZIP_DEFLATED)
          out2.
Proof.
  destruct (transform Sample.host (get_margin_css 20) Sample.book)
    as [out|err] eqn:Ht; [|vm_compute in Ht; discriminate Ht].
  destruct (reprocessing_appends_again Sample.host (get_margin_css 20)
              (get_margin_css 20) Sample.book out
              (fun l => Permutation_refl l) Ht)
    as (out2 & css_file & orig & H1 & H2 & _ & H4 & _).
  exists out2, css_file, orig. repeat split; assumption.
Defined.

(** ** Where the files of a command-line run come from *)

(** X17. With [--all] among the arguments the files named on the command
    line are dropped: every file the run processes is a match of the
    scan [*.epub].  (The loop over [set(epub_files)] is taken to meet
    only elements of the list.) *)
Theorem all_flag_overrides_named_files (h : Host) (w : fs) (argv : list string)
    (f : string) :
  (forall l x, In x (set_iter h l) -> In x l) ->
  In "--all" argv ->
  In f (Cli.processed (Cli.main h w argv)) ->
  In f (glob h "*.epub").
Proof.
  intros Hset Hall. unfold Cli.main.
  destruct (Cli.parse_args h (tl argv) [] 20) as [code msgs|epub_files m];
    [intros []|].
  cbv zeta.
  assert (Hscan : Cli.scans argv epub_files = true).
  { unfold Cli.scans. destruct epub_files; [reflexivity|].
    apply existsb_exists. exists "--all". split; [exact Hall | reflexivity]. }
  unfold Cli.resolved. rewrite Hscan. unfold Cli.get_epub_files.
  destruct (glob h "*.epub") as [|x l] eqn:Hg; [intros []|].
  destruct (Cli.filter_files h (set_iter h (x :: l))) as [unique_files skipped] eqn:Hf.
  destruct unique_files as [|u us]; [intros []|].
  cbn [Cli.processed]. intros Hin.
  assert (Hin' : In f (fst (Cli.filter_files h (set_iter h (x :: l)))))
    by (rewrite Hf; exact Hin).
  apply filter_files_spec in Hin' as [Hin' _]. now apply Hset.
Qed.

Lemma all_flag_overrides_named_files_witness :
  In "book.epub" (glob Sample.host "*.epub").
Proof.
  apply (all_flag_overrides_named_files Sample.host Sample.disk
           ["modify_epub_margins.py"; "broken.epub"; "--all"] "book.epub").
  - intros l x Hx. cbn [set_iter Sample.host] in Hx. now apply nodup_In in Hx.
  - right. right. left. reflexivity.
  - vm_compute. left. reflexivity.
Defined.

(** ** The margin prompt *)

(** X18. The margin prompt hands on the answer of the first line that is
    empty or a number once stripped -- 20 for the empty line, the number
    otherwise, whatever its sign or size -- after asking again for every
    line before it, and leaves the lines after it unread; it fails only
    when no line is of that kind. *)
Theorem ask_margin_size_first_valid (h : Host) (stdin : list string) :
  match Interactive.ask_margin_size h stdin with
  | Some (n, rest) =>
      exists skipped line,
        stdin = (skipped ++ line :: rest)%list
        /\ (forall s, In s skipped ->
              py_strip h s <> "" /\ py_int h (py_strip h s) = None)
        /\ ((py_strip h line = "" /\ n = 20%Z)
            \/ (py_strip h line <> "" /\ py_int h (py_strip h line) = Some n))
  | None =>
      forall s, In s stdin ->
        py_strip h s <> "" /\ py_int h (py_strip h s) = None
  end.
Proof.
  induction stdin as [|line stdin IH]; cbn [Interactive.ask_margin_size].
  - intros s [].
  - destruct (String.eqb_spec (py_strip h line) "") as [He|He].
    + exists [], line. split; [reflexivity|]. split; [intros s []|]. now left.
    + destruct (py_int h (py_strip h line)) as [n|] eqn:Hn.
      * exists [], line. split; [reflexivity|]. split; [intros s []|]. now right.
      * destruct (Interactive.ask_margin_size h stdin) as [[n rest]|].
        -- destruct IH as (skipped & l & -> & Hsk & Hl).
           exists (line :: skipped), l. split; [reflexivity|]. split; [|exact Hl].
           intros s [<-|Hs]; [now split | now apply Hsk].
        -- intros s [<-|Hs]; [now split | now apply IH].
Qed.

(** ** No processing without a yes *)

Lemma ask_modification_type_incl (h : Host) (stdin : list string) :
  forall r rest,
    Interactive.ask_modification_type h stdin = Some (r, rest) ->
    incl rest stdin.
Proof.
  induction stdin as [|line stdin IH]; intros r rest; cbn; [discriminate|].
  repeat (match goal with
          | |- context [if ?b then _ else _] => destruct b
          end; [intros [= _ <-]; apply incl_tl, incl_refl|]).
  intros H. apply incl_tl. eapply IH; eauto.
Qed.

Lemma ask_margin_size_incl (h : Host) (stdin : list string) :
  forall r rest,
    Interactive.ask_margin_size h stdin = Some (r, rest) -> incl rest stdin.
Proof.
  induction stdin as [|line stdin IH]; intros r rest; cbn; [discriminate|].
  destruct (String.eqb _ _); [intros [= _ <-]; apply incl_tl, incl_refl|].
  destruct (py_int h _); [intros [= _ <-]; apply incl_tl, incl_refl|].
  intros H. apply incl_tl. eapply IH; eauto.
Qed.

Lemma ask_output_mode_incl (h : Host) (stdin : list string) :
  forall r rest,
    Interactive.ask_output_mode h stdin = Some (r, rest) -> incl rest stdin.
Proof.
  induction stdin as [|line stdin IH]; intros r rest; cbn; [discriminate|].
  repeat (match goal with
          | |- context [if ?b then _ else _] => destruct b
          end; [intros [= _ <-]; apply incl_tl, incl_refl|]).
  intros H. apply incl_tl. eapply IH; eauto.
Qed.

Lemma ask_file_selection_incl (h : Host) (files stdin : list string) :
  forall r rest,
    Interactive.ask_file_selection h files stdin = Some (r, rest) ->
    incl rest stdin.
Proof.
  induction stdin as [|line stdin IH]; intros r rest; cbn; [discriminate|].
  destruct (String.eqb _ "0"); [intros [= _ <-]; apply incl_tl, incl_refl|].
  destruct (String.eqb _ _); [intros [= _ <-]; apply incl_tl, incl_refl|].
  destruct (py_int h _) as [n|].
  - destruct (_ && _)%bool; [intros [= _ <-]; apply incl_tl, incl_refl|].
    intros H. apply incl_tl. eapply IH; eauto.
  - intros H. apply incl_tl. eapply IH; eauto.
Qed.

Lemma iteration_inputs (h : Host) (epub_files : list string) (w : fs)
    (stdin : list string) :
  (forall w' stdin' tr,
     Interactive.iteration h epub_files w stdin
     = Interactive.Continue w' stdin' tr -> incl stdin' stdin)
  /\ ((exists f mode,
         In (Interactive.Processing f mode)
            (step_trace (Interactive.iteration h epub_files w stdin))) ->
      exists line, In line stdin /\ Interactive.says_yes h line = true).
Proof.
  set (Q := fun (s : Interactive.step) =>
    (forall w' stdin' tr, s = Interactive.Continue w' stdin' tr ->
                          incl stdin' stdin)
    /\ ((exists f mode, In (Interactive.Processing f mode) (step_trace s)) ->
        exists line, In line stdin /\ Interactive.says_yes h line = true)).
  change (Q (Interactive.iteration h epub_files w stdin)).
  assert (Hquiet : forall s,
            (forall w' stdin' tr, s = Interactive.Continue w' stdin' tr ->
                                  incl stdin' stdin) ->
            (step_trace s = [Interactive.AtMenu]
             \/ exists a, step_trace s
                          = [Interactive.AtMenu; Interactive.AnsweredOverwrite a]) ->
            Q s).
  { intros s Hc Htr. split; [exact Hc|]. intros (f & mode & Hin).
    destruct Htr as [Htr|[a Htr]]; rewrite Htr in Hin; cbn in Hin;
      repeat (destruct Hin as [Hin|Hin]; [discriminate Hin|]); contradiction. }
  unfold Interactive.iteration.
  destruct (Interactive.ask_modification_type h stdin) as [[[mt|] in1]|] eqn:H1;
    [| apply Hquiet; [discriminate | now left]
     | apply Hquiet; [discriminate | now left]].
  apply ask_modification_type_incl in H1.
  destruct (if (String.eqb mt "margins" || String.eqb mt "both")%bool
            then Interactive.ask_margin_size h in1 else Some (20%Z, in1))
    as [[margin_size in2]|] eqn:H2;
    [| apply Hquiet; [discriminate | now left]].
  assert (L2 : incl in2 stdin).
  { destruct (_ || _)%bool.
    - apply ask_margin_size_incl in H2. eapply incl_tran; eauto.
    - now injection H2 as _ <-. }
  destruct (Interactive.ask_output_mode h in2) as [[[mode|] in3]|] eqn:H3;
    [| apply Hquiet; [|now left] | apply Hquiet; [discriminate | now left]].
  2:{ intros w' stdin' tr [= _ <- _]. apply ask_output_mode_incl in H3.
      eapply incl_tran; eauto. }
  apply ask_output_mode_incl in H3.
  assert (L3 : incl in3 stdin) by (eapply incl_tran; eauto).
  assert (Hrest :
    forall in4 pre,
      incl in4 stdin ->
      (pre = [Interactive.AtMenu]
       \/ exists a, pre = [Interactive.AtMenu; Interactive.AnsweredOverwrite a]) ->
      Q match
          (if String.eqb mode "folder"
           then match Interactive.mkdir_output_dir h w
                        (parse_path "books-upgrade") with
                | Ok w1 => Ok (Some (parse_path "books-upgrade"), w1)
                | Raise e => Raise e
                end
           else Ok (None, w))
        with
        | Raise e => Interactive.Uncaught e w pre
        | Ok (output_dir, w1) =>
            match Interactive.ask_file_selection h epub_files in4 with
            | None => Interactive.Uncaught EOFError w1 pre
            | Some (None, in5) => Interactive.Continue w1 in5 pre
            | Some (Some selected_files, in5) =>
                match in5 with
                | [] => Interactive.Uncaught EOFError w1 pre
                | confirm :: in6 =>
                    if negb (Interactive.says_yes h confirm)
                    then Interactive.Continue w1 in6 pre
                    else
                      let st :=
                        Interactive.batch h mt margin_size mode output_dir
                          selected_files (Interactive.mk_batch w1 0 pre) in
                      match in6 with
                      | [] =>
                          Interactive.Uncaught EOFError (Interactive.b_fs st)
                            (Interactive.b_trace st)
                      | another :: in7 =>
                          if negb (Interactive.says_yes h another)
                          then Interactive.Break (Interactive.b_fs st)
                                 (Interactive.b_trace st)
                          else Interactive.Continue (Interactive.b_fs st) in7
                                 (Interactive.b_trace st)
                      end
                end
            end
        end).
  { intros in4 pre L4 Hpre.
    destruct (if String.eqb mode "folder" then _ else _) as [[dir w1]|err];
      [| apply Hquiet; [discriminate | exact Hpre]].
    destruct (Interactive.ask_file_selection h epub_files in4)
      as [[[selected|] in5]|] eqn:H5;
      [| apply Hquiet; [|exact Hpre] | apply Hquiet; [discriminate | exact Hpre]].
    2:{ intros w' stdin' tr [= _ <- _]. apply ask_file_selection_incl in H5.
        eapply incl_tran; eauto. }
    apply ask_file_selection_incl in H5.
    assert (L5 : incl in5 stdin) by (eapply incl_tran; eauto).
    destruct in5 as [|confirm in6]; [apply Hquiet; [discriminate | exact Hpre]|].
    destruct (Interactive.says_yes h confirm) eqn:Hyes; cbn [negb].
    - assert (Hline : exists line, In line stdin
                                   /\ Interactive.says_yes h line = true).
      { exists confirm. split; [apply L5; now left | exact Hyes]. }
      cbv zeta. destruct in6 as [|another in7];
        [| destruct (negb (Interactive.says_yes h another))];
        (split; [|intros _; exact Hline]); try discriminate.
      intros w' stdin' tr [= _ <- _]. intros x Hx. apply L5. right. now right.
    - apply Hquiet; [|exact Hpre].
      intros w' stdin' tr [= _ <- _]. intros x Hx. apply L5. now right. }
  destruct (String.eqb mode "replace").
  - destruct in3 as [|answer in4]; [apply Hquiet; [discriminate | now left]|].
    destruct (negb (Interactive.confirms_replace h answer)).
    + apply Hquiet; [|right; now exists answer].
      intros w' stdin' tr [= _ <- _]. intros x Hx. apply L3. now right.
    + apply Hrest; [intros x Hx; apply L3; now right | right; now exists answer].
  - apply Hrest; [exact L3 | now left].
Qed.

Lemma main_loop_needs_yes (h : Host) (epub_files : list string) (f mode : string) :
  forall fuel w stdin tr,
    In (Interactive.Processing f mode)
       (Interactive.trace (Interactive.main_loop fuel h epub_files w stdin tr)) ->
    In (Interactive.Processing f mode) tr
    \/ exists line, In line stdin /\ Interactive.says_yes h line = true.
Proof.
  induction fuel as [|fuel IH]; intros w stdin tr; cbn [Interactive.main_loop];
    [now left|].
  destruct (iteration_inputs h epub_files w stdin) as [Hcont Hyes].
  destruct (Interactive.iteration h epub_files w stdin) as [w' tr'|e w' tr'|w' in' tr'];
    cbn [Interactive.trace step_trace] in *.
  - intros H. apply in_app_or in H as [H|H]; [now left | right; apply Hyes; eauto].
  - intros H. apply in_app_or in H as [H|H]; [now left | right; apply Hyes; eauto].
  - intros H. apply IH in H as [H|(line & Hl & Hy)].
    + apply in_app_or in H as [H|H]; [now left | right; apply Hyes; eauto].
    + right. exists line. split; [|exact Hy]. eapply Hcont; eauto.
Qed.

(** X19. The interactive tool calls [process_epub] only after the user
    has typed a yes ([y], [yes], [д] or [да] once stripped and lowered):
    a run whose input holds no such line processes no file. *)
Theorem no_processing_without_yes (h : Host) (w : fs) (stdin : list string) :
  (forall line, In line stdin -> Interactive.says_yes h line = false) ->
  forall f mode,
    ~ In (Interactive.Processing f mode)
         (Interactive.trace (Interactive.main h w stdin)).
Proof.
  intros Hno f mode. unfold Interactive.main.
  destruct (Interactive.get_epub_files h) as [|x l]; [intros []|].
  intros H. apply main_loop_needs_yes in H as [[]|(line & Hl & Hy)].
  rewrite (Hno line Hl) in Hy. discriminate.
Qed.

Lemma no_processing_without_yes_witness :
  Interactive.says_yes Sample.host "n" = false
  /\ ~ In (Interactive.Processing "book.epub" "folder")
          (Interactive.trace
             (Interactive.main Sample.host Sample.disk
                ["2"; "1"; "1"; "n"; "0"])).
Proof.
  split; [reflexivity|].
  apply (no_processing_without_yes Sample.host Sample.disk
           ["2"; "1"; "1"; "n"; "0"]).
  intros line Hl. cbn in Hl.
  repeat (destruct Hl as [<-|Hl]; [reflexivity|]). contradiction.
Defined.
